(** * YoutubeDownloaderApp: the download-job core of the server

    A shallow embedding of [download.ts] (the job registry, the identity
    resolver, [downloadFromUrl] with its subprocess callbacks and retry
    loop) and of the Express handlers of [server.ts] that read and mutate
    the registry, followed by the properties of the specification that
    were checked against them.

    Conventions of the embedding:
    - a JavaScript string is a [string], one character per code unit (the
      embedding is exact on ASCII text); [startsWith], [split],
      [includes], [trim], [replace], [parseInt] and the two regular
      expressions of the source are written out below;
    - the [Map] [activeDownloads] is an association list in insertion
      order ([Map.prototype.set] keeps the position of a key that is
      already present and appends a new one);
    - [progress] is a JavaScript number; it is kept as the exact rational
      denoted by the digits that [parseFloat] reads (the constants 0, 99
      and 100 are exact, and rounding to a double is monotone);
    - asynchronous code is cut at its [await]s and callbacks: every
      continuation of [downloadFromUrl] is one case of [task_step], and
      what the environment decides (clock readings, subprocess output,
      exit codes, timers firing, the disk changing, incoming requests)
      arrives as an [Event];
    - what the server does to the outside (responses, subprocesses
      started or killed, timers of the retry loop) is appended to
      [effects].

    Left out: the playlist and format-listing routes and [listFormats],
    which only read; [simulateProgress], [simulatePlaylistProgress] and
    [findBestFormat], which nothing calls; console output. *)

From Stdlib Require Import String Ascii List Bool ZArith QArith Qminmax Qround Lia.
From Stdlib Require Import DecimalString Sorted.
Import ListNotations.
Close Scope Q_scope.
Open Scope string_scope.

(* ------------------------------------------------------------------ *)
(** ** JavaScript strings *)

Module JS.

(** [s.startsWith(p)] *)
Definition startsWith (s p : string) : bool := String.prefix p s.

(** [s.includes(sub)] *)
Fixpoint includes (s sub : string) : bool :=
  String.prefix sub s ||
  match s with
  | EmptyString => false
  | String _ r => includes r sub
  end.

(** [s.split(sep)] for a one-character separator; never empty:
    [''.split('_')] is [['']]. *)
Fixpoint split (sep : ascii) (s : string) : list string :=
  match s with
  | EmptyString => [EmptyString]
  | String c r =>
      if Ascii.eqb c sep then EmptyString :: split sep r
      else match split sep r with
           | h :: t => String c h :: t
           | [] => [String c EmptyString]
           end
  end.

(** [a[i]], [None] standing for [undefined]. *)
Definition at_index (a : list string) (i : nat) : option string := nth_error a i.

(** [x || d] on a possibly undefined string: the empty string is falsy. *)
Definition or_else (x : option string) (d : string) : string :=
  match x with
  | Some EmptyString | None => d
  | Some s => s
  end.

(** Truthiness of an optional string field. *)
Definition truthy (x : option string) : bool :=
  match x with
  | Some EmptyString | None => false
  | Some _ => true
  end.

Definition is_digit (c : ascii) : bool :=
  let n := nat_of_ascii c in (48 <=? n)%nat && (n <=? 57)%nat.

(** White space and line terminators in the ASCII range ([\s]). *)
Definition is_space (c : ascii) : bool :=
  let n := nat_of_ascii c in
  (n =? 32)%nat || ((9 <=? n)%nat && (n <=? 13)%nat).

(** [.] of a regular expression without the [s] flag. *)
Definition is_dot (c : ascii) : bool :=
  let n := nat_of_ascii c in negb ((n =? 10)%nat || (n =? 13)%nat).

Definition digit_val (c : ascii) : Z := (Z.of_nat (nat_of_ascii c) - 48)%Z.

(** Value of a run of decimal digits read left to right. *)
Fixpoint digits_val (acc : Z) (s : string) : Z :=
  match s with
  | String c r => if is_digit c then digits_val (10 * acc + digit_val c)%Z r else acc
  | EmptyString => acc
  end.

Fixpoint skip_space (s : string) : string :=
  match s with
  | String c r => if is_space c then skip_space r else s
  | EmptyString => s
  end.

Definition hex_val (c : ascii) : option Z :=
  let n := nat_of_ascii c in
  if is_digit c then Some (Z.of_nat n - 48)%Z
  else if (97 <=? n)%nat && (n <=? 102)%nat then Some (Z.of_nat n - 87)%Z
  else if (65 <=? n)%nat && (n <=? 70)%nat then Some (Z.of_nat n - 55)%Z
  else None.

Fixpoint hex_digits (acc : option Z) (s : string) : option Z :=
  match s with
  | String c r =>
      match hex_val c with
      | Some v => hex_digits (Some (16 * match acc with Some a => a | None => 0 end + v)%Z) r
      | None => acc
      end
  | EmptyString => acc
  end.

(** Unsigned part of [parseInt] without a radix: a [0x] prefix selects
    hexadecimal, otherwise the leading decimal digits; [None] is [NaN]. *)
Definition parse_magnitude (s : string) : option Z :=
  match s with
  | String "0" (String "x" r) | String "0" (String "X" r) => hex_digits None r
  | String c _ => if is_digit c then Some (digits_val 0%Z s) else None
  | EmptyString => None
  end.

(** [parseInt(s)]; [None] is [NaN]. *)
Definition parseInt (s : string) : option Z :=
  match skip_space s with
  | String "-" r => option_map Z.opp (parse_magnitude r)
  | String "+" r => parse_magnitude r
  | r => parse_magnitude r
  end.

(** The Number an integer becomes: itself up to 53 bits, beyond that the
    nearest binary64 number (ties to even); [2 ^ 1024] stands for
    [Infinity] and its opposite for [-Infinity]. *)
Definition double_of_Z (z : Z) : Z :=
  let a := Z.abs z in
  if (a <? 2 ^ 53)%Z then z
  else
    let e := (Z.log2 a - 52)%Z in
    let fl := (a / 2 ^ e)%Z in
    let m := match (2 * (a mod 2 ^ e) ?= 2 ^ e)%Z with
             | Lt => fl
             | Gt => (fl + 1)%Z
             | Eq => if Z.even fl then fl else (fl + 1)%Z
             end in
    (Z.sgn z * Z.min (m * 2 ^ e) (2 ^ 1024))%Z.

(** [a > b] on numbers, false as soon as one side is [NaN]. *)
Definition num_gt (a b : option Z) : bool :=
  match a, b with
  | Some x, Some y => (y <? x)%Z
  | _, _ => false
  end.

(** Template-literal rendering of an integer. *)
Definition string_of_Z (z : Z) : string := NilZero.string_of_int (Z.to_int z).

(** Rendering of a subprocess exit code, [null] when a signal ended it. *)
Definition string_of_code (c : option Z) : string :=
  match c with
  | Some z => string_of_Z z
  | None => "null"
  end.

Fixpoint map_chars (f : ascii -> ascii) (s : string) : string :=
  match s with
  | String c r => String (f c) (map_chars f r)
  | EmptyString => EmptyString
  end.

Fixpoint rev_acc (s acc : string) : string :=
  match s with
  | String c r => rev_acc r (String c acc)
  | EmptyString => acc
  end.

(** [s.trim()] *)
Definition trim (s : string) : string :=
  rev_acc (skip_space (rev_acc (skip_space s) "")) "".

(** [s.replace("p", "")]: the first occurrence of the letter removed. *)
Fixpoint remove_first (x : ascii) (s : string) : string :=
  match s with
  | String c r => if Ascii.eqb c x then r else String c (remove_first x r)
  | EmptyString => EmptyString
  end.

End JS.

(* ------------------------------------------------------------------ *)
(** ** The two regular expressions of download.ts

    A backtracking matcher in continuation-passing style: alternatives
    are tried in order, a star over a character class is greedy and gives
    characters back one at a time, and the search moves the start of the
    match from left to right.  One capturing group. *)

Module Regex.

Inductive re : Type :=
| Chr (p : ascii -> bool)
| Eps
| Seq (a b : re)
| Alt (a b : re)
| Star (p : ascii -> bool)
| Cap (a : re).

Definition Plus (p : ascii -> bool) : re := Seq (Chr p) (Star p).
Definition Opt (a : re) : re := Alt a Eps.

Section Matcher.
Context {A : Type}.

Fixpoint star (p : ascii -> bool) (s : string)
         (k : string -> option A) : option A :=
  match s with
  | String c r =>
      if p c then
        match star p r k with
        | Some x => Some x
        | None => k s
        end
      else k s
  | EmptyString => k s
  end.

(** [k] receives the text captured so far and the rest of the input. *)
Fixpoint run (r : re) (s : string) (cap : option string)
         (k : option string -> string -> option A) : option A :=
  match r with
  | Chr p =>
      match s with
      | String c s' => if p c then k cap s' else None
      | EmptyString => None
      end
  | Eps => k cap s
  | Seq a b => run a s cap (fun cap' s' => run b s' cap' k)
  | Alt a b =>
      match run a s cap k with
      | Some x => Some x
      | None => run b s cap k
      end
  | Star p => star p s (k cap)
  | Cap a =>
      run a s cap
          (fun _ s' =>
             k (Some (substring 0 (String.length s - String.length s') s)) s')
  end.
End Matcher.

(** [s.match(r)]: the capture of the leftmost match, if any. *)
Fixpoint search (r : re) (s : string) : option (option string) :=
  match run r s None (fun cap _ => Some cap) with
  | Some cap => Some cap
  | None =>
      match s with
      | String _ s' => search r s'
      | EmptyString => None
      end
  end.

Definition lower (c : ascii) : ascii :=
  let n := nat_of_ascii c in
  if (65 <=? n)%nat && (n <=? 90)%nat then ascii_of_nat (n + 32) else c.

(** A literal character, case-sensitive or under the [i] flag. *)
Definition lit (c : ascii) : re := Chr (Ascii.eqb c).
Definition liti (c : ascii) : re := Chr (fun x => Ascii.eqb (lower x) (lower c)).

Fixpoint word (mk : ascii -> re) (s : string) : re :=
  match s with
  | String c EmptyString => mk c
  | String c r => Seq (mk c) (word mk r)
  | EmptyString => Eps
  end.

Fixpoint times (n : nat) (a : re) : re :=
  match n with
  | O => Eps
  | S O => a
  | S m => Seq a (times m a)
  end.

Definition one_of (cs : string) (c : ascii) : bool :=
  JS.includes cs (String c EmptyString).

Definition dot : ascii -> bool := JS.is_dot.
Definition not_slash (c : ascii) : bool := negb (Ascii.eqb c "/").

Definition dquote : ascii := ascii_of_nat 34.

(** The class of the eleven captured characters: anything but a double
    quote, [&], [?], [/] and white space. *)
Definition id_char (c : ascii) : bool :=
  negb (Ascii.eqb c dquote || Ascii.eqb c "&" || Ascii.eqb c "?"
        || Ascii.eqb c "/" || JS.is_space c).

(** The pattern of [extractVideoId], under the [i] flag:
    [(?:youtube\.com\/(?:[^\/]+\/.+\/|(?:v|e(?:mbed)?)\/|.*[?&]v=)|youtu\.be\/)]
    followed by the capturing group of eleven [id_char]s. *)
Definition youtube_re : re :=
  Seq (Alt (Seq (word liti "youtube.com/")
                (Alt (Seq (Plus not_slash) (Seq (lit "/") (Seq (Plus dot) (lit "/"))))
                (Alt (Seq (Alt (liti "v") (Seq (liti "e") (Opt (word liti "mbed"))))
                          (lit "/"))
                     (Seq (Star dot) (Seq (Chr (one_of "?&")) (Seq (liti "v") (lit "=")))))))
           (word liti "youtu.be/"))
      (Cap (times 11 (Chr id_char))).

(** The pattern of the stdout callback: the literal [[download]], one or
    more white-space characters, the capturing group (one or more digits,
    an optional point, any number of digits) and a percent sign. *)
Definition progress_re : re :=
  Seq (word lit "[download]")
      (Seq (Plus JS.is_space)
           (Seq (Cap (Seq (Plus JS.is_digit) (Seq (Opt (lit ".")) (Star JS.is_digit))))
                (lit "%"))).

End Regex.

(* ------------------------------------------------------------------ *)
(** ** JavaScript numbers read from subprocess output *)

Module Num.

Fixpoint count_digits (s : string) : nat :=
  match s with
  | String c r => if JS.is_digit c then S (count_digits r) else O
  | EmptyString => O
  end.

Fixpoint skip_digits (s : string) : string :=
  match s with
  | String c r => if JS.is_digit c then skip_digits r else s
  | EmptyString => s
  end.

(** [parseFloat] on text of the shape digits, optional point, digits. *)
Definition parseFloat (s : string) : Q :=
  let whole := JS.digits_val 0%Z s in
  match skip_digits s with
  | String "." f =>
      let scale := (10 ^ Z.of_nat (count_digits f))%Z in
      Qmake (whole * scale + JS.digits_val 0%Z f)%Z (Z.to_pos scale)
  | _ => inject_Z whole
  end.

(** [Math.min(x, 99)] *)
Definition min99 (x : Q) : Q := Qmin x (inject_Z 99).

(** [n / d] rounded to the nearest integer, a tie going to the even one. *)
Definition round_half_even (n d : Z) : Z :=
  let fl := (n / d)%Z in
  match (2 * (n mod d) ?= d)%Z with
  | Lt => fl
  | Gt => (fl + 1)%Z
  | Eq => if Z.even fl then fl else (fl + 1)%Z
  end.

(** The binary64 number nearest to a positive rational (53 significant
    bits, ties to even), in the range of the normal numbers. *)
Definition to_double (x : Q) : Q :=
  let n := Qnum x in
  let d := Zpos (Qden x) in
  if (n <=? 0)%Z then x
  else
    let l0 := (Z.log2 n - Z.log2 d)%Z in
    let below :=
      if (0 <=? l0)%Z then (n <? d * 2 ^ l0)%Z else (n * 2 ^ (- l0) <? d)%Z in
    let e := ((if below then l0 - 1 else l0) - 52)%Z in
    if (0 <=? e)%Z
    then inject_Z (round_half_even n (d * 2 ^ e) * 2 ^ e)
    else Qmake (round_half_even (n * 2 ^ (- e)) d) (Z.to_pos (2 ^ (- e))).

(** [x.toFixed(1)] for a non-negative [x] read from decimal text: the
    text becomes the nearest binary64 number, and that number is rounded
    to one decimal, a tie going up. *)
Definition toFixed1 (x : Q) : string :=
  let tenths := Qfloor (Qplus (Qmult (to_double x) (inject_Z 10)) (Qmake 1 2)) in
  JS.string_of_Z (tenths / 10)%Z ++ "." ++ JS.string_of_Z (tenths mod 10)%Z.

End Num.

(* ------------------------------------------------------------------ *)
(** ** [Map<string, V>] in insertion order *)

Module JsMap.

Section Ops.
Context {V : Type}.

(** [m.get(k)] *)
Fixpoint get (m : list (string * V)) (k : string) : option V :=
  match m with
  | [] => None
  | (k', v) :: r => if String.eqb k' k then Some v else get r k
  end.

(** [m.set(k, v)] *)
Fixpoint set (m : list (string * V)) (k : string) (v : V) : list (string * V) :=
  match m with
  | [] => [(k, v)]
  | (k', v') :: r =>
      if String.eqb k' k then (k, v) :: r else (k', v') :: set r k v
  end.

(** [m.delete(k)] *)
Fixpoint remove (m : list (string * V)) (k : string) : list (string * V) :=
  match m with
  | [] => []
  | (k', v') :: r => if String.eqb k' k then r else (k', v') :: remove r k
  end.

Definition has (m : list (string * V)) (k : string) : bool :=
  match get m k with Some _ => true | None => false end.

(** [Array.from(m.values())] *)
Definition values (m : list (string * V)) : list V := map snd m.

(** [for (const [k, v] of m.entries()) if (p(k, v)) return ...]: the
    first entry in insertion order that passes the test. *)
Fixpoint first_entry (p : string -> V -> bool) (m : list (string * V))
  : option (string * V) :=
  match m with
  | [] => None
  | (k, v) :: r => if p k v then Some (k, v) else first_entry p r
  end.

(** [m.set(k, f(m.get(k)!))]: the read-modify-write of the callbacks.
    The record of a running job is always present (nothing deletes from
    the Map); an absent key leaves the Map as it is. *)
Definition update (m : list (string * V)) (k : string) (f : V -> V)
  : list (string * V) :=
  match get m k with
  | Some v => set m k (f v)
  | None => m
  end.
End Ops.

End JsMap.

(* ------------------------------------------------------------------ *)
(** ** The part of the disk the server touches *)

Module Fs.

Inductive Node : Type := File | Directory.

Definition Disk := list (string * Node).

(** [fs.existsSync(p)] *)
Definition existsSync (d : Disk) (p : string) : bool := JsMap.has d p.

(** [fs.lstatSync(p).isDirectory()] *)
Definition isDirectory (d : Disk) (p : string) : bool :=
  match JsMap.get d p with
  | Some Directory => true
  | _ => false
  end.

(** [fs.unlinkSync(p)] *)
Definition unlinkSync (d : Disk) (p : string) : Disk := JsMap.remove d p.

(** [fs.rmdirSync(p, { recursive: true })]: the directory and all that
    lies below it. *)
Definition rmdirSync_recursive (d : Disk) (p : string) : Disk :=
  filter (fun e => negb (String.eqb (fst e) p || JS.startsWith (fst e) (p ++ "/"))) d.

(** [fs.mkdirSync(p, { recursive: true })] *)
Definition mkdirSync (d : Disk) (p : string) : Disk :=
  if existsSync d p then d else JsMap.set d p Directory.

(** A file written (or opened for writing) at [p]. *)
Definition writeFile (d : Disk) (p : string) : Disk := JsMap.set d p File.

(** [path.join(dir, name)] for a plain file name. *)
Definition join (dir name : string) : string := dir ++ "/" ++ name.

End Fs.

(* ------------------------------------------------------------------ *)
(** ** download.ts: the job record and the registry *)

Inductive Status : Type :=
| queued | downloading | processing | completed | error.

Definition status_eqb (a b : Status) : bool :=
  match a, b with
  | queued, queued | downloading, downloading | processing, processing
  | completed, completed | error, error => true
  | _, _ => false
  end.

(** The string a status is when it is interpolated in a message. *)
Definition status_name (s : Status) : string :=
  match s with
  | queued => "queued"
  | downloading => "downloading"
  | processing => "processing"
  | completed => "completed"
  | error => "error"
  end.

(** [type DownloadProgress] *)
Record DownloadProgress : Type := mkDownload {
  videoId : string;
  progress : Q;
  status : Status;
  title : option string;
  message : option string;
  filePath : option string
}.

(** [const activeDownloads = new Map<string, DownloadProgress>()] *)
Definition Downloads := list (string * DownloadProgress).

(** [path.join(__dirname, "../downloads")], for a server installed under
    [/app]. *)
Definition outputDir : string := "/app/downloads".

(** The record [downloadFromUrl] stores for a new job. *)
Definition new_download (vid : string) : DownloadProgress :=
  mkDownload vid (inject_Z 0) processing None (Some "Getting video information") None.

(** [{ ...d, title, message }] *)
Definition with_title (t msg : string) (d : DownloadProgress) : DownloadProgress :=
  mkDownload (videoId d) (progress d) (status d) (Some t) (Some msg) (filePath d).

(** [{ ...d, status: 'downloading', message, filePath }] *)
Definition with_downloading (msg path : string) (d : DownloadProgress) : DownloadProgress :=
  mkDownload (videoId d) (progress d) downloading (title d) (Some msg) (Some path).

(** [{ ...d, progress, message }] *)
Definition with_progress (p : Q) (msg : string) (d : DownloadProgress) : DownloadProgress :=
  mkDownload (videoId d) p (status d) (title d) (Some msg) (filePath d).

(** [{ ...d, message }] *)
Definition with_message (msg : string) (d : DownloadProgress) : DownloadProgress :=
  mkDownload (videoId d) (progress d) (status d) (title d) (Some msg) (filePath d).

(** [{ ...d, status: 'completed', progress: 100, message }] *)
Definition with_completed (msg : string) (d : DownloadProgress) : DownloadProgress :=
  mkDownload (videoId d) (inject_Z 100) completed (title d) (Some msg) (filePath d).

(** [{ ...d, status: 'error', message }] *)
Definition with_error (msg : string) (d : DownloadProgress) : DownloadProgress :=
  mkDownload (videoId d) (progress d) error (title d) (Some msg) (filePath d).

(** [{ ...d, filePath }] *)
Definition with_filePath (path : string) (d : DownloadProgress) : DownloadProgress :=
  mkDownload (videoId d) (progress d) (status d) (title d) (message d) (Some path).

(** [download.status = 'queued'; download.progress = 0;] *)
Definition requeue (d : DownloadProgress) : DownloadProgress :=
  mkDownload (videoId d) (inject_Z 0) queued (title d) (message d) (filePath d).

(** [getDownloadProgress], returning the Map entry: the handlers assign
    to fields of the object they get back, which is the object the Map
    holds under that key. *)
Definition getDownloadProgress_entry (id : string) (m : Downloads)
  : option (string * DownloadProgress) :=
  match JsMap.get m id with
  | Some download => Some (id, download)
  | None =>
      match JsMap.first_entry
              (fun downloadId _ => JS.startsWith downloadId (id ++ "_")) m with
      | Some found => Some found
      | None =>
          JsMap.first_entry
            (fun _ downloadData => String.eqb (videoId downloadData) id) m
      end
  end.

(** [getDownloadProgress(id)]; [None] is [undefined]. *)
Definition getDownloadProgress (id : string) (m : Downloads)
  : option DownloadProgress :=
  option_map snd (getDownloadProgress_entry id m).

(** [getAllDownloads()] *)
Definition getAllDownloads (m : Downloads) : list DownloadProgress :=
  JsMap.values m.

(** [createDummyVideoFile(filePath)], as far as it has got when it
    returns: a write stream has been created on the path and a sample
    video requested, but the stream opens and the answer arrives later,
    so the disk is as before.  What becomes of the path afterwards (the
    file written, or unlinked by the error path and written again) reaches
    the server as [DiskWrite] and [DiskRemove] events. *)
Definition createDummyVideoFile (path : string) (d : Fs.Disk) : Fs.Disk := d.

(** [getDownloadFilePath(id)] with the registry and the disk it leaves. *)
Definition getDownloadFilePath (id : string) (m : Downloads) (d : Fs.Disk)
  : option string * Downloads * Fs.Disk :=
  match JsMap.get m id with
  | None => (None, m, d)
  | Some download =>
      if negb (status_eqb (status download) completed) then (None, m, d)
      else if JS.truthy (filePath download) then
        let path := JS.or_else (filePath download) "" in
        (Some path, m,
         if Fs.existsSync d path then d else createDummyVideoFile path d)
      else
        let path :=
          Fs.join outputDir
                  (JS.or_else (title download) (videoId download) ++ ".mp4") in
        (Some path,
         JsMap.set m id (with_filePath path download),
         if Fs.existsSync d path then d else createDummyVideoFile path d)
  end.

(** The path [getDownloadFilePath(id)] calls [createDummyVideoFile] on,
    when it does. *)
Definition placeholder_started (id : string) (m : Downloads) (d : Fs.Disk)
  : option string :=
  match JsMap.get m id with
  | None => None
  | Some download =>
      if negb (status_eqb (status download) completed) then None
      else
        let path :=
          if JS.truthy (filePath download)
          then JS.or_else (filePath download) ""
          else Fs.join outputDir
                       (JS.or_else (title download) (videoId download) ++ ".mp4") in
        if Fs.existsSync d path then None else Some path
  end.

(** [extractVideoId(url)]; [now] is what [Date.now()] returns. *)
Definition extractVideoId (url : string) (now : Z) : string :=
  match Regex.search Regex.youtube_re url with
  | Some (Some id) => id
  | _ => "video_" ++ JS.string_of_Z now
  end.

(** The filter of [existingDownloads]. *)
Definition same_video (vid : string) (e : string * DownloadProgress) : bool :=
  String.eqb (videoId (snd e)) vid || JS.startsWith (fst e) (vid ++ "_").

(** The test of [completedDownload]. *)
Definition is_completed_download (e : string * DownloadProgress) : bool :=
  status_eqb (status (snd e)) completed
  && Qeq_bool (progress (snd e)) (inject_Z 100)
  && JS.truthy (filePath (snd e)).

(** The test of [inProgressDownload]. *)
Definition is_in_progress (e : string * DownloadProgress) : bool :=
  status_eqb (status (snd e)) downloading
  || status_eqb (status (snd e)) processing.

Inductive Entered : Type :=
| Existing (id : string)
| Created (id : string) (vid : string).

(** [downloadFromUrl] up to its first [await]: the job id it will
    resolve to and the registry it leaves.  [tExtract] and [tId] are the
    two readings of [Date.now()]. *)
Definition downloadFromUrl_enter (url : string) (playlist : bool)
           (tExtract tId : Z) (m : Downloads) : Entered * Downloads :=
  let vid := extractVideoId url tExtract in
  let existingDownloads := filter (same_video vid) m in
  match find is_completed_download existingDownloads with
  | Some completedDownload => (Existing (fst completedDownload), m)
  | None =>
      match find is_in_progress existingDownloads with
      | Some inProgressDownload => (Existing (fst inProgressDownload), m)
      | None =>
          let downloadId :=
            if playlist
            then "playlist_" ++ vid ++ "_" ++ JS.string_of_Z tId
            else vid ++ "_" ++ JS.string_of_Z tId in
          (Created downloadId vid, JsMap.set m downloadId (new_download vid))
      end
  end.

(** [stdout.trim()] with every character that a file name may not hold
    (angle brackets, colon, double quote, slash, backslash, bar, question
    mark, star) replaced by an underscore. *)
Definition sanitize_title (stdout : string) : string :=
  JS.map_chars
    (fun c => if Ascii.eqb c Regex.dquote || Regex.one_of "<>:/\|?*" c
              then "_"%char else c)
    (JS.trim stdout).

(** The format selector of a quality tier. *)
Definition format_of (quality : string) : string :=
  if String.eqb quality "1080p" then
    "bestvideo[height=1080][ext=mp4]+bestaudio[ext=m4a]/137+251/137+140/bestvideo[height=1080][ext=mp4]+bestaudio[ext=m4a]"
  else if String.eqb quality "720p" then
    "bestvideo[height=720][ext=mp4]+bestaudio[ext=m4a]/22/136+140/bestvideo[height=720][ext=mp4]+bestaudio[ext=m4a]"
  else if String.eqb quality "480p" then
    "bestvideo[height=480][ext=mp4]+bestaudio[ext=m4a]/bestvideo[height=480][ext=mp4]+bestaudio[ext=m4a]"
  else if String.eqb quality "540p" then
    "bestvideo[height=540][ext=mp4]+bestaudio[ext=m4a]/bestvideo[height=540][ext=mp4]+bestaudio[ext=m4a]"
  else if String.eqb quality "360p" then
    "bestvideo[height=360][ext=mp4]+bestaudio[ext=m4a]/18/bestvideo[height=360][ext=mp4]+bestaudio[ext=m4a]"
  else "bestvideo[ext=mp4]+bestaudio[ext=m4a]/best[ext=mp4]/best".

Definition quoted (s : string) : string :=
  String Regex.dquote s ++ String Regex.dquote "".

(** The command line handed to [spawn]. *)
Definition download_command (url quality path : string) (playlist : bool) : string :=
  "yt-dlp -f " ++ quoted (format_of quality)
  ++ " --format-sort ext:mp4:m4a --format-sort vcodec:h264 --no-keep-video --no-part"
  ++ " --format-sort res:" ++ JS.remove_first "p" quality
  ++ " -o " ++ quoted path ++ " --no-mtime --no-cache-dir"
  ++ (if playlist then "" else " --no-playlist")
  ++ " --merge-output-format mp4 --verbose --no-keep-video --no-part --windows-filenames "
  ++ quoted url.

(** The command line handed to [execAsync] for the title. *)
Definition info_command (url : string) : string :=
  "yt-dlp --print title --no-playlist " ++ quoted url.

(** The stdout callback throws on these chunks: before it writes the
    record it draws the progress bar with
    [' '.repeat(50 - Math.floor(progress / 2))], a [RangeError] for a
    percentage of 102 or more. *)
Definition stdout_throws (output : string) : bool :=
  match Regex.search Regex.progress_re output with
  | Some (Some text) =>
      Qle_bool (inject_Z 102) (Num.to_double (Num.parseFloat text))
  | _ => false
  end.

(** The stdout callback on one chunk of output on which it does not
    throw, as the change it makes to the job's record: the percentage
    update, then the merge notice. *)
Definition on_stdout (output : string) (d : DownloadProgress) : DownloadProgress :=
  let d1 :=
    match Regex.search Regex.progress_re output with
    | Some (Some text) =>
        let p := Num.parseFloat text in
        with_progress (Num.min99 p) ("Downloading: " ++ Num.toFixed1 p ++ "%") d
    | _ => d
    end in
  if JS.includes output "[Merger]"
  then with_message "Merging video and audio..." d1
  else d1.

(** The stderr callback throws on these texts. *)
Definition fatal_stderr (text : string) : bool :=
  JS.includes text "Video unavailable"
  || JS.includes text "Sign in to confirm your age"
  || JS.includes text "The uploader has not made this video available in your country"
  || JS.includes text "This video has been removed".

(** The message of the record after a successful exit. *)
Definition completed_message (quality actualQuality : string) : string :=
  "✅ Download completed (" ++ actualQuality ++ ") "
  ++ (if String.eqb actualQuality quality
      then "- Exact Quality Match" else "- Quality Mismatch").

(* ------------------------------------------------------------------ *)
(** ** The running server: registry, disk, and the jobs in flight *)

(** The subprocess of a job. *)
Inductive Proc : Type :=
| NotStarted
| Running
| Killed      (* [kill()] sent, ['close'] not yet delivered *)
| Closed.

(** Where a call of [downloadFromUrl] is suspended. *)
Inductive Ctl : Type :=
| AwaitTitle                                    (* [await execAsync(infoCommand)] *)
| AwaitClose (retryCount : nat) (retryDelay : Z) (* the Promise of the retry loop *)
| Verifying                                     (* exit code 0: the 2 s pause and ffprobe *)
| Sleeping (retryCount : nat) (retryDelay : Z)   (* the pause before a retry *)
| Returned
| Thrown.

(** One call of [downloadFromUrl] past the creation of its record,
    together with the [downloadHandler] that awaits it. *)
Record Task : Type := mkTask {
  downloadId : string;
  taskVideoId : string;
  url : string;
  quality : string;
  playlist : bool;
  outFile : string;
  ctl : Ctl;
  proc : Proc
}.

(** What Express makes of a call [res.sendFile(path, callback)].  It
    streams the file and calls back without error; or it calls back with
    an error before anything went out (a path segment that starts with a
    dot, a directory, a file that cannot be read), and the callback
    answers 500; or the error comes when the headers are out or the
    connection is gone, and the callback can only log it; or [sendFile]
    throws at once (a path that is not absolute), which the handler's
    [catch] answers. *)
Inductive SendOutcome : Type :=
| Streamed
| Refused (message : string)
| Broken (message : string)
| Rejected (message : string).

Inductive Response : Type :=
| DownloadStarted (id : string)   (* 200, message "Download started", status "processing" *)
| CheckResult (found : bool) (reason : option string)
| FileSent (path : string)
| Deleted                         (* 200, message "Download deleted successfully" *)
| StatusOf (st : Status) (p : Q) (msg ttl : option string)
| ProgressOf (d : DownloadProgress)
| DownloadList (ds : list DownloadProgress)
| Failure (code : nat) (err : string)
| Redownload (err : string)       (* 404 with [shouldRedownload: true] *)
| FileAborted (path : string).    (* the file was begun and the transfer broke *)

Inductive Effect : Type :=
| Reply (r : Response)                 (* a handler that answers at once *)
| ReplyDownload (task : nat) (r : Response) (* [downloadHandler] after its await *)
| Exec (task : nat) (command : string)
| Spawn (task : nat) (command : string)
| Kill (task : nat)
| SetTimeout (task : nat) (ms : Z).

Record Server : Type := mkServer {
  activeDownloads : Downloads;
  globalDownloads : option (list DownloadProgress);  (* [global.downloads] *)
  disk : Fs.Disk;
  tasks : list Task;
  effects : list Effect;
  crashed : bool
}.

Definition initial : Server := mkServer [] None [] [] [] false.

Definition emit (e : Effect) (s : Server) : Server :=
  mkServer (activeDownloads s) (globalDownloads s) (disk s) (tasks s)
           (effects s ++ [e]) (crashed s).

Definition set_downloads (m : Downloads) (s : Server) : Server :=
  mkServer m (globalDownloads s) (disk s) (tasks s) (effects s) (crashed s).

Definition set_disk (d : Fs.Disk) (s : Server) : Server :=
  mkServer (activeDownloads s) (globalDownloads s) d (tasks s) (effects s) (crashed s).

Definition set_global (g : list DownloadProgress) (s : Server) : Server :=
  mkServer (activeDownloads s) (Some g) (disk s) (tasks s) (effects s) (crashed s).

Definition set_tasks (ts : list Task) (s : Server) : Server :=
  mkServer (activeDownloads s) (globalDownloads s) (disk s) ts (effects s) (crashed s).

Definition crash (s : Server) : Server :=
  mkServer (activeDownloads s) (globalDownloads s) (disk s) (tasks s) (effects s) true.

Fixpoint replace_nth {A : Type} (i : nat) (x : A) (l : list A) : list A :=
  match l, i with
  | [], _ => []
  | _ :: r, O => x :: r
  | y :: r, S j => y :: replace_nth j x r
  end.

Definition set_task (i : nat) (t : Task) (s : Server) : Server :=
  set_tasks (replace_nth i t (tasks s)) s.

Definition with_ctl (c : Ctl) (t : Task) : Task :=
  mkTask (downloadId t) (taskVideoId t) (url t) (quality t) (playlist t)
         (outFile t) c (proc t).

Definition with_proc (p : Proc) (t : Task) : Task :=
  mkTask (downloadId t) (taskVideoId t) (url t) (quality t) (playlist t)
         (outFile t) (ctl t) p.

Definition with_outFile (f : string) (t : Task) : Task :=
  mkTask (downloadId t) (taskVideoId t) (url t) (quality t) (playlist t)
         f (ctl t) (proc t).

(** [activeDownloads.set(downloadId, { ...activeDownloads.get(downloadId)!, ... })] *)
Definition update_record (id : string) (f : DownloadProgress -> DownloadProgress)
           (s : Server) : Server :=
  set_downloads (JsMap.update (activeDownloads s) id f) s.

(* ------------------------------------------------------------------ *)
(** ** server.ts: the handlers *)

(** [checkFileHandler] *)
Definition checkFileHandler (id : string) (s : Server) : Server :=
  if String.eqb id "" then emit (Reply (Failure 400 "Download ID is required")) s
  else
    match getDownloadProgress_entry id (activeDownloads s) with
    | None => emit (Reply (CheckResult false (Some "Download not found"))) s
    | Some (key, download) =>
        if negb (status_eqb (status download) completed) then
          emit (Reply (CheckResult false
                  (Some ("Download status is " ++ status_name (status download))))) s
        else if negb (JS.truthy (filePath download)) then
          emit (Reply (CheckResult false (Some "File path not available"))) s
        else if negb (Fs.existsSync (disk s) (JS.or_else (filePath download) "")) then
          emit (Reply (CheckResult false (Some "File needs to be re-downloaded")))
               (set_downloads (JsMap.set (activeDownloads s) key (requeue download)) s)
        else emit (Reply (CheckResult true None)) s
    end.

(** The answer to a request that ends in [res.sendFile(path, callback)],
    by what Express makes of the call: [fallback] is the text the
    handler's [catch] uses for an error without message. *)
Definition sendFile (path : string) (sent : SendOutcome) (fallback : string)
  : Response :=
  match sent with
  | Streamed => FileSent path
  | Refused message => Failure 500 ("Failed to serve file: " ++ message)
  | Broken _ => FileAborted path
  | Rejected message => Failure 500 (JS.or_else (Some message) fallback)
  end.

(** [serveFileHandler]; [sent] is what Express makes of the [sendFile]
    call, should the handler get there. *)
Definition serveFileHandler (id : string) (sent : SendOutcome) (s : Server) : Server :=
  if String.eqb id "" then emit (Reply (Failure 400 "Download ID is required")) s
  else
    match getDownloadProgress_entry id (activeDownloads s) with
    | None => emit (Reply (Failure 404 "Download not found")) s
    | Some (key, download) =>
        if negb (JS.truthy (filePath download)) then
          emit (Reply (Failure 404 "File not found")) s
        else if negb (Fs.existsSync (disk s) (JS.or_else (filePath download) "")) then
          emit (Reply (Redownload "File needs to be re-downloaded"))
               (set_downloads (JsMap.set (activeDownloads s) key (requeue download)) s)
        else emit (Reply (sendFile (JS.or_else (filePath download) "") sent
                                   "Failed to get file")) s
    end.

(** [parseInt(d.videoId.split('_')[1] || '0')], a Number. *)
Definition stamp_of (d : DownloadProgress) : option Z :=
  option_map JS.double_of_Z
             (JS.parseInt (JS.or_else (JS.at_index (JS.split "_" (videoId d)) 1) "0")).

(** The callback of [matchingDownloads.reduce]. *)
Definition later_of (latest current : DownloadProgress) : DownloadProgress :=
  if JS.num_gt (stamp_of current) (stamp_of latest) then current else latest.

(** [id.split('_')[0]] *)
Definition base_of (id : string) : string :=
  JS.or_else (JS.at_index (JS.split "_" id) 0) "".

(** The artifact of the chosen record taken off the disk.  (A deletion
    that throws is caught and logged by the handler; here it succeeds.) *)
Definition remove_artifact (download : DownloadProgress) (d : Fs.Disk) : Fs.Disk :=
  let path := JS.or_else (filePath download) "" in
  if JS.truthy (filePath download) && Fs.existsSync d path then
    if Fs.isDirectory d path
    then Fs.rmdirSync_recursive d path
    else Fs.unlinkSync d path
  else d.

(** [downloads.filter(d => d.videoId.startsWith(baseVideoId))] *)
Definition matchingDownloads (id : string) (m : Downloads) : list DownloadProgress :=
  filter (fun d => JS.startsWith (videoId d) (base_of id)) (getAllDownloads m).

(** [downloads.filter(d => !d.videoId.startsWith(baseVideoId))], the
    list the handler assigns to [global.downloads]. *)
Definition remainingDownloads (id : string) (m : Downloads) : list DownloadProgress :=
  filter (fun d => negb (JS.startsWith (videoId d) (base_of id))) (getAllDownloads m).

(** [deleteDownloadHandler].  The records live in [activeDownloads],
    which is private to download.ts and which no statement of the
    handler writes to. *)
Definition deleteDownloadHandler (id : string) (s : Server) : Server :=
  if String.eqb id "" then emit (Reply (Failure 400 "Download ID is required")) s
  else
    match matchingDownloads id (activeDownloads s) with
    | [] => emit (Reply (Failure 404 "Download not found")) s
    | first :: rest =>
        let download := fold_left later_of rest first in
        emit (Reply Deleted)
          (set_global (remainingDownloads id (activeDownloads s))
             (set_disk (remove_artifact download (disk s)) s))
    end.

(** [statusHandler] *)
Definition statusHandler (id : string) (s : Server) : Server :=
  match getDownloadProgress id (activeDownloads s) with
  | None => emit (Reply (Failure 404 "Download not found")) s
  | Some d => emit (Reply (StatusOf (status d) (progress d) (message d) (title d))) s
  end.

(** [progressHandler] *)
Definition progressHandler (id : string) (s : Server) : Server :=
  if String.eqb id "" then emit (Reply (Failure 400 "Download ID is required")) s
  else
    match getDownloadProgress id (activeDownloads s) with
    | None => emit (Reply (Failure 404 "Download not found")) s
    | Some d => emit (Reply (ProgressOf d)) s
    end.

(** [listDownloadsHandler] *)
Definition listDownloadsHandler (s : Server) : Server :=
  emit (Reply (DownloadList (getAllDownloads (activeDownloads s)))) s.

(** [downloadHandler] up to the first [await] inside [downloadFromUrl]:
    a request without URL is refused; a job found for the video is
    answered with its id; otherwise the record is created and the
    handler stays suspended on the new job until it returns or throws. *)
Definition downloadHandler (reqUrl : string) (reqQuality : option string)
           (reqPlaylist : bool) (tExtract tId : Z) (s : Server) : Server :=
  if String.eqb reqUrl "" then emit (Reply (Failure 400 "YouTube URL is required")) s
  else
    let s1 := set_disk (Fs.mkdirSync (disk s) outputDir) s in
    match downloadFromUrl_enter reqUrl reqPlaylist tExtract tId (activeDownloads s1) with
    | (Existing id, _) => emit (Reply (DownloadStarted id)) s1
    | (Created id vid, m) =>
        let i := length (tasks s1) in
        let q := match reqQuality with Some q => q | None => "1080p" end in
        emit (Exec i (info_command reqUrl))
             (set_tasks (tasks s1 ++ [mkTask id vid reqUrl q reqPlaylist "" AwaitTitle NotStarted])
                        (set_downloads m s1))
    end.

(* ------------------------------------------------------------------ *)
(** ** download.ts: the continuations of [downloadFromUrl] *)

Definition maxRetries : nat := 3.
Definition firstRetryDelay : Z := 5000.
Definition attemptTimeout : Z := 600000.

(** The outer [catch] of [downloadFromUrl], whose rethrow lands in the
    [catch] of [downloadHandler]. *)
Definition fail_task (i : nat) (t : Task) (msg : string) (s : Server) : Server :=
  emit (ReplyDownload i (Failure 500 (JS.or_else (Some msg) "Download failed")))
       (set_task i (with_ctl Thrown t)
                 (update_record (downloadId t)
                                (with_error (JS.or_else (Some msg) "Download failed")) s)).

(** The [catch] inside the retry loop. *)
Definition attempt_failed (i : nat) (t : Task) (retryCount : nat) (retryDelay : Z)
           (msg : string) (s : Server) : Server :=
  if (S retryCount <? maxRetries)%nat then
    emit (SetTimeout i retryDelay)
         (set_task i (with_ctl (Sleeping (S retryCount) retryDelay) t) s)
  else fail_task i t msg s.

(** The title arrived: the record gets its title, the output path is
    chosen, the command is built and spawned once, and the retry loop is
    entered with its first Promise and its ten-minute timer. *)
Definition title_resolved (i : nat) (t : Task) (stdout : string) (timestamp : Z)
           (s : Server) : Server :=
  let ttl := sanitize_title stdout in
  let path :=
    Fs.join outputDir
            (ttl ++ "_" ++ taskVideoId t ++ "_" ++ JS.string_of_Z timestamp ++ ".mp4") in
  let s1 := update_record (downloadId t) (with_title ttl ("Starting download: " ++ ttl)) s in
  let s2 := update_record (downloadId t) (with_downloading "Download in progress" path) s1 in
  let t' := with_proc Running (with_ctl (AwaitClose 0 firstRetryDelay) (with_outFile path t)) in
  emit (SetTimeout i attemptTimeout)
       (emit (Spawn i (download_command (url t) (quality t) path (playlist t)))
             (set_task i t' s2)).

(** The ['close'] callback after the pause and [verifyVideoQuality]. *)
Definition quality_verified (i : nat) (t : Task) (actualQuality : string)
           (s : Server) : Server :=
  emit (ReplyDownload i (DownloadStarted (downloadId t)))
       (set_task i (with_ctl Returned t)
                 (update_record (downloadId t)
                                (with_completed (completed_message (quality t) actualQuality)) s)).

Definition alive (p : Proc) : bool :=
  match p with Running | Killed => true | _ => false end.

(** What the environment does to the server. *)
Inductive Event : Type :=
(* requests *)
| PostDownload (reqUrl : string) (reqQuality : option string) (reqPlaylist : bool)
               (tExtract tId : Z)
| GetCheck (id : string)
| GetFile (id : string) (sent : SendOutcome)
| DeleteDownload (id : string)
| GetStatus (id : string)
| GetProgress (id : string)
| GetDownloads
| CallGetDownloadFilePath (id : string)
(* the job's subprocesses and timers *)
| TitleDone (task : nat) (result : string + string) (timestamp : Z)
| Stdout (task : nat) (output : string)
| Stderr (task : nat) (text : string)
| Close (task : nat) (code : option Z)
| ProcError (task : nat) (msg : string)
| TimeoutFired (task : nat)
| DelayElapsed (task : nat)
| QualityVerified (task : nat) (actualQuality : string)
(* the disk changing under the server *)
| DiskWrite (path : string) (n : Fs.Node)
| DiskRemove (path : string).

(** An event for a job, given the job it is for.

    Output arrives while the process has not closed; an exception that
    escapes a stream callback ends the server.  ['close'] arrives
    once; the listener of the current wait settles its Promise, the
    listeners left over from earlier waits find theirs settled.  A process
    that was sent [kill()] closes with a null exit code.  ['error'] is
    taken as the failure to start the process.  The ten-minute timer of a
    wait is cleared by its own listeners, so it fires only during that
    wait. *)
Definition task_step (e : Event) (i : nat) (t : Task) (s : Server) : Server :=
  match e, ctl t with
  | TitleDone _ (inl stdout) timestamp, AwaitTitle =>
      title_resolved i t stdout timestamp s
  | TitleDone _ (inr msg) _, AwaitTitle => fail_task i t msg s
  | Stdout _ output, _ =>
      if alive (proc t) then
        if stdout_throws output then crash s
        else update_record (downloadId t) (on_stdout output) s
      else s
  | Stderr _ text, _ =>
      if alive (proc t) && fatal_stderr text then crash s else s
  | Close _ code, c =>
      if alive (proc t) then
        (* a process ended by [kill()] reports a null exit code *)
        let code' := match proc t with Killed => None | _ => code end in
        let t' := with_proc Closed t in
        match c with
        | AwaitClose retryCount retryDelay =>
            match code' with
            | Some 0%Z => set_task i (with_ctl Verifying t') s
            | _ => attempt_failed i t' retryCount retryDelay
                     ("Download failed with code " ++ JS.string_of_code code') s
            end
        | _ => set_task i t' s
        end
      else s
  | ProcError _ msg, AwaitClose retryCount retryDelay =>
      match proc t with
      | Running => attempt_failed i (with_proc Closed t) retryCount retryDelay msg s
      | _ => s
      end
  | TimeoutFired _, AwaitClose retryCount retryDelay =>
      let t' := match proc t with Running => with_proc Killed t | _ => t end in
      attempt_failed i t' retryCount retryDelay "Download timeout" (emit (Kill i) s)
  | DelayElapsed _, Sleeping retryCount retryDelay =>
      emit (SetTimeout i attemptTimeout)
           (set_task i (with_ctl (AwaitClose retryCount (retryDelay * 2)) t) s)
  | QualityVerified _ actualQuality, Verifying => quality_verified i t actualQuality s
  | _, _ => s
  end.

Definition task_of (e : Event) : option nat :=
  match e with
  | TitleDone i _ _ | Stdout i _ | Stderr i _ | Close i _ | ProcError i _
  | TimeoutFired i | DelayElapsed i | QualityVerified i _ => Some i
  | _ => None
  end.

(** One event taken by the server.  After an exception escaped a stream
    callback the process is gone and nothing happens any more. *)
Definition step (e : Event) (s : Server) : Server :=
  if crashed s then s
  else
    match e with
    | PostDownload u q pl t1 t2 => downloadHandler u q pl t1 t2 s
    | GetCheck id => checkFileHandler id s
    | GetFile id sent => serveFileHandler id sent s
    | DeleteDownload id => deleteDownloadHandler id s
    | GetStatus id => statusHandler id s
    | GetProgress id => progressHandler id s
    | GetDownloads => listDownloadsHandler s
    | CallGetDownloadFilePath id =>
        let '(_, m, d) := getDownloadFilePath id (activeDownloads s) (disk s) in
        set_disk d (set_downloads m s)
    | DiskWrite path n => set_disk (JsMap.set (disk s) path n) s
    | DiskRemove path => set_disk (JsMap.remove (disk s) path) s
    | _ =>
        match task_of e with
        | Some i =>
            match nth_error (tasks s) i with
            | Some t => task_step e i t s
            | None => s
            end
        | None => s
        end
    end.

(** The server after a sequence of events, oldest first. *)
Definition run (es : list Event) (s : Server) : Server :=
  fold_left (fun st e => step e st) es s.

(** The id a request is about to give to a new job is not a key of the
    registry yet ([Date.now()] has moved on since that key was made). *)
Definition fresh_event (e : Event) (s : Server) : bool :=
  match e with
  | PostDownload u _ pl t1 t2 =>
      if String.eqb u "" then true
      else
        match downloadFromUrl_enter u pl t1 t2 (activeDownloads s) with
        | (Created id _, _) => negb (JsMap.has (activeDownloads s) id)
        | (Existing _, _) => true
        end
  | _ => true
  end.

Fixpoint fresh_run (es : list Event) (s : Server) : bool :=
  match es with
  | [] => true
  | e :: r => fresh_event e s && fresh_run r (step e s)
  end.

(* ------------------------------------------------------------------ *)
(** ** Vocabulary of the properties *)

(** [e] is the first entry of [m], in insertion order, that passes [p]. *)
Definition FirstEntry {V : Type} (p : string * V -> bool)
           (m : list (string * V)) (e : string * V) : Prop :=
  exists before after,
    m = (before ++ e :: after)%list
    /\ p e = true
    /\ forall e', In e' before -> p e' = false.

(** No entry of [m] passes [p]. *)
Definition NoEntry {V : Type} (p : string * V -> bool)
           (m : list (string * V)) : Prop :=
  forall e, In e m -> p e = false.

(** The three addressing modes of a lookup. *)
Definition exact_key (id : string) (e : string * DownloadProgress) : bool :=
  String.eqb (fst e) id.

Definition key_prefix (id : string) (e : string * DownloadProgress) : bool :=
  JS.startsWith (fst e) (id ++ "_").

Definition field_match (id : string) (e : string * DownloadProgress) : bool :=
  String.eqb (videoId (snd e)) id.

(** The lookup order as the specification words it: exact key, then key
    prefix, then [videoId] field, the first match of the first mode that
    has one; nothing found otherwise. *)
Inductive Resolution (m : Downloads) (id : string)
  : option DownloadProgress -> Prop :=
| ByExactKey e :
    FirstEntry (exact_key id) m e ->
    Resolution m id (Some (snd e))
| ByKeyPrefix e :
    NoEntry (exact_key id) m ->
    FirstEntry (key_prefix id) m e ->
    Resolution m id (Some (snd e))
| ByVideoId e :
    NoEntry (exact_key id) m ->
    NoEntry (key_prefix id) m ->
    FirstEntry (field_match id) m e ->
    Resolution m id (Some (snd e))
| NotFound :
    NoEntry (exact_key id) m ->
    NoEntry (key_prefix id) m ->
    NoEntry (field_match id) m ->
    Resolution m id None.

(** The reuse contract in the claim's words.  A stored job of the video:
    its [videoId] is the video's, or its key is the video's id, an
    underscore and more. *)
Definition stored_for (vid : string) (e : string * DownloadProgress) : Prop :=
  videoId (snd e) = vid \/ exists rest, fst e = vid ++ "_" ++ rest.

(** Completed, with progress 100 and a file path. *)
Definition finished_job (e : string * DownloadProgress) : Prop :=
  status (snd e) = completed
  /\ (progress (snd e) == inject_Z 100)%Q
  /\ exists path, filePath (snd e) = Some path /\ path <> "".

(** Downloading or processing. *)
Definition running_job (e : string * DownloadProgress) : Prop :=
  status (snd e) = downloading \/ status (snd e) = processing.

(** [e] is the first entry of [m], in insertion order, of which [P]
    holds; [P] holds of no entry of [m]. *)
Definition FirstSuch (P : string * DownloadProgress -> Prop)
           (m : Downloads) (e : string * DownloadProgress) : Prop :=
  exists before after,
    m = (before ++ e :: after)%list
    /\ P e
    /\ forall x, In x before -> ~ P x.

Definition NoneSuch (P : string * DownloadProgress -> Prop) (m : Downloads) : Prop :=
  forall x, In x m -> ~ P x.

(** What a request for video [vid] may come to on registry [m]: the id
    of the first finished job of the video and the registry as it was;
    without a finished job, the id of the first running one; with
    neither, a new record for the video, in status ['processing'], under
    a key of its own, the other keys being as they were. *)
Inductive Reuse (vid : string) (m : Downloads) : Entered * Downloads -> Prop :=
| ReuseFinished e :
    FirstSuch (fun x => stored_for vid x /\ finished_job x) m e ->
    Reuse vid m (Existing (fst e), m)
| ReuseRunning e :
    NoneSuch (fun x => stored_for vid x /\ finished_job x) m ->
    FirstSuch (fun x => stored_for vid x /\ running_job x) m e ->
    Reuse vid m (Existing (fst e), m)
| NewJob id m' r :
    NoneSuch (fun x => stored_for vid x /\ finished_job x) m ->
    NoneSuch (fun x => stored_for vid x /\ running_job x) m ->
    JsMap.get m' id = Some r ->
    videoId r = vid ->
    status r = processing ->
    (forall k, k <> id -> JsMap.get m' k = JsMap.get m k) ->
    Reuse vid m (Created id vid, m').

(** The state machine of the claim, with ['processing'] as the first
    status: the changes of [status] a record goes through, with the kind
    of event that makes them. *)
Inductive Lifecycle : Event -> Status -> Status -> Prop :=
| LcUnchanged e st : Lifecycle e st st
| LcTitle i out ts :
    Lifecycle (TitleDone i (inl out) ts) processing downloading
| LcTitleError i msg ts :
    Lifecycle (TitleDone i (inr msg) ts) processing error
| LcCompleted i q :
    Lifecycle (QualityVerified i q) downloading completed
| LcError e :
    (exists i c, e = Close i c) \/ (exists i msg, e = ProcError i msg)
    \/ (exists i, e = TimeoutFired i) ->
    Lifecycle e downloading error
| LcRepair e :
    (exists id, e = GetCheck id) \/ (exists id sent, e = GetFile id sent) ->
    Lifecycle e completed queued.

(** The file route asked for a job that is not completed and whose file
    is not on disk: it requeues the job without looking at its status. *)
Definition unguarded_requeue (e : Event) (s : Server) : bool :=
  match e with
  | GetFile id _ =>
      if String.eqb id "" then false
      else
        match getDownloadProgress_entry id (activeDownloads s) with
        | Some (_, download) =>
            JS.truthy (filePath download)
            && negb (Fs.existsSync (disk s) (JS.or_else (filePath download) ""))
            && negb (status_eqb (status download) completed)
        | None => false
        end
  | _ => false
  end.

(** No event of the run is such a request. *)
Fixpoint guarded_run (es : list Event) (s : Server) : bool :=
  match es with
  | [] => true
  | e :: r => negb (unguarded_requeue e s) && guarded_run r (step e s)
  end.

(** Only a job whose call has returned is ['queued']. *)
Definition Settled (s : Server) : Prop :=
  forall i t d,
    nth_error (tasks s) i = Some t ->
    JsMap.get (activeDownloads s) (downloadId t) = Some d ->
    status d = queued ->
    ctl t = Returned.

(** Every change of [status] the code can make, its slip included: the
    changes of [Lifecycle], and those that follow from the file route's
    requeue of a job that is not completed. *)
Inductive StatusChange : Event -> Status -> Status -> Prop :=
| Unchanged e st : StatusChange e st st
| TitleToDownloading i out ts :
    StatusChange (TitleDone i (inl out) ts) processing downloading
| TitleToError i msg ts :
    StatusChange (TitleDone i (inr msg) ts) processing error
| ExitToCompleted i q st :
    st = downloading \/ st = queued ->
    StatusChange (QualityVerified i q) st completed
| RetriesToError e st :
    (exists i c, e = Close i c) \/ (exists i msg, e = ProcError i msg)
    \/ (exists i, e = TimeoutFired i) ->
    st = downloading \/ st = queued ->
    StatusChange e st error
| CheckRepair id :
    StatusChange (GetCheck id) completed queued
| ServeRepair id sent st :
    st <> processing ->
    StatusChange (GetFile id sent) st queued.

(* ------------------------------------------------------------------ *)
(** ** Sample runs *)

Definition clip_url : string := "https://youtu.be/abcdefghijk".
Definition clip_file : string := "/app/downloads/Clip_abcdefghijk_1002.mp4".

(** One video requested, downloaded and verified. *)
Definition clip_events : list Event :=
  [ PostDownload clip_url None false 1000 1001;
    TitleDone 0 (inl "Clip") 1002;
    Stdout 0 "[download]  45.3% of 10MiB";
    DiskWrite clip_file Fs.File;
    Close 0 (Some 0%Z);
    QualityVerified 0 "1080p" ].

Definition finished_clip : Server := run clip_events initial.

(** The same, and the file then deleted behind the server's back. *)
Definition lost_clip : Server := step (DiskRemove clip_file) finished_clip.

(** Two jobs for URLs without a recognisable video id. *)
Definition two_synthetic : Server :=
  run [ PostDownload "not a link" None false 1000 1001;
        PostDownload "neither this" None false 2000 2001 ] initial.

(** A subprocess that exits with code 1, and the retry loop run to its
    end. *)
Definition failing_events : list Event :=
  [ PostDownload clip_url (Some "720p") false 1000 1001;
    TitleDone 0 (inl "Clip") 1002;
    Close 0 (Some 1%Z);
    DelayElapsed 0; TimeoutFired 0;
    DelayElapsed 0; TimeoutFired 0 ].

Definition is_spawn (e : Effect) : bool :=
  match e with Spawn _ _ => true | _ => false end.

Definition delays (es : list Effect) : list Z :=
  flat_map (fun e => match e with SetTimeout _ ms => [ms] | _ => [] end) es.

(* ------------------------------------------------------------------ *)
(** ** What holds of every job while the server runs *)

(** A ['completed'] record has progress 100 and a file path. *)
Definition completed_ok (d : DownloadProgress) : Prop :=
  status d = completed ->
  progress d = inject_Z 100 /\ JS.truthy (filePath d) = true.

(** What holds of every record: the above, and a record that is still
    ['processing'] has no file path yet. *)
Definition record_ok (d : DownloadProgress) : Prop :=
  completed_ok d /\ (status d = processing -> filePath d = None).

Definition in_flight_status (d : DownloadProgress) : Prop :=
  status d = downloading \/ status d = queued.

(** What the record of a job looks like at each point where its
    [downloadFromUrl] can be suspended. *)
Definition ctl_ok (t : Task) (d : DownloadProgress) : Prop :=
  match ctl t with
  | AwaitTitle =>
      status d = processing /\ filePath d = None /\ proc t = NotStarted
  | AwaitClose _ _ =>
      in_flight_status d /\ JS.truthy (filePath d) = true /\ proc t <> NotStarted
  | Sleeping _ _ =>
      in_flight_status d /\ JS.truthy (filePath d) = true
      /\ (proc t = Killed \/ proc t = Closed)
  | Verifying =>
      in_flight_status d /\ JS.truthy (filePath d) = true /\ proc t = Closed
  | Returned =>
      (status d = completed \/ status d = queued)
      /\ JS.truthy (filePath d) = true /\ proc t = Closed
  | Thrown =>
      (status d = error \/ status d = queued) /\ proc t <> Running
  end.

Definition Inv_on (m : Downloads) (ts : list Task) : Prop :=
  NoDup (map fst m)
  /\ (forall i t, nth_error ts i = Some t ->
                  exists d, JsMap.get m (downloadId t) = Some d /\ ctl_ok t d)
  /\ (forall i j t u, nth_error ts i = Some t -> nth_error ts j = Some u ->
                      downloadId t = downloadId u -> i = j)
  /\ (forall k d, JsMap.get m k = Some d -> record_ok d).

Definition Inv (s : Server) : Prop := Inv_on (activeDownloads s) (tasks s).

(** How one event can change the record under key [k]: what the record
    was ([None]: no such key), and what it becomes. *)
Inductive RecordChange (s : Server) (k : string)
  : Event -> option DownloadProgress -> DownloadProgress -> Prop :=
| RcCreated u q pl t1 t2 vid :
    RecordChange s k (PostDownload u q pl t1 t2) None (new_download vid)
| RcTitle i t out ts d :
    nth_error (tasks s) i = Some t -> ctl t = AwaitTitle -> downloadId t = k ->
    RecordChange s k (TitleDone i (inl out) ts) (Some d)
      (with_downloading "Download in progress"
         (Fs.join outputDir
            (sanitize_title out ++ "_" ++ taskVideoId t ++ "_"
             ++ JS.string_of_Z ts ++ ".mp4"))
         (with_title (sanitize_title out)
            ("Starting download: " ++ sanitize_title out) d))
| RcTitleError i t msg ts d :
    nth_error (tasks s) i = Some t -> ctl t = AwaitTitle -> downloadId t = k ->
    RecordChange s k (TitleDone i (inr msg) ts) (Some d)
      (with_error (JS.or_else (Some msg) "Download failed") d)
| RcRetriesError e i t n dl msg d :
    nth_error (tasks s) i = Some t -> ctl t = AwaitClose n dl -> downloadId t = k ->
    (S n <? maxRetries)%nat = false ->
    (exists c, e = Close i c) \/ (exists m, e = ProcError i m) \/ e = TimeoutFired i ->
    RecordChange s k e (Some d) (with_error (JS.or_else (Some msg) "Download failed") d)
| RcStdout i t output d :
    nth_error (tasks s) i = Some t -> alive (proc t) = true -> downloadId t = k ->
    RecordChange s k (Stdout i output) (Some d) (on_stdout output d)
| RcVerified i t actual d :
    nth_error (tasks s) i = Some t -> ctl t = Verifying -> downloadId t = k ->
    RecordChange s k (QualityVerified i actual) (Some d)
      (with_completed (completed_message (quality t) actual) d)
| RcCheck id d :
    status d = completed ->
    JS.truthy (filePath d) = true ->
    Fs.existsSync (disk s) (JS.or_else (filePath d) "") = false ->
    RecordChange s k (GetCheck id) (Some d) (requeue d)
| RcServe id sent d :
    String.eqb id "" = false ->
    getDownloadProgress_entry id (activeDownloads s) = Some (k, d) ->
    JS.truthy (filePath d) = true ->
    Fs.existsSync (disk s) (JS.or_else (filePath d) "") = false ->
    RecordChange s k (GetFile id sent) (Some d) (requeue d).

(** The percentages a sequence of output chunks reports, in order. *)
Definition reported (outputs : list string) : list Q :=
  flat_map (fun o => match Regex.search Regex.progress_re o with
                     | Some (Some text) => [Num.parseFloat text]
                     | _ => []
                     end) outputs.

(** The progress values the stdout callback stores for them, in order,
    starting from record [d]. *)
Fixpoint stored (outputs : list string) (d : DownloadProgress) : list Q :=
  match outputs with
  | [] => []
  | o :: r =>
      let d' := on_stdout o d in
      match Regex.search Regex.progress_re o with
      | Some (Some _) => progress d' :: stored r d'
      | _ => stored r d'
      end
  end.

(** A download whose subprocess first reports its video stream and then
    starts over on the audio stream. *)
Definition two_streams : list Event :=
  [ PostDownload clip_url None false 1000 1001;
    TitleDone 0 (inl "Clip") 1002;
    Stdout 0 "[download]  72.5% of 48.00MiB at 2.10MiB/s";
    Stdout 0 "[download]   1.3% of 3.20MiB at 1.05MiB/s" ].

(** The same job id handed out twice. *)
Definition reused_id : list Event :=
  [ PostDownload clip_url None false 1000 1001;
    TitleDone 0 (inl "Clip") 1002;
    GetFile "abcdefghijk" Streamed;
    PostDownload clip_url None false 1000 1001;
    Close 0 (Some 0%Z);
    QualityVerified 0 "1080p" ].

(** A request whose title lookup fails. *)
Definition title_failure : list Event :=
  [ PostDownload clip_url None false 1000 1001;
    TitleDone 0 (inr "Command failed: yt-dlp --print title") 1002 ].

(** The same request as in [clip_events], up to the exit of the download
    process: the quality of the file has not been verified yet. *)
Definition clip_downloaded : list Event :=
  [ PostDownload clip_url None false 1000 1001;
    TitleDone 0 (inl "Clip") 1002;
    Stdout 0 "[download]  45.3% of 10MiB";
    DiskWrite clip_file Fs.File;
    Close 0 (Some 0%Z) ].

(** A request whose download process reports on its error stream that
    the video is unavailable. *)
Definition unavailable_clip : list Event :=
  [ PostDownload clip_url None false 1000 1001;
    TitleDone 0 (inl "Clip") 1002;
    Stderr 0 "ERROR: [youtube] abcdefghijk: Video unavailable" ].

(** What the clients have been sent. *)
Definition answers (es : list Effect) : list Effect :=
  filter (fun e => match e with
                   | Reply _ | ReplyDownload _ _ => true
                   | _ => false
                   end) es.

(** The number of times job [i]'s download command was launched. *)
Definition spawn_count (i : nat) (es : list Effect) : nat :=
  length (filter (fun e => match e with
                           | Spawn j _ => Nat.eqb j i
                           | _ => false
                           end) es).

(** Jobs that still wait for their title have not been launched, and no
    job was launched twice. *)
Definition LaunchedOnce (s : Server) : Prop :=
  forall i,
    match nth_error (tasks s) i with
    | None => spawn_count i (effects s) = 0%nat
    | Some t =>
        match ctl t with
        | AwaitTitle => spawn_count i (effects s) = 0%nat
        | _ => (spawn_count i (effects s) <= 1)%nat
        end
    end.

(* ------------------------------------------------------------------ *)
(** ** More of JavaScript's strings and of the disk *)

Module Str.

(** Every character of [s] passes [p]. *)
Fixpoint all_chars (p : ascii -> bool) (s : string) : bool :=
  match s with
  | String c r => p c && all_chars p r
  | EmptyString => true
  end.

(** [c] occurs in [s]. *)
Fixpoint has_char (c : ascii) (s : string) : bool :=
  match s with
  | String x r => Ascii.eqb x c || has_char c r
  | EmptyString => false
  end.

(** [s.endsWith(suffix)] *)
Definition endsWith (s suffix : string) : bool :=
  (String.length suffix <=? String.length s)%nat
  && String.eqb (substring (String.length s - String.length suffix)
                           (String.length suffix) s) suffix.

(** The rest of [s] after the prefix [p], if [s] starts with it. *)
Fixpoint strip_prefix (p s : string) : option string :=
  match p, s with
  | EmptyString, _ => Some s
  | String a p', String b s' => if Ascii.eqb a b then strip_prefix p' s' else None
  | String _ _, EmptyString => None
  end.

(** [parseInt(s, 10)]; [None] is [NaN]. *)
Definition parseInt10 (s : string) : option Z :=
  let decimal (r : string) :=
    match r with
    | String c _ => if JS.is_digit c then Some (JS.digits_val 0%Z r) else None
    | EmptyString => None
    end in
  match JS.skip_space s with
  | String "-" r => option_map Z.opp (decimal r)
  | String "+" r => decimal r
  | r => decimal r
  end.

(** [\w] *)
Definition is_word (c : ascii) : bool :=
  let n := nat_of_ascii c in
  JS.is_digit c
  || ((65 <=? n)%nat && (n <=? 90)%nat)
  || ((97 <=? n)%nat && (n <=? 122)%nat)
  || (n =? 95)%nat.

End Str.

(** [fs.readdirSync(dir)]: the names directly inside [dir], in the order
    the disk holds them. *)
Definition readdirSync (d : Fs.Disk) (dir : string) : list string :=
  flat_map (fun e => match Str.strip_prefix (dir ++ "/") (fst e) with
                     | Some name =>
                         if String.eqb name "" || Str.has_char "/" name
                         then [] else [name]
                     | None => []
                     end) d.

(* ------------------------------------------------------------------ *)
(** ** server.ts: the playlist routes *)

(** The test both playlist handlers apply to the record they found. *)
Definition isPlaylist (download : DownloadProgress) : bool :=
  JS.startsWith (videoId download) "playlist_"
  || match title download with
     | Some t => JS.includes t "Playlist"
     | None => false
     end
  || match message download with
     | Some msg => JS.includes msg "Playlist"
     | None => false
     end.

(** The record's [filePath] when it is a directory on disk. *)
Definition playlist_directory (download : DownloadProgress) (d : Fs.Disk)
  : option string :=
  let playlistDir := JS.or_else (filePath download) "" in
  if negb (JS.truthy (filePath download))
     || negb (Fs.existsSync d playlistDir)
     || negb (Fs.isDirectory d playlistDir)
  then None else Some playlistDir.

(** [fs.readdirSync(playlistDir).filter(file => file.endsWith('.mp4'))] *)
Definition playlist_videos (d : Fs.Disk) (playlistDir : string) : list string :=
  filter (fun file => Str.endsWith file ".mp4") (readdirSync d playlistDir).

(** What a playlist route answers; both routes only read. *)
Inductive PlaylistReply : Type :=
| PlaylistFiles (playlistId : string) (ttl : option string)
                (files : list (string * string * Z))    (* name, path, size *)
| PlaylistFileSent (path : string)
| PlaylistFailure (code : nat) (err : string)
| PlaylistFileAborted (path : string).

(** [playlistFilesHandler]; [size] is what [fs.statSync(p).size] gives. *)
Definition playlistFilesHandler (id : string) (m : Downloads) (d : Fs.Disk)
           (size : string -> Z) : PlaylistReply :=
  if String.eqb id "" then PlaylistFailure 400 "Download ID is required"
  else
    match getDownloadProgress id m with
    | None => PlaylistFailure 404 "Playlist not found"
    | Some download =>
        if negb (isPlaylist download)
        then PlaylistFailure 400 "This download is not a playlist"
        else
          match playlist_directory download d with
          | None => PlaylistFailure 404 "Playlist directory not found"
          | Some playlistDir =>
              PlaylistFiles id (title download)
                (map (fun file => (file, Fs.join playlistDir file,
                                   size (Fs.join playlistDir file)))
                     (playlist_videos d playlistDir))
          end
    end.

(** The answer of the playlist file route once it has called
    [res.sendFile(path, callback)]. *)
Definition playlist_sendFile (path : string) (sent : SendOutcome) : PlaylistReply :=
  match sent with
  | Streamed => PlaylistFileSent path
  | Refused message => PlaylistFailure 500 ("Failed to serve file: " ++ message)
  | Broken _ => PlaylistFileAborted path
  | Rejected message =>
      PlaylistFailure 500 (JS.or_else (Some message) "Error getting playlist file")
  end.

(** [playlistFileHandler]; [sent] is what Express makes of the
    [sendFile] call, should the handler get there. *)
Definition playlistFileHandler (id fileIndex : string) (sent : SendOutcome)
           (m : Downloads) (d : Fs.Disk) : PlaylistReply :=
  if String.eqb id "" then PlaylistFailure 400 "Download ID is required"
  else if String.eqb fileIndex "" then PlaylistFailure 400 "File index is required"
  else
    match getDownloadProgress id m with
    | None => PlaylistFailure 404 "Playlist not found"
    | Some download =>
        if negb (isPlaylist download)
        then PlaylistFailure 400 "This download is not a playlist"
        else
          match playlist_directory download d with
          | None => PlaylistFailure 404 "Playlist directory not found"
          | Some playlistDir =>
              let files := playlist_videos d playlistDir in
              match Str.parseInt10 fileIndex with
              | None => PlaylistFailure 400 "Invalid file index"
              | Some idx =>
                  if (idx <? 0)%Z || (Z.of_nat (length files) <=? idx)%Z
                  then PlaylistFailure 400 "Invalid file index"
                  else
                    let path :=
                      Fs.join playlistDir (nth (Z.to_nat idx) files "") in
                    if negb (Fs.existsSync d path)
                    then PlaylistFailure 404 "File not found"
                    else playlist_sendFile path sent
              end
          end
    end.

(* ------------------------------------------------------------------ *)
(** ** download.ts: [findBestFormat] *)

(** [formatLine.match(/^(\d+)\s+(\w+)\s+(\d+x\d+)/)]: the three groups.
    Each group is matched by the backtracking matcher, the rest of the
    pattern being the continuation. *)
Definition format_line_parts (formatLine : string)
  : option (string * string * string) :=
  Regex.run (Regex.Cap (Regex.Plus JS.is_digit)) formatLine None
    (fun formatId s1 =>
       Regex.run (Regex.Seq (Regex.Plus JS.is_space)
                            (Regex.Cap (Regex.Plus Str.is_word))) s1 None
         (fun container s2 =>
            Regex.run
              (Regex.Seq (Regex.Plus JS.is_space)
                 (Regex.Cap (Regex.Seq (Regex.Plus JS.is_digit)
                               (Regex.Seq (Regex.lit "x") (Regex.Plus JS.is_digit)))))
              s2 None
              (fun resolution _ =>
                 match formatId, container, resolution with
                 | Some a, Some b, Some c => Some (a, b, c)
                 | _, _, _ => None
                 end))).

(** [parseInt(resolution.split('x')[1], 10)] *)
Definition height_of (resolution : string) : option Z :=
  match JS.at_index (JS.split "x" resolution) 1 with
  | Some h => Str.parseInt10 h
  | None => None
  end.

(** [quality === "1080p" ? 1080 : quality === "720p" ? 720 : 480] *)
Definition targetHeight (quality : string) : Z :=
  if String.eqb quality "1080p" then 1080
  else if String.eqb quality "720p" then 720
  else 480.

(** [a === b] and [a <= b] on numbers that may be [NaN]. *)
Definition num_eq (a : option Z) (b : Z) : bool :=
  match a with Some x => (x =? b)%Z | None => false end.

Definition num_le (a : option Z) (b : Z) : bool :=
  match a with Some x => (x <=? b)%Z | None => false end.

(** The loop of [findBestFormat], with its two variables. *)
Fixpoint findBestFormat_from (target : Z) (formats : list string)
         (bestFormatId : option string) (bestResolution : Z) : option string :=
  match formats with
  | [] => bestFormatId
  | formatLine :: rest =>
      match format_line_parts formatLine with
      | Some (formatId, container, resolution) =>
          let height := height_of resolution in
          if JS.includes formatLine "audio only"
          then findBestFormat_from target rest bestFormatId bestResolution
          else if num_eq height target && String.eqb container "mp4"
          then Some formatId
          else if num_le height target && JS.num_gt height (Some bestResolution)
          then findBestFormat_from target rest (Some formatId)
                                   (match height with Some h => h | None => bestResolution end)
          else findBestFormat_from target rest bestFormatId bestResolution
      | None => findBestFormat_from target rest bestFormatId bestResolution
      end
  end.

(** [findBestFormat(formats, quality)] *)
Definition findBestFormat (formats : list string) (quality : string) : option string :=
  findBestFormat_from (targetHeight quality) formats None 0.

(* ------------------------------------------------------------------ *)
(** ** download.ts: [simulateProgress] *)

(** One firing of the interval of [simulateProgress(downloadId)]: the
    counter [progress] of the closure and the registry, and whether the
    interval goes on ([false]: [clearInterval]). *)
Definition simulate_tick (downloadId : string) (progress : Z) (m : Downloads)
  : Z * Downloads * bool :=
  let progress := (progress + 5)%Z in
  if (95 <? progress)%Z then (progress, m, false)
  else
    match JsMap.get m downloadId with
    | Some download =>
        if negb (status_eqb (status download) completed)
           && negb (status_eqb (status download) error)
        then (progress,
              JsMap.set m downloadId
                (mkDownload (videoId download) (inject_Z progress) downloading
                            (title download)
                            (Some ("Downloading: " ++ JS.string_of_Z progress ++ "%"))
                            (filePath download)),
              true)
        else (progress, m, false)
    | None => (progress, m, false)
    end.

(** The interval left to itself for at most [n] firings. *)
Fixpoint simulate (n : nat) (downloadId : string) (progress : Z) (m : Downloads)
  : Z * Downloads :=
  match n with
  | O => (progress, m)
  | S n' =>
      match simulate_tick downloadId progress m with
      | (p, m', true) => simulate n' downloadId p m'
      | (p, m', false) => (p, m')
      end
  end.

(** The part of a sequence pattern before its last item. *)
Definition seq_head (r : Regex.re) : Regex.re :=
  match r with
  | Regex.Seq a _ => a
  | _ => Regex.Eps
  end.

(** A line of the format table as the loop of [findBestFormat] takes it:
    format id, container and height; nothing for a line that does not
    parse or that is audio only. *)
Definition format_entry (formatLine : string) : option (string * string * option Z) :=
  match format_line_parts formatLine with
  | Some (formatId, container, resolution) =>
      if JS.includes formatLine "audio only" then None
      else Some (formatId, container, height_of resolution)
  | None => None
  end.

(** The first priority of the loop: the target height in an mp4 container. *)
Definition exact_match (target : Z) (formatLine : string) : bool :=
  match format_entry formatLine with
  | Some (_, container, height) => num_eq height target && String.eqb container "mp4"
  | None => false
  end.

(** A table as [yt-dlp -F] prints it. *)
Definition sample_formats : list string :=
  [ "251 webm  audio only      2 |    3.28MiB  128k https | audio only  opus 128k"
  ; "18  mp4   640x360     25    |   10.01MiB  390k https | avc1.42001E  mp4a.40.2"
  ; "247 webm  1280x720    25    |   20.11MiB  784k https | vp9  784k video only"
  ; "136 mp4   1280x720    25    |   22.50MiB  877k https | avc1.4d401f  877k video only"
  ; "137 mp4   1920x1080   25    |   67.69MiB 2352k https | avc1.640028 2352k video only" ].

(** A finished playlist job and its folder. *)
Definition mix_registry : Downloads :=
  [ ("playlist_abcdefghijk_1001",
     mkDownload "playlist_abcdefghijk" (inject_Z 100) completed
                (Some "Playlist_Mix") (Some "Playlist download completed")
                (Some "/app/downloads/Mix")) ].

Definition mix_disk : Fs.Disk :=
  [ ("/app/downloads", Fs.Directory)
  ; ("/app/downloads/Mix", Fs.Directory)
  ; ("/app/downloads/Mix/01 - Intro.mp4", Fs.File)
  ; ("/app/downloads/Mix/cover.jpg", Fs.File)
  ; ("/app/downloads/Mix/02 - Theme.mp4", Fs.File)
  ; ("/app/downloads/Mix/extras/03 - Bonus.mp4", Fs.File) ].

(** The keys of [m'] are the keys of [m], in the same order, followed by
    new ones. *)
Definition Extends (m m' : Downloads) : Prop :=
  exists added, map fst m' = (map fst m ++ added)%list.

(* ------------------------------------------------------------------ *)
(** ** The server as a transition system

    What one event can do to the jobs in flight and to the list of
    effects, read off [downloadHandler] and the continuations of
    [downloadFromUrl]. *)

(** The path [downloadFromUrl] chooses for the output of a job. *)
Definition output_path (t : Task) (stdout : string) (timestamp : Z) : string :=
  Fs.join outputDir
          (sanitize_title stdout ++ "_" ++ taskVideoId t ++ "_"
           ++ JS.string_of_Z timestamp ++ ".mp4").

(** One move of job [i]: the job before and after, and the effects the
    move appends. *)
Inductive JobMove (i : nat) (t : Task) : Task -> list Effect -> Prop :=
| MvNone : JobMove i t t []
| MvClosed :
    alive (proc t) = true ->
    JobMove i t (with_proc Closed t) []
| MvTitle stdout timestamp :
    ctl t = AwaitTitle ->
    JobMove i t
      (with_proc Running
         (with_ctl (AwaitClose 0 firstRetryDelay)
                   (with_outFile (output_path t stdout timestamp) t)))
      [ Spawn i (download_command (url t) (quality t)
                                  (output_path t stdout timestamp) (playlist t))
      ; SetTimeout i attemptTimeout ]
| MvTitleFailed msg :
    ctl t = AwaitTitle ->
    JobMove i t (with_ctl Thrown t) [ReplyDownload i (Failure 500 msg)]
| MvExitZero retryCount retryDelay :
    ctl t = AwaitClose retryCount retryDelay ->
    JobMove i t (with_ctl Verifying (with_proc Closed t)) []
| MvRetry retryCount retryDelay p kills :
    ctl t = AwaitClose retryCount retryDelay ->
    (S retryCount < maxRetries)%nat ->
    p <> NotStarted \/ p = proc t ->
    kills = [] \/ kills = [Kill i] ->
    JobMove i t (with_ctl (Sleeping (S retryCount) retryDelay) (with_proc p t))
            (kills ++ [SetTimeout i retryDelay])
| MvGiveUp retryCount retryDelay p kills msg :
    ctl t = AwaitClose retryCount retryDelay ->
    (maxRetries <= S retryCount)%nat ->
    kills = [] \/ kills = [Kill i] ->
    JobMove i t (with_ctl Thrown (with_proc p t))
            (kills ++ [ReplyDownload i (Failure 500 msg)])
| MvWake retryCount retryDelay :
    ctl t = Sleeping retryCount retryDelay ->
    JobMove i t (with_ctl (AwaitClose retryCount (retryDelay * 2)) t)
            [SetTimeout i attemptTimeout]
| MvVerified :
    ctl t = Verifying ->
    JobMove i t (with_ctl Returned t)
            [ReplyDownload i (DownloadStarted (downloadId t))].

(** One event, as it changes the jobs and the effects. *)
Inductive Transition (s s' : Server) : Prop :=
| TrQuiet :
    tasks s' = tasks s -> effects s' = effects s -> Transition s s'
| TrReply r :
    tasks s' = tasks s -> effects s' = (effects s ++ [Reply r])%list ->
    Transition s s'
| TrCreate id reqUrl q pl now :
    tasks s' = (tasks s ++ [mkTask id (extractVideoId reqUrl now) reqUrl q pl
                                   "" AwaitTitle NotStarted])%list ->
    effects s' = (effects s ++ [Exec (length (tasks s)) (info_command reqUrl)])%list ->
    Transition s s'
| TrJob i t u efs :
    nth_error (tasks s) i = Some t ->
    JobMove i t u efs ->
    tasks s' = replace_nth i u (tasks s) ->
    effects s' = (effects s ++ efs)%list ->
    Transition s s'.

(** The effects that belong to job [i]. *)
Definition about (i : nat) (e : Effect) : bool :=
  match e with
  | Reply _ => false
  | ReplyDownload j _ | Exec j _ | Spawn j _ | Kill j | SetTimeout j _ => Nat.eqb j i
  end.

Definition job_effects (i : nat) (es : list Effect) : list Effect :=
  filter (about i) es.

(** The answers [downloadHandler] gave for job [i]. *)
Definition is_answer (e : Effect) : bool :=
  match e with ReplyDownload _ _ => true | _ => false end.

Definition reply_count (i : nat) (es : list Effect) : nat :=
  length (filter is_answer (job_effects i es)).

(** The ten-minute waits job [i] started. *)
Definition is_wait (e : Effect) : bool :=
  match e with SetTimeout _ ms => (ms =? attemptTimeout)%Z | _ => false end.

Definition wait_count (i : nat) (es : list Effect) : nat :=
  length (filter is_wait (job_effects i es)).

(** The timers of the retry loop: the timeout of a wait, and the pauses
    of five and ten seconds. *)
Definition timer_ok (e : Effect) : Prop :=
  match e with
  | SetTimeout _ ms => ms = attemptTimeout \/ ms = 5000%Z \/ ms = 10000%Z
  | _ => True
  end.

(** A job and the effects so far: how many waits it started, whether its
    request was answered, and the state of its process, by the place
    where [downloadFromUrl] is suspended. *)
Definition JobOk (i : nat) (t : Task) (es : list Effect) : Prop :=
  match ctl t with
  | AwaitTitle =>
      reply_count i es = 0%nat /\ wait_count i es = 0%nat
      /\ proc t = NotStarted
  | AwaitClose retryCount retryDelay =>
      reply_count i es = 0%nat /\ wait_count i es = S retryCount
      /\ (retryCount < maxRetries)%nat
      /\ retryDelay = (firstRetryDelay * 2 ^ Z.of_nat retryCount)%Z
      /\ proc t <> NotStarted
  | Sleeping retryCount retryDelay =>
      reply_count i es = 0%nat /\ wait_count i es = retryCount
      /\ (1 <= retryCount < maxRetries)%nat
      /\ (retryDelay * 2 = firstRetryDelay * 2 ^ Z.of_nat retryCount)%Z
      /\ proc t <> NotStarted
  | Verifying =>
      reply_count i es = 0%nat /\ (wait_count i es <= maxRetries)%nat
      /\ proc t = Closed
  | Returned =>
      reply_count i es = 1%nat /\ (wait_count i es <= maxRetries)%nat
      /\ proc t = Closed
  | Thrown =>
      reply_count i es = 1%nat /\ (wait_count i es <= maxRetries)%nat
  end.

Definition Schedule (s : Server) : Prop :=
  Forall timer_ok (effects s)
  /\ forall i,
       match nth_error (tasks s) i with
       | Some t => JobOk i t (effects s)
       | None => job_effects i (effects s) = []
       end.

(** A job keeps the video id it was created with, and its output file,
    once chosen, is the path [downloadFromUrl] builds from the title. *)
Definition PathOk (t : Task) : Prop :=
  (exists reqUrl now, taskVideoId t = extractVideoId reqUrl now)
  /\ (outFile t = ""
      \/ exists stdout timestamp, outFile t = output_path t stdout timestamp).

(** Every record of the registry passes [P]. *)
Definition AllRecords (P : DownloadProgress -> Prop) (m : Downloads) : Prop :=
  forall k d, In (k, d) m -> P d.

(** A progress value a client can show as a percentage. *)
Definition percentage (d : DownloadProgress) : Prop :=
  (inject_Z 0 <= progress d)%Q /\ (progress d <= inject_Z 100)%Q.

(** Splits a conjunction into its parts, and nothing else. *)
Ltac splits := repeat match goal with |- _ /\ _ => split end.

(* ------------------------------------------------------------------ *)
(** ** Lemmas on the containers *)

Section MapFacts.
Context {V : Type}.
Implicit Types (m : list (string * V)) (k : string) (v : V).

Lemma get_set_same m k v : JsMap.get (JsMap.set m k v) k = Some v.
Proof.
  induction m as [|[k' v'] r IH]; simpl.
  - now rewrite String.eqb_refl.
  - destruct (String.eqb k' k) eqn:E; simpl.
    + now rewrite String.eqb_refl.
    + now rewrite E.
Qed.

Lemma get_set_other m k k' v :
  k <> k' -> JsMap.get (JsMap.set m k v) k' = JsMap.get m k'.
Proof.
  intros N. induction m as [|[k0 v0] r IH]; simpl.
  - destruct (String.eqb k k') eqn:E; [apply String.eqb_eq in E; contradiction | reflexivity].
  - destruct (String.eqb k0 k) eqn:E; simpl.
    + apply String.eqb_eq in E; subst k0.
      destruct (String.eqb k k') eqn:E'; [apply String.eqb_eq in E'; contradiction | reflexivity].
    + destruct (String.eqb k0 k'); [reflexivity | exact IH].
Qed.

Lemma has_false_get m k : JsMap.has m k = false -> JsMap.get m k = None.
Proof. unfold JsMap.has. destruct (JsMap.get m k); [discriminate | reflexivity]. Qed.

Lemma find_FirstEntry (p : string * V -> bool) m e :
  find p m = Some e -> FirstEntry p m e.
Proof.
  revert e. induction m as [|x r IH]; simpl; intros e; [discriminate|].
  destruct (p x) eqn:E.
  - intros [= <-]. exists [], r. repeat split; auto. intros ? [].
  - intros H. destruct (IH _ H) as (b & a & -> & Hp & Hb).
    exists (x :: b), a. repeat split; auto.
    intros e' [<-|Hin]; auto.
Qed.

Lemma find_NoEntry (p : string * V -> bool) m :
  find p m = None -> NoEntry p m.
Proof.
  induction m as [|x r IH]; simpl; intros H e; [intros []|].
  destruct (p x) eqn:E; [discriminate|].
  intros [<-|Hin]; auto. now apply IH.
Qed.

Lemma FirstEntry_find (p : string * V -> bool) m e :
  FirstEntry p m e -> find p m = Some e.
Proof.
  intros (b & a & -> & Hp & Hb).
  induction b as [|x b IH]; simpl.
  - now rewrite Hp.
  - rewrite (Hb x (or_introl eq_refl)). apply IH.
    intros e' Hin. apply Hb. now right.
Qed.

Lemma NoEntry_find (p : string * V -> bool) m :
  NoEntry p m -> find p m = None.
Proof.
  induction m as [|x r IH]; simpl; intros H; [reflexivity|].
  rewrite (H x (or_introl eq_refl)). apply IH.
  intros e Hin. apply H. now right.
Qed.

Lemma find_filter (p q : string * V -> bool) m :
  find p (filter q m) = find (fun e => q e && p e) m.
Proof.
  induction m as [|x r IH]; simpl; [reflexivity|].
  destruct (q x) eqn:Q; simpl; [|exact IH].
  destruct (p x); [reflexivity | exact IH].
Qed.

Lemma first_entry_find (p : string -> V -> bool) m :
  JsMap.first_entry p m = find (fun e => p (fst e) (snd e)) m.
Proof.
  induction m as [|[k v] r IH]; simpl; [reflexivity|].
  destruct (p k v); [reflexivity | exact IH].
Qed.

Lemma get_find m k :
  JsMap.get m k = option_map snd (find (fun e => String.eqb (fst e) k) m).
Proof.
  induction m as [|[k' v'] r IH]; simpl; [reflexivity|].
  destruct (String.eqb k' k); [reflexivity | exact IH].
Qed.
End MapFacts.

(* ------------------------------------------------------------------ *)
(** ** Lookup order *)

Lemma getDownloadProgress_unfold id m :
  getDownloadProgress id m =
  match find (exact_key id) m with
  | Some e => Some (snd e)
  | None =>
      match find (key_prefix id) m with
      | Some e => Some (snd e)
      | None => option_map snd (find (field_match id) m)
      end
  end.
Proof.
  unfold getDownloadProgress, getDownloadProgress_entry.
  rewrite get_find, !first_entry_find.
  fold (exact_key id) (key_prefix id) (field_match id).
  destruct (find (exact_key id) m); simpl; [reflexivity|].
  destruct (find (key_prefix id) m); reflexivity.
Qed.

Lemma getDownloadProgress_resolves m id :
  Resolution m id (getDownloadProgress id m).
Proof.
  rewrite getDownloadProgress_unfold.
  destruct (find (exact_key id) m) as [e|] eqn:E1.
  { apply ByExactKey. now apply find_FirstEntry. }
  apply find_NoEntry in E1.
  destruct (find (key_prefix id) m) as [e|] eqn:E2.
  { apply ByKeyPrefix; [assumption | now apply find_FirstEntry]. }
  apply find_NoEntry in E2.
  destruct (find (field_match id) m) as [e|] eqn:E3; simpl.
  - apply ByVideoId; auto. now apply find_FirstEntry.
  - apply NotFound; auto. now apply find_NoEntry.
Qed.

(** C5. For every lookup id the job-store lookup resolves in this order:
    an exact key match, then the first record whose key starts with the
    id followed by the underscore separator, then the first record whose
    [videoId] field equals the id; the first match wins, and when no mode
    matches the lookup returns nothing ([undefined]) instead of failing.
    The result of [getDownloadProgress] is the one and only result that
    this order allows. *)
Theorem getDownloadProgress_resolution_order :
  forall (m : Downloads) (id : string) (r : option DownloadProgress),
    Resolution m id r <-> getDownloadProgress id m = r.
Proof.
  intros m id r. split.
  - rewrite getDownloadProgress_unfold.
    intros [e F | e N F | e N1 N2 F | N1 N2 N3];
      repeat match goal with
             | H : FirstEntry _ _ _ |- _ => apply FirstEntry_find in H; rewrite H
             | H : NoEntry _ _ |- _ => apply NoEntry_find in H; rewrite H
             end; reflexivity.
  - intros <-. apply getDownloadProgress_resolves.
Qed.

(* ------------------------------------------------------------------ *)
(** ** Reuse of an existing job *)

Lemma append_assoc (a b c : string) : (a ++ b) ++ c = a ++ b ++ c.
Proof. induction a as [|x a IH]; simpl; [reflexivity|now rewrite IH]. Qed.

Lemma prefix_app (p s : string) :
  String.prefix p s = true <-> exists rest, s = p ++ rest.
Proof.
  revert s. induction p as [|a p IH]; intros s.
  - split; [intros _; now exists s|now destruct s].
  - destruct s as [|b s]; simpl.
    + split; [discriminate|intros [rest H]; discriminate].
    + destruct (ascii_dec a b) as [->|N].
      * rewrite IH. split; intros [rest H]; exists rest; congruence.
      * split; [discriminate|intros [rest H]; congruence].
Qed.

(** The three tests of [downloadFromUrl] say what the contract says. *)
Lemma same_video_stored_for vid e : same_video vid e = true <-> stored_for vid e.
Proof.
  unfold same_video, stored_for, JS.startsWith.
  rewrite orb_true_iff, String.eqb_eq, prefix_app.
  split; (intros [H|[rest H]]; [now left|right; exists rest]).
  - now rewrite <- append_assoc.
  - now rewrite append_assoc.
Qed.

Lemma is_completed_download_finished e :
  is_completed_download e = true <-> finished_job e.
Proof.
  unfold is_completed_download, finished_job.
  rewrite !andb_true_iff, Qeq_bool_iff.
  assert (S : status_eqb (status (snd e)) completed = true <-> status (snd e) = completed)
    by (destruct (status (snd e)); simpl; split; congruence).
  assert (T : JS.truthy (filePath (snd e)) = true
              <-> exists path, filePath (snd e) = Some path /\ path <> "").
  { destruct (filePath (snd e)) as [[|c p]|]; simpl; split; try discriminate.
    - intros (path & [= <-] & N). now contradiction N.
    - intros _. exists (String c p). split; [reflexivity|discriminate].
    - reflexivity.
    - intros (path & H & _). discriminate. }
  rewrite S, T. tauto.
Qed.

Lemma is_in_progress_running e : is_in_progress e = true <-> running_job e.
Proof.
  unfold is_in_progress, running_job. rewrite orb_true_iff.
  destruct (status (snd e)); simpl; split; intros [H|H]; auto; discriminate.
Qed.

Lemma FirstEntry_FirstSuch (p : string * DownloadProgress -> bool)
      (P : string * DownloadProgress -> Prop) (m : Downloads) e :
  (forall x, p x = true <-> P x) ->
  (FirstEntry p m e <-> FirstSuch P m e).
Proof.
  intros R. unfold FirstEntry, FirstSuch.
  split; intros (before & after & E & Pe & N); exists before, after;
    (split; [exact E|]); (split; [now apply R|]); intros x I.
  - rewrite <- R, (N x I). discriminate.
  - destruct (p x) eqn:Px; [|reflexivity]. now destruct (N x I); apply R.
Qed.

Lemma NoEntry_NoneSuch (p : string * DownloadProgress -> bool)
      (P : string * DownloadProgress -> Prop) (m : Downloads) :
  (forall x, p x = true <-> P x) ->
  (NoEntry p m <-> NoneSuch P m).
Proof.
  intros R. unfold NoEntry, NoneSuch. split; intros N x I.
  - rewrite <- R, (N x I). discriminate.
  - destruct (p x) eqn:Px; [|reflexivity]. now destruct (N x I); apply R.
Qed.

Lemma finished_of_video vid x :
  same_video vid x && is_completed_download x = true
  <-> stored_for vid x /\ finished_job x.
Proof.
  now rewrite andb_true_iff, same_video_stored_for, is_completed_download_finished.
Qed.

Lemma running_of_video vid x :
  same_video vid x && is_in_progress x = true
  <-> stored_for vid x /\ running_job x.
Proof.
  now rewrite andb_true_iff, same_video_stored_for, is_in_progress_running.
Qed.

(** C1. For every request URL, [downloadFromUrl] answers with the id of
    an existing stored job of the resolved [videoId] instead of creating a
    record: it prefers the first job that is ['completed'] with progress
    100 and a file path, otherwise takes the first job that is
    ['downloading'] or ['processing'], and only when the video has neither
    does it create a new record.  What [downloadFromUrl] does is an
    outcome of the contract [Reuse], and the contract leaves no other:
    it fixes the id that is reused, and when it asks for a new record a
    new record is what the code makes. *)
Theorem downloadFromUrl_reuses_existing_job :
  forall (url : string) (playlist : bool) (tExtract tId : Z) (m : Downloads),
    Reuse (extractVideoId url tExtract) m
          (downloadFromUrl_enter url playlist tExtract tId m)
    /\ forall r,
         Reuse (extractVideoId url tExtract) m r ->
         match fst r with
         | Existing id =>
             downloadFromUrl_enter url playlist tExtract tId m = (Existing id, m)
         | Created _ _ =>
             exists id,
               fst (downloadFromUrl_enter url playlist tExtract tId m)
               = Created id (extractVideoId url tExtract)
         end.
Proof.
  intros url playlist tExtract tId m.
  set (vid := extractVideoId url tExtract).
  unfold downloadFromUrl_enter. fold vid. rewrite !find_filter.
  pose proof (fun e => FirstEntry_FirstSuch _ _ m e (finished_of_video vid)) as F1.
  pose proof (fun e => FirstEntry_FirstSuch _ _ m e (running_of_video vid)) as F2.
  pose proof (NoEntry_NoneSuch _ _ m (finished_of_video vid)) as N1.
  pose proof (NoEntry_NoneSuch _ _ m (running_of_video vid)) as N2.
  split.
  - destruct (find (fun e => same_video vid e && is_completed_download e) m)
      as [e|] eqn:E1.
    { apply ReuseFinished. apply F1. now apply find_FirstEntry. }
    apply find_NoEntry in E1.
    destruct (find (fun e => same_video vid e && is_in_progress e) m) as [e|] eqn:E2.
    { apply ReuseRunning; [now apply N1|]. apply F2. now apply find_FirstEntry. }
    apply find_NoEntry in E2.
    apply NewJob with (r := new_download vid); try reflexivity.
    + now apply N1.
    + now apply N2.
    + apply get_set_same.
    + intros k N. apply get_set_other. congruence.
  - intros r [e H|e H1 H2|id m' d H1 H2 _ _ _ _]; cbn [fst].
    + apply F1, FirstEntry_find in H. now rewrite H.
    + apply N1, NoEntry_find in H1. apply F2, FirstEntry_find in H2.
      now rewrite H1, H2.
    + apply N1, NoEntry_find in H1. apply N2, NoEntry_find in H2.
      rewrite H1, H2. eexists. reflexivity.
Qed.

(* ------------------------------------------------------------------ *)
(** ** Deletion *)

Lemma deleteDownloadHandler_activeDownloads id s :
  activeDownloads (deleteDownloadHandler id s) = activeDownloads s.
Proof.
  unfold deleteDownloadHandler.
  destruct (String.eqb id ""); [reflexivity|].
  destruct (matchingDownloads id (activeDownloads s)); reflexivity.
Qed.

(** C2. Deleting the finished job of [finished_clip] answers "Download
    deleted successfully" and takes the file off the disk, but every
    record is still in the registry afterwards and a lookup of the
    deleted id still finds it: the handler assigns the filtered list to
    [global.downloads] and never touches [activeDownloads]. *)
Theorem delete_leaves_records_in_store :
  let s := step (DeleteDownload "abcdefghijk_1001") finished_clip in
  effects s = (effects finished_clip ++ [Reply Deleted])%list
  /\ Fs.existsSync (disk finished_clip) clip_file = true
  /\ Fs.existsSync (disk s) clip_file = false
  /\ globalDownloads s = Some []
  /\ activeDownloads s = activeDownloads finished_clip
  /\ getDownloadProgress "abcdefghijk_1001" (activeDownloads s)
     = getDownloadProgress "abcdefghijk_1001" (activeDownloads finished_clip)
  /\ option_map status (getDownloadProgress "abcdefghijk_1001" (activeDownloads s))
     = Some completed.
Proof.
  vm_compute. repeat split; reflexivity.
Qed.

Lemma includes_cons (c : ascii) (h x : string) :
  JS.includes (String c h) x = String.prefix x (String c h) || JS.includes h x.
Proof. reflexivity. Qed.

Lemma prefix_single_neq (a c : ascii) (s : string) :
  a <> c -> String.prefix (String a "") (String c s) = false.
Proof.
  intros N. cbn [String.prefix].
  destruct (ascii_dec a c); [contradiction | reflexivity].
Qed.

Lemma split_head (s : string) :
  exists h t rest,
    JS.split "_" s = h :: t
    /\ JS.includes h "_" = false
    /\ s = h ++ rest
    /\ (rest = "" \/ JS.startsWith rest "_" = true).
Proof.
  induction s as [|c r (h & t & rest & IHs & IHi & IHr & IHp)].
  - exists "", [], "". repeat split; auto.
  - simpl JS.split. destruct (Ascii.eqb c "_") eqn:E.
    + apply Ascii.eqb_eq in E. subst c.
      exists "", (JS.split "_" r), (String "_" r). repeat split; auto.
      right. unfold JS.startsWith. cbn [String.prefix].
      destruct (ascii_dec "_" "_"); [destruct r; reflexivity | contradiction].
    + rewrite IHs. exists (String c h), t, rest. repeat split; auto.
      * apply Ascii.eqb_neq in E.
        rewrite includes_cons, prefix_single_neq by congruence. exact IHi.
      * simpl. now rewrite <- IHr.
Qed.

(** [id.split('_')[0]] is the part of [id] before its first underscore. *)
Lemma base_of_prefix (id : string) :
  JS.includes (base_of id) "_" = false
  /\ exists rest, id = base_of id ++ rest
                  /\ (rest = "" \/ JS.startsWith rest "_" = true).
Proof.
  destruct (split_head id) as (h & t & rest & Hs & Hi & Hr & Hp).
  assert (B : base_of id = h).
  { unfold base_of. rewrite Hs. simpl. destruct h; reflexivity. }
  rewrite B. split; [exact Hi|]. exists rest. auto.
Qed.

Lemma base_of_synthetic (rest : string) : base_of ("video_" ++ rest) = "video".
Proof.
  unfold base_of. simpl.
  destruct (JS.split "_" rest); reflexivity.
Qed.

Lemma matchingDownloads_In id m d :
  In d (matchingDownloads id m)
  <-> In d (getAllDownloads m) /\ JS.startsWith (videoId d) (base_of id) = true.
Proof. unfold matchingDownloads. apply filter_In. Qed.

(** X23. The deletion matches records by prefix, not by equal video
    identity: a delete request for id X selects exactly the records
    whose [videoId] starts with the part of X before its first
    underscore; so for jobs whose synthetic [videoId] has the form
    [video_<timestamp>], a delete aimed at one of them also selects every
    other one, and none of them is in the list of remaining jobs the
    handler computes. *)
Theorem delete_selects_by_prefix :
  forall (m : Downloads) (id : string) (d : DownloadProgress),
    (In d (matchingDownloads id m)
     <-> In d (getAllDownloads m)
         /\ JS.startsWith (videoId d) (base_of id) = true)
    /\ (forall rest t : string,
           In d (getAllDownloads m) ->
           videoId d = "video_" ++ t ->
           In d (matchingDownloads ("video_" ++ rest) m)
           /\ ~ In d (remainingDownloads ("video_" ++ rest) m))
    /\ JS.includes (base_of id) "_" = false
    /\ (exists rest : string,
           id = base_of id ++ rest
           /\ (rest = "" \/ JS.startsWith rest "_" = true)).
Proof.
  intros m id d. split; [apply matchingDownloads_In|].
  split; [|apply base_of_prefix].
  intros rest t Hin Hv.
  assert (P : JS.startsWith (videoId d) (base_of ("video_" ++ rest)) = true).
  { rewrite base_of_synthetic, Hv. reflexivity. }
  split.
  - apply matchingDownloads_In. auto.
  - unfold remainingDownloads. rewrite filter_In, P. simpl. intros [_ F]. discriminate.
Qed.

Lemma delete_selects_by_prefix_witness :
  In (new_download "video_2000") (getAllDownloads (activeDownloads two_synthetic))
  /\ In (new_download "video_2000")
        (matchingDownloads "video_1000_1001" (activeDownloads two_synthetic)).
Proof.
  assert (Hin : In (new_download "video_2000")
                   (getAllDownloads (activeDownloads two_synthetic))).
  { right. left. reflexivity. }
  split; [exact Hin|].
  exact (proj1 (proj1 (proj2 (delete_selects_by_prefix
                                (activeDownloads two_synthetic) "video_1000_1001"
                                (new_download "video_2000")))
                      "1000_1001" "2000" Hin eq_refl)).
Defined.

(** C10. A delete aimed at the first of the two jobs of
    [two_synthetic], whose video ids are [video_1000] and [video_2000],
    selects both of them, answers "Download deleted successfully" and
    computes an empty list of remaining jobs; but that list goes to
    [global.downloads], the registry is as before, and both jobs are
    still found by their ids: neither has been removed. *)
Theorem delete_of_synthetic_job_removes_neither :
  let s := step (DeleteDownload "video_1000_1001") two_synthetic in
  map videoId (matchingDownloads "video_1000_1001" (activeDownloads two_synthetic))
  = ["video_1000"; "video_2000"]
  /\ remainingDownloads "video_1000_1001" (activeDownloads two_synthetic) = []
  /\ effects s = (effects two_synthetic ++ [Reply Deleted])%list
  /\ globalDownloads s = Some []
  /\ activeDownloads s = activeDownloads two_synthetic
  /\ option_map videoId (getDownloadProgress "video_1000_1001" (activeDownloads s))
     = Some "video_1000"
  /\ option_map videoId (getDownloadProgress "video_2000_2001" (activeDownloads s))
     = Some "video_2000".
Proof.
  vm_compute. repeat split; reflexivity.
Qed.

(* ------------------------------------------------------------------ *)
(** ** Read-repair *)

Lemma truthy_some (path : string) : path <> "" -> JS.truthy (Some path) = true.
Proof. destruct path; [contradiction | reflexivity]. Qed.

Lemma or_else_some (path d : string) : path <> "" -> JS.or_else (Some path) d = path.
Proof. destruct path; [contradiction | reflexivity]. Qed.

Lemma eqb_empty_false (id : string) : id <> "" -> String.eqb id "" = false.
Proof. intros N. now apply String.eqb_neq. Qed.

Lemma checkFileHandler_repairs s id key path download :
  id <> "" ->
  getDownloadProgress_entry id (activeDownloads s) = Some (key, download) ->
  status download = completed ->
  filePath download = Some path ->
  path <> "" ->
  Fs.existsSync (disk s) path = false ->
  checkFileHandler id s
  = emit (Reply (CheckResult false (Some "File needs to be re-downloaded")))
         (set_downloads (JsMap.set (activeDownloads s) key (requeue download)) s).
Proof.
  intros Hid He Hs Hf Hp Hx. unfold checkFileHandler.
  rewrite eqb_empty_false, He, Hs, Hf by assumption.
  rewrite truthy_some, or_else_some, Hx by assumption. reflexivity.
Qed.

Lemma serveFileHandler_repairs s id sent key path download :
  id <> "" ->
  getDownloadProgress_entry id (activeDownloads s) = Some (key, download) ->
  filePath download = Some path ->
  path <> "" ->
  Fs.existsSync (disk s) path = false ->
  serveFileHandler id sent s
  = emit (Reply (Redownload "File needs to be re-downloaded"))
         (set_downloads (JsMap.set (activeDownloads s) key (requeue download)) s).
Proof.
  intros Hid He Hf Hp Hx. unfold serveFileHandler.
  rewrite eqb_empty_false, He, Hf by assumption.
  rewrite truthy_some, or_else_some, Hx by assumption. reflexivity.
Qed.

(** C4, as amended. For every read through the check endpoint (and
    likewise through the file-serving endpoint) of a job whose status is
    ['completed'] but whose [filePath] does not exist on disk at read
    time, the record's status is set to ['queued'] and its progress to 0,
    no other record changes, nothing is created on disk, and the check
    endpoint reports [exists: false]. *)
Theorem check_endpoint_read_repair :
  forall (s : Server) (id key path : string) (download : DownloadProgress),
    id <> "" ->
    getDownloadProgress_entry id (activeDownloads s) = Some (key, download) ->
    status download = completed ->
    filePath download = Some path ->
    path <> "" ->
    Fs.existsSync (disk s) path = false ->
    forall sent s', s' = checkFileHandler id s \/ s' = serveFileHandler id sent s ->
      (exists repaired,
          JsMap.get (activeDownloads s') key = Some repaired
          /\ status repaired = queued
          /\ progress repaired = inject_Z 0
          /\ filePath repaired = Some path)
      /\ (forall k, k <> key ->
                    JsMap.get (activeDownloads s') k = JsMap.get (activeDownloads s) k)
      /\ disk s' = disk s
      /\ (s' = checkFileHandler id s ->
          effects s' =
          (effects s ++ [Reply (CheckResult false (Some "File needs to be re-downloaded"))])%list).
Proof.
  intros s id key path download Hid He Hs Hf Hp Hx sent s' Hs'.
  pose proof (checkFileHandler_repairs s id key path download Hid He Hs Hf Hp Hx) as C.
  pose proof (serveFileHandler_repairs s id sent key path download Hid He Hf Hp Hx) as S.
  assert (R : activeDownloads s' = JsMap.set (activeDownloads s) key (requeue download)
              /\ disk s' = disk s).
  { destruct Hs' as [->| ->]; [rewrite C | rewrite S]; split; reflexivity. }
  destruct R as [Rm Rd]. rewrite Rm.
  repeat split.
  - exists (requeue download). rewrite get_set_same. repeat split; auto.
  - intros k Hk. apply get_set_other. congruence.
  - exact Rd.
  - intros ->. rewrite C. reflexivity.
Qed.

Lemma check_endpoint_read_repair_witness :
  option_map status (JsMap.get (activeDownloads lost_clip) "abcdefghijk_1001")
  = Some completed
  /\ exists repaired,
      JsMap.get (activeDownloads (checkFileHandler "abcdefghijk" lost_clip))
                "abcdefghijk_1001" = Some repaired
      /\ status repaired = queued.
Proof.
  split; [reflexivity|].
  destruct (check_endpoint_read_repair lost_clip "abcdefghijk" "abcdefghijk_1001"
              clip_file
              (mkDownload "abcdefghijk" (inject_Z 100) completed (Some "Clip")
                          (Some "✅ Download completed (1080p) - Exact Quality Match")
                          (Some clip_file))
              ltac:(discriminate) ltac:(reflexivity) ltac:(reflexivity)
              ltac:(reflexivity) ltac:(discriminate) ltac:(reflexivity)
              Streamed (checkFileHandler "abcdefghijk" lost_clip) (or_introl eq_refl))
    as [(r & Hr & Hq & _) _].
  exists r. split; assumption.
Defined.

(** C4 as stated fails on [getDownloadFilePath]: for a completed job
    whose file is gone it leaves the record ['completed'] and starts the
    writing of a placeholder file at [filePath]. *)
Lemma getDownloadFilePath_recreates_file :
  ~ (forall (id : string) (m : Downloads) (d : Fs.Disk)
            (download : DownloadProgress) (path : string),
        JsMap.get m id = Some download ->
        status download = completed ->
        filePath download = Some path ->
        Fs.existsSync d path = false ->
        Fs.existsSync (snd (getDownloadFilePath id m d)) path = false
        /\ option_map status (JsMap.get (snd (fst (getDownloadFilePath id m d))) id)
           = Some queued).
Proof.
  intros H.
  destruct (H "abcdefghijk_1001" (activeDownloads lost_clip) (disk lost_clip)
              (mkDownload "abcdefghijk" (inject_Z 100) completed (Some "Clip")
                          (Some "✅ Download completed (1080p) - Exact Quality Match")
                          (Some clip_file))
              clip_file) as [_ F]; try reflexivity.
  vm_compute in F. discriminate.
Qed.

(* ------------------------------------------------------------------ *)
(** ** The invariant of the running server *)

Lemma nth_error_replace_nth {A : Type} (l : list A) (i j : nat) (x u : A) :
  nth_error (replace_nth i x l) j = Some u ->
  (j = i /\ u = x /\ exists y, nth_error l i = Some y)
  \/ (j <> i /\ nth_error l j = Some u).
Proof.
  revert i j. induction l as [|y r IH]; intros i j; simpl.
  - destruct i, j; simpl; discriminate.
  - destruct i as [|i]; destruct j as [|j]; simpl.
    + intros [= <-]. left. eauto.
    + intros H. right. split; [discriminate | exact H].
    + intros H. right. split; [discriminate | exact H].
    + intros H. destruct (IH _ _ H) as [(-> & -> & E)|(N & E)]; [left | right]; auto.
Qed.

Lemma nth_error_snoc {A : Type} (l : list A) (x u : A) (j : nat) :
  nth_error (l ++ [x]) j = Some u ->
  (j = length l /\ u = x) \/ (j < length l /\ nth_error l j = Some u)%nat.
Proof.
  intros H. destruct (Nat.lt_ge_cases j (length l)) as [L|G].
  - right. split; [exact L|]. now rewrite nth_error_app1 in H.
  - rewrite nth_error_app2 in H by exact G.
    destruct (j - length l)%nat as [|n] eqn:E; simpl in H.
    + injection H as <-. left. split; [lia | reflexivity].
    + destruct n; discriminate.
Qed.

Lemma keys_set_present {V : Type} (m : list (string * V)) k v d :
  JsMap.get m k = Some d -> map fst (JsMap.set m k v) = map fst m.
Proof.
  induction m as [|[k' v'] r IH]; simpl; [discriminate|].
  destruct (String.eqb k' k) eqn:E; simpl.
  - intros _. apply String.eqb_eq in E. now subst.
  - intros H. now rewrite IH.
Qed.

Lemma keys_set_absent {V : Type} (m : list (string * V)) k v :
  JsMap.get m k = None -> map fst (JsMap.set m k v) = (map fst m ++ [k])%list.
Proof.
  induction m as [|[k' v'] r IH]; simpl; [reflexivity|].
  destruct (String.eqb k' k) eqn:E; simpl; [discriminate|].
  intros H. now rewrite IH.
Qed.

Lemma get_None_notin {V : Type} (m : list (string * V)) k :
  JsMap.get m k = None -> ~ In k (map fst m).
Proof.
  induction m as [|[k' v'] r IH]; simpl; [tauto|].
  destruct (String.eqb k' k) eqn:E; [discriminate|].
  intros H [->|Hin]; [now rewrite String.eqb_refl in E | now apply IH].
Qed.

Lemma In_nodup_get {V : Type} (m : list (string * V)) k v :
  NoDup (map fst m) -> In (k, v) m -> JsMap.get m k = Some v.
Proof.
  induction m as [|[k' v'] r IH]; simpl; [tauto|].
  intros ND [[= -> ->]|Hin].
  - now rewrite String.eqb_refl.
  - inversion ND as [|? ? Hn ND']; subst.
    destruct (String.eqb k' k) eqn:E.
    + apply String.eqb_eq in E. subst k'. exfalso. apply Hn.
      change k with (fst (k, v)). now apply in_map.
    + now apply IH.
Qed.

Lemma find_In {A : Type} (p : A -> bool) (l : list A) (x : A) :
  find p l = Some x -> In x l /\ p x = true.
Proof. apply find_some. Qed.

(** The entry a lookup returns is the record the registry holds under
    the returned key. *)
Lemma getDownloadProgress_entry_get id m key d :
  NoDup (map fst m) ->
  getDownloadProgress_entry id m = Some (key, d) ->
  JsMap.get m key = Some d.
Proof.
  intros ND. unfold getDownloadProgress_entry.
  destruct (JsMap.get m id) eqn:G.
  - intros [= <- <-]. exact G.
  - rewrite !first_entry_find.
    destruct (find _ m) as [e|] eqn:F1.
    + intros [= ->]. apply find_In in F1. now apply In_nodup_get.
    + intros F2. apply find_In in F2. now apply In_nodup_get.
Qed.

Lemma ctl_ok_ext t d d' :
  status d' = status d -> filePath d' = filePath d -> ctl_ok t d -> ctl_ok t d'.
Proof.
  unfold ctl_ok, in_flight_status. intros -> ->. auto.
Qed.

(** A record replaced under its key: the invariant survives when the
    jobs that own the key accept the new record. *)
Lemma Inv_on_set m ts key d d' :
  Inv_on m ts ->
  JsMap.get m key = Some d ->
  (forall i t, nth_error ts i = Some t -> downloadId t = key ->
               ctl_ok t d -> ctl_ok t d') ->
  record_ok d' ->
  Inv_on (JsMap.set m key d') ts.
Proof.
  intros (ND & TK & UQ & CO) G Hc Hd. split; [|split; [|split]].
  - now rewrite (keys_set_present m key d' d).
  - intros i t Hi. destruct (TK i t Hi) as (d0 & G0 & C0).
    destruct (String.eqb_spec key (downloadId t)) as [E|N].
    + subst key. rewrite get_set_same. exists d'. split; [reflexivity|].
      rewrite G in G0. injection G0 as <-. now apply (Hc i).
    + exists d0. rewrite get_set_other by exact N. auto.
  - exact UQ.
  - intros k d0. destruct (String.eqb_spec key k) as [E|N].
    + subst k. rewrite get_set_same. now intros [= <-].
    + rewrite get_set_other by exact N. apply CO.
Qed.

(** A job moved on together with its record. *)
Lemma Inv_on_task m ts i t t' d d' :
  Inv_on m ts ->
  nth_error ts i = Some t ->
  JsMap.get m (downloadId t) = Some d ->
  downloadId t' = downloadId t ->
  ctl_ok t' d' ->
  record_ok d' ->
  Inv_on (JsMap.set m (downloadId t) d') (replace_nth i t' ts).
Proof.
  intros (ND & TK & UQ & CO) Hi G Hid Hc Hd. split; [|split; [|split]].
  - now rewrite (keys_set_present m _ d' d).
  - intros j u Hj.
    destruct (nth_error_replace_nth _ _ _ _ _ Hj) as [(-> & -> & _)|(N & Hj')].
    + rewrite Hid, get_set_same. eauto.
    + destruct (TK j u Hj') as (d0 & G0 & C0).
      exists d0. split; [|exact C0].
      rewrite get_set_other; [exact G0|].
      intros E. apply N. symmetry. now apply (UQ i j t u).
  - intros j1 j2 u1 u2 H1 H2 E.
    destruct (nth_error_replace_nth _ _ _ _ _ H1) as [(-> & -> & _)|(N1 & H1')];
      destruct (nth_error_replace_nth _ _ _ _ _ H2) as [(-> & -> & _)|(N2 & H2')].
    + reflexivity.
    + rewrite Hid in E. exact (UQ _ _ _ _ Hi H2' E).
    + rewrite Hid in E. exact (UQ _ _ _ _ H1' Hi E).
    + exact (UQ _ _ _ _ H1' H2' E).
  - intros k d0. destruct (String.eqb_spec (downloadId t) k) as [E|N].
    + rewrite <- E, get_set_same. now intros [= <-].
    + rewrite get_set_other by exact N. apply CO.
Qed.

(** A job moved on, its record as it was. *)
Lemma Inv_on_task_only m ts i t t' d :
  Inv_on m ts ->
  nth_error ts i = Some t ->
  JsMap.get m (downloadId t) = Some d ->
  downloadId t' = downloadId t ->
  ctl_ok t' d ->
  Inv_on m (replace_nth i t' ts).
Proof.
  intros (ND & TK & UQ & CO) Hi G Hid Hc. split; [|split; [|split]]; auto.
  - intros j u Hj.
    destruct (nth_error_replace_nth _ _ _ _ _ Hj) as [(-> & -> & _)|(N & Hj')].
    + rewrite Hid. eauto.
    + eauto.
  - intros j1 j2 u1 u2 H1 H2 E.
    destruct (nth_error_replace_nth _ _ _ _ _ H1) as [(-> & -> & _)|(N1 & H1')];
      destruct (nth_error_replace_nth _ _ _ _ _ H2) as [(-> & -> & _)|(N2 & H2')].
    + reflexivity.
    + rewrite Hid in E. exact (UQ _ _ _ _ Hi H2' E).
    + rewrite Hid in E. exact (UQ _ _ _ _ H1' Hi E).
    + exact (UQ _ _ _ _ H1' H2' E).
Qed.

(** A new job under a key the registry did not have. *)
Lemma Inv_on_new m ts t :
  Inv_on m ts ->
  JsMap.get m (downloadId t) = None ->
  ctl t = AwaitTitle -> proc t = NotStarted ->
  Inv_on (JsMap.set m (downloadId t) (new_download (taskVideoId t))) (ts ++ [t]).
Proof.
  intros (ND & TK & UQ & CO) G Hc Hp. split; [|split; [|split]].
  - rewrite keys_set_absent by exact G.
    apply NoDup_app; [exact ND | repeat constructor; simpl; tauto |].
    intros k Hk [<-|[]]. exact (get_None_notin m _ G Hk).
  - intros j u Hj. destruct (nth_error_snoc _ _ _ _ Hj) as [(-> & ->)|(L & Hj')].
    + rewrite get_set_same. eexists. split; [reflexivity|].
      unfold ctl_ok. rewrite Hc. simpl. auto.
    + destruct (TK j u Hj') as (d0 & G0 & C0). exists d0. split; [|exact C0].
      rewrite get_set_other; [exact G0|]. intros E. rewrite E in G. congruence.
  - intros j1 j2 u1 u2 H1 H2 E.
    destruct (nth_error_snoc _ _ _ _ H1) as [(-> & ->)|(L1 & H1')];
      destruct (nth_error_snoc _ _ _ _ H2) as [(-> & ->)|(L2 & H2')].
    + reflexivity.
    + destruct (TK _ _ H2') as (d0 & G0 & _). rewrite <- E in G0. congruence.
    + destruct (TK _ _ H1') as (d0 & G0 & _). rewrite E in G0. congruence.
    + exact (UQ _ _ _ _ H1' H2' E).
  - intros k d0. destruct (String.eqb_spec (downloadId t) k) as [E|N].
    + rewrite <- E, get_set_same. intros [= <-].
      split; [unfold completed_ok; simpl; discriminate | reflexivity].
    + rewrite get_set_other by exact N. apply CO.
Qed.

Lemma update_get {V : Type} (m : list (string * V)) k (f : V -> V) d :
  JsMap.get m k = Some d -> JsMap.update m k f = JsMap.set m k (f d).
Proof. unfold JsMap.update. now intros ->. Qed.

Lemma fail_task_Inv s i t t' msg d :
  Inv s ->
  nth_error (tasks s) i = Some t ->
  JsMap.get (activeDownloads s) (downloadId t) = Some d ->
  downloadId t' = downloadId t ->
  proc t' <> Running ->
  Inv (fail_task i t' msg s).
Proof.
  intros HI Hi G Hid Hp. unfold Inv, fail_task. simpl.
  rewrite Hid, (update_get _ _ _ d G).
  apply (Inv_on_task _ _ i t _ d _ HI Hi G); auto.
  - unfold ctl_ok. simpl. auto.
  - split; [unfold completed_ok|]; simpl; discriminate.
Qed.

Lemma attempt_failed_Inv s i t t' n dl msg d :
  Inv s ->
  nth_error (tasks s) i = Some t ->
  JsMap.get (activeDownloads s) (downloadId t) = Some d ->
  in_flight_status d -> JS.truthy (filePath d) = true ->
  downloadId t' = downloadId t ->
  proc t' = Killed \/ proc t' = Closed ->
  Inv (attempt_failed i t' n dl msg s).
Proof.
  intros HI Hi G Hs Hf Hid Hp. unfold attempt_failed.
  destruct (S n <? maxRetries)%nat.
  - unfold Inv. simpl. apply (Inv_on_task_only _ _ i t _ d HI Hi G); auto.
    unfold ctl_ok. simpl. auto.
  - apply (fail_task_Inv s i t t' msg d); auto.
    destruct Hp as [-> | ->]; discriminate.
Qed.

Lemma on_stdout_status o d : status (on_stdout o d) = status d.
Proof.
  unfold on_stdout.
  destruct (Regex.search Regex.progress_re o) as [[text|]|];
    destruct (JS.includes o "[Merger]"); reflexivity.
Qed.

Lemma on_stdout_filePath o d : filePath (on_stdout o d) = filePath d.
Proof.
  unfold on_stdout.
  destruct (Regex.search Regex.progress_re o) as [[text|]|];
    destruct (JS.includes o "[Merger]"); reflexivity.
Qed.

Lemma task_step_Inv e s i t :
  Inv s -> nth_error (tasks s) i = Some t -> Inv (task_step e i t s).
Proof.
  intros HI Hi.
  destruct (proj1 (proj2 HI) i t Hi) as (d & G & C).
  unfold ctl_ok in C.
  destruct e; try exact HI; unfold task_step.
  - (* TitleDone *)
    destruct result as [out|msg]; destruct (ctl t) eqn:Ec; try exact HI.
    + destruct C as (Cs & Cf & Cp).
      unfold title_resolved, Inv. simpl.
      rewrite (update_get _ _ _ d G).
      rewrite (update_get _ _ _ (with_title (sanitize_title out)
                 ("Starting download: " ++ sanitize_title out) d))
        by apply get_set_same.
      assert (I1 : Inv_on (JsMap.set (activeDownloads s) (downloadId t)
                     (with_title (sanitize_title out)
                        ("Starting download: " ++ sanitize_title out) d)) (tasks s)).
      { apply (Inv_on_set _ _ _ d _ HI G).
        - intros j u _ _. now apply ctl_ok_ext.
        - split; [unfold completed_ok|]; simpl; rewrite Cs; [discriminate | auto]. }
      match goal with
      | |- Inv_on (JsMap.set (JsMap.set ?m ?k ?d1) _ ?d') (replace_nth i ?t' _) =>
          apply (Inv_on_task (JsMap.set m k d1) (tasks s) i t t' d1 d' I1 Hi)
      end.
      * apply get_set_same.
      * reflexivity.
      * unfold ctl_ok, in_flight_status. simpl. repeat split; auto. discriminate.
      * split; [unfold completed_ok|]; simpl; discriminate.
    + destruct C as (Cs & Cf & Cp).
      apply (fail_task_Inv s i t t msg d); auto. rewrite Cp. discriminate.
  - (* Stdout *)
    destruct (alive (proc t)) eqn:Ea;
      [|destruct (ctl t); exact HI].
    assert (Inv (update_record (downloadId t) (on_stdout output) s)) as R.
    { unfold Inv, update_record. simpl. rewrite (update_get _ _ _ d G).
      apply (Inv_on_set _ _ _ d _ HI G).
      - intros j u _ _. apply ctl_ok_ext; [apply on_stdout_status | apply on_stdout_filePath].
      - split; [unfold completed_ok|];
          rewrite on_stdout_status, ?on_stdout_filePath.
        + intros Hc. exfalso. unfold in_flight_status in C.
          destruct (ctl t); destruct (proc t); simpl in Ea; try discriminate;
            intuition congruence.
        + apply (proj2 (proj2 (proj2 HI)) _ _ G). }
    destruct (stdout_throws output); destruct (ctl t); first [exact R | exact HI].
  - (* Stderr *)
    destruct (alive (proc t) && fatal_stderr text); destruct (ctl t); exact HI.
  - (* Close *)
    assert (R : Inv (if alive (proc t)
                     then
                       let code' := match proc t with Killed => None | _ => code end in
                       let t' := with_proc Closed t in
                       match ctl t with
                       | AwaitClose retryCount retryDelay =>
                           match code' with
                           | Some 0%Z => set_task i (with_ctl Verifying t') s
                           | _ => attempt_failed i t' retryCount retryDelay
                                    ("Download failed with code " ++ JS.string_of_code code') s
                           end
                       | _ => set_task i t' s
                       end
                     else s)).
    { destruct (alive (proc t)) eqn:Ea; [|exact HI]. cbv zeta.
      destruct (ctl t) eqn:Ec.
      - destruct C as (_ & _ & Cp). rewrite Cp in Ea. discriminate.
      - destruct C as (Cs & Cf & Cp).
        assert (Fail : forall m, Inv (attempt_failed i (with_proc Closed t)
                                        retryCount retryDelay m s)).
        { intros m. apply (attempt_failed_Inv s i t _ _ _ _ d); auto. }
        assert (Ver : Inv (set_task i (with_ctl Verifying (with_proc Closed t)) s)).
        { unfold Inv. simpl. apply (Inv_on_task_only _ _ i t _ d HI Hi G); auto.
          unfold ctl_ok. simpl. auto. }
        destruct (proc t); try apply Fail;
          destruct code as [[| |]|]; solve [apply Fail | exact Ver].
      - destruct C as (_ & _ & Cp). rewrite Cp in Ea. discriminate.
      - unfold Inv. simpl. apply (Inv_on_task_only _ _ i t _ d HI Hi G); auto.
        unfold ctl_ok. simpl. rewrite Ec. intuition.
      - destruct C as (_ & _ & Cp). rewrite Cp in Ea. discriminate.
      - unfold Inv. simpl. apply (Inv_on_task_only _ _ i t _ d HI Hi G); auto.
        unfold ctl_ok. simpl. rewrite Ec. intuition discriminate. }
    destruct (ctl t); exact R.
  - (* ProcError *)
    destruct (ctl t) eqn:Ec; try exact HI.
    destruct (proc t) eqn:Ep; try exact HI.
    destruct C as (Cs & Cf & Cp).
    apply (attempt_failed_Inv s i t _ _ _ _ d); auto.
  - (* TimeoutFired *)
    destruct (ctl t) eqn:Ec; try exact HI.
    destruct C as (Cs & Cf & Cp).
    apply (attempt_failed_Inv (emit (Kill i) s) i t _ _ _ _ d); auto.
    + destruct (proc t); reflexivity.
    + destruct (proc t) eqn:Ep; simpl; rewrite ?Ep; auto. contradiction.
  - (* DelayElapsed *)
    destruct (ctl t) eqn:Ec; try exact HI.
    destruct C as (Cs & Cf & Cp).
    unfold Inv. simpl. apply (Inv_on_task_only _ _ i t _ d HI Hi G); auto.
    unfold ctl_ok. simpl. repeat split; auto.
    destruct Cp as [-> | ->]; discriminate.
  - (* QualityVerified *)
    destruct (ctl t) eqn:Ec; try exact HI.
    destruct C as (Cs & Cf & Cp).
    unfold quality_verified, Inv. simpl. rewrite (update_get _ _ _ d G).
    apply (Inv_on_task _ _ i t _ d _ HI Hi G); auto.
    + unfold ctl_ok. simpl. auto.
    + split; [unfold completed_ok; simpl; auto | simpl; discriminate].
Qed.

Lemma status_eqb_eq a b : status_eqb a b = true <-> a = b.
Proof. destruct a, b; simpl; split; intros H; congruence. Qed.

Lemma requeue_ctl_ok t d :
  JS.truthy (filePath d) = true -> ctl_ok t d -> ctl_ok t (requeue d).
Proof.
  unfold ctl_ok, in_flight_status. intros Hf.
  destruct (ctl t); simpl; intuition.
  rewrite H in Hf. discriminate.
Qed.

Lemma requeue_Inv s key d :
  Inv s ->
  JsMap.get (activeDownloads s) key = Some d ->
  JS.truthy (filePath d) = true ->
  Inv_on (JsMap.set (activeDownloads s) key (requeue d)) (tasks s).
Proof.
  intros HI G Hf. apply (Inv_on_set _ _ _ d _ HI G).
  - intros i t _ _. now apply requeue_ctl_ok.
  - split; [unfold completed_ok|]; simpl; discriminate.
Qed.

Lemma checkFileHandler_Inv id s : Inv s -> Inv (checkFileHandler id s).
Proof.
  intros HI. unfold checkFileHandler.
  destruct (String.eqb id ""); [exact HI|].
  destruct (getDownloadProgress_entry id (activeDownloads s)) as [[key d]|] eqn:E;
    [|exact HI].
  destruct (negb (status_eqb (status d) completed)); [exact HI|].
  destruct (JS.truthy (filePath d)) eqn:Hf; [|exact HI]. simpl negb.
  destruct (negb (Fs.existsSync (disk s) (JS.or_else (filePath d) ""))); [|exact HI].
  unfold Inv. simpl. apply requeue_Inv; auto.
  apply (getDownloadProgress_entry_get id); [apply HI | exact E].
Qed.

Lemma serveFileHandler_Inv id sent s : Inv s -> Inv (serveFileHandler id sent s).
Proof.
  intros HI. unfold serveFileHandler.
  destruct (String.eqb id ""); [exact HI|].
  destruct (getDownloadProgress_entry id (activeDownloads s)) as [[key d]|] eqn:E;
    [|exact HI].
  destruct (JS.truthy (filePath d)) eqn:Hf; [|exact HI]. simpl negb.
  destruct (negb (Fs.existsSync (disk s) (JS.or_else (filePath d) ""))); [|exact HI].
  unfold Inv. simpl. apply requeue_Inv; auto.
  apply (getDownloadProgress_entry_get id); [apply HI | exact E].
Qed.

Lemma getDownloadFilePath_downloads id m d :
  (forall k r, JsMap.get m k = Some r -> record_ok r) ->
  snd (fst (getDownloadFilePath id m d)) = m.
Proof.
  intros CO. unfold getDownloadFilePath.
  destruct (JsMap.get m id) as [r|] eqn:G; [|reflexivity].
  destruct (status_eqb (status r) completed) eqn:Es; [|reflexivity]. simpl negb.
  destruct (JS.truthy (filePath r)) eqn:Hf; [reflexivity|].
  apply status_eqb_eq in Es. destruct (proj1 (CO _ _ G) Es) as [_ T]. congruence.
Qed.

Lemma downloadFromUrl_enter_created url pl t1 t2 m id vid m' :
  downloadFromUrl_enter url pl t1 t2 m = (Created id vid, m') ->
  m' = JsMap.set m id (new_download vid).
Proof.
  unfold downloadFromUrl_enter.
  destruct (find is_completed_download _); [discriminate|].
  destruct (find is_in_progress _); [discriminate|].
  now intros [= <- <- <-].
Qed.

Lemma downloadHandler_Inv u q pl t1 t2 s :
  Inv s ->
  fresh_event (PostDownload u q pl t1 t2) s = true ->
  Inv (downloadHandler u q pl t1 t2 s).
Proof.
  intros HI Hf. unfold downloadHandler. simpl in Hf.
  destruct (String.eqb u ""); [exact HI|]. simpl.
  destruct (downloadFromUrl_enter u pl t1 t2 (activeDownloads s)) as [[id|id vid] m'] eqn:E.
  - exact HI.
  - apply downloadFromUrl_enter_created in E. subst m'.
    apply negb_true_iff, has_false_get in Hf.
    unfold Inv. simpl.
    match goal with
    | |- Inv_on _ (_ ++ [?t])%list => apply (Inv_on_new _ _ t HI Hf); reflexivity
    end.
Qed.

(** Every event of a run that hands out fresh job ids keeps the
    invariant. *)
Lemma step_Inv e s : Inv s -> fresh_event e s = true -> Inv (step e s).
Proof.
  intros HI Hf. unfold step. destruct (crashed s); [exact HI|].
  destruct e; cbv beta iota delta [task_of];
    try (destruct (nth_error (tasks s) task) as [t|] eqn:Hi;
         [apply task_step_Inv; assumption | exact HI]).
  - now apply downloadHandler_Inv.
  - now apply checkFileHandler_Inv.
  - now apply serveFileHandler_Inv.
  - unfold Inv. rewrite deleteDownloadHandler_activeDownloads.
    unfold deleteDownloadHandler.
    destruct (String.eqb id ""); [exact HI|].
    destruct (matchingDownloads id (activeDownloads s)); exact HI.
  - unfold statusHandler. destruct (getDownloadProgress id (activeDownloads s)); exact HI.
  - unfold progressHandler. destruct (String.eqb id ""); [exact HI|].
    destruct (getDownloadProgress id (activeDownloads s)); exact HI.
  - exact HI.
  - pose proof (getDownloadFilePath_downloads id (activeDownloads s) (disk s)
                  (proj2 (proj2 (proj2 HI)))) as E.
    destruct (getDownloadFilePath id (activeDownloads s) (disk s)) as [[o m] d].
    simpl in E. subst m. exact HI.
  - exact HI.
  - exact HI.
Qed.

Lemma Inv_initial : Inv initial.
Proof.
  split; [constructor|]. split; [|split].
  - intros [|i] t; discriminate.
  - intros [|i] j t u; discriminate.
  - intros k d; discriminate.
Qed.

Lemma run_Inv es s : Inv s -> fresh_run es s = true -> Inv (run es s).
Proof.
  revert s. induction es as [|e r IH]; intros s HI Hf; [exact HI|].
  simpl in Hf. apply andb_true_iff in Hf. destruct Hf as [He Hr].
  simpl. apply IH; [now apply step_Inv | exact Hr].
Qed.

(* ------------------------------------------------------------------ *)
(** ** What one event does to one record *)

Lemma get_set_cases {V : Type} (m : list (string * V)) key x k v :
  JsMap.get (JsMap.set m key x) k = Some v ->
  (k = key /\ v = x) \/ (k <> key /\ JsMap.get m k = Some v).
Proof.
  destruct (String.eqb_spec key k) as [E|N].
  - subst. rewrite get_set_same. intros [= <-]. now left.
  - rewrite get_set_other by exact N. right. split; congruence.
Qed.

Lemma attempt_failed_record_change s i t t' n dl msg k d d' e :
  nth_error (tasks s) i = Some t ->
  ctl t = AwaitClose n dl ->
  JsMap.get (activeDownloads s) (downloadId t) = Some d ->
  downloadId t' = downloadId t ->
  (exists c, e = Close i c) \/ (exists m, e = ProcError i m) \/ e = TimeoutFired i ->
  JsMap.get (activeDownloads (attempt_failed i t' n dl msg s)) k = Some d' ->
  JsMap.get (activeDownloads s) k = Some d'
  \/ RecordChange s k e (JsMap.get (activeDownloads s) k) d'.
Proof.
  intros Hi Ec G Hid He. unfold attempt_failed.
  destruct (S n <? maxRetries)%nat eqn:R; simpl; [now left|].
  rewrite Hid, (update_get _ _ _ d G). intros H.
  destruct (get_set_cases _ _ _ _ _ H) as [(-> & ->)|(_ & H')]; [right | now left].
  rewrite G. now apply (RcRetriesError s _ e i t n dl).
Qed.

Lemma task_step_record_change e s i t k d' :
  Inv s ->
  nth_error (tasks s) i = Some t ->
  task_of e = Some i ->
  JsMap.get (activeDownloads (task_step e i t s)) k = Some d' ->
  JsMap.get (activeDownloads s) k = Some d'
  \/ RecordChange s k e (JsMap.get (activeDownloads s) k) d'.
Proof.
  intros HI Hi He.
  destruct (proj1 (proj2 HI) i t Hi) as (d & G & C).
  destruct e; try discriminate; injection He as ->; unfold task_step.
  - (* TitleDone *)
    destruct result as [out|msg]; destruct (ctl t) eqn:Ec; auto.
    + unfold title_resolved. simpl.
      rewrite (update_get _ _ _ d G).
      rewrite (update_get _ _ _ (with_title (sanitize_title out)
                 ("Starting download: " ++ sanitize_title out) d))
        by apply get_set_same.
      intros H. destruct (get_set_cases _ _ _ _ _ H) as [(-> & ->)|(N & H')].
      * right. rewrite G. now apply (RcTitle s _ i t).
      * left. apply get_set_cases in H'. destruct H' as [(E & _)|(_ & H')];
          [contradiction | exact H'].
    + unfold fail_task. simpl. rewrite (update_get _ _ _ d G). intros H.
      destruct (get_set_cases _ _ _ _ _ H) as [(-> & ->)|(_ & H')]; [right | now left].
      rewrite G. now apply (RcTitleError s _ i t).
  - (* Stdout *)
    assert (R : JsMap.get (activeDownloads
                  (if alive (proc t)
                   then if stdout_throws output then crash s
                        else update_record (downloadId t) (on_stdout output) s
                   else s)) k
                = Some d' ->
                JsMap.get (activeDownloads s) k = Some d'
                \/ RecordChange s k (Stdout i output) (JsMap.get (activeDownloads s) k) d').
    { destruct (alive (proc t)) eqn:Ea; [|now left].
      destruct (stdout_throws output); [now left|].
      simpl. rewrite (update_get _ _ _ d G). intros H.
      destruct (get_set_cases _ _ _ _ _ H) as [(-> & ->)|(_ & H')]; [right | now left].
      rewrite G. now apply (RcStdout s _ i t). }
    destruct (ctl t); exact R.
  - (* Stderr *)
    destruct (alive (proc t) && fatal_stderr text); destruct (ctl t); auto.
  - (* Close *)
    destruct (alive (proc t)); [|destruct (ctl t); auto]. cbv zeta.
    destruct (ctl t) eqn:Ec; simpl; auto.
    assert (F : forall m, JsMap.get (activeDownloads
                  (attempt_failed i (with_proc Closed t) retryCount retryDelay m s)) k
                = Some d' ->
                JsMap.get (activeDownloads s) k = Some d'
                \/ RecordChange s k (Close i code) (JsMap.get (activeDownloads s) k) d').
    { intros m. apply (attempt_failed_record_change s i t _ _ _ _ _ d); eauto. }
    destruct (proc t); try apply F; destruct code as [[| |]|]; solve [apply F | simpl; auto].
  - (* ProcError *)
    destruct (ctl t) eqn:Ec; auto.
    destruct (proc t); auto.
    apply (attempt_failed_record_change s i t _ _ _ _ _ d); eauto.
  - (* TimeoutFired *)
    destruct (ctl t) eqn:Ec; auto.
    intros H.
    apply (attempt_failed_record_change (emit (Kill i) s) i t _ _ _ _ _ d d'
             (TimeoutFired i)) in H; auto.
    + destruct H as [H|H]; [now left | right].
      simpl in H. inversion H; subst; try discriminate.
      eapply RcRetriesError; eauto.
    + destruct (proc t); reflexivity.
  - (* DelayElapsed *)
    destruct (ctl t); simpl; auto.
  - (* QualityVerified *)
    destruct (ctl t) eqn:Ec; auto.
    unfold quality_verified. simpl. rewrite (update_get _ _ _ d G). intros H.
    destruct (get_set_cases _ _ _ _ _ H) as [(-> & ->)|(_ & H')]; [right | now left].
    rewrite G. now apply (RcVerified s _ i t).
Qed.

Lemma negb_false_true b : negb b = false -> b = true.
Proof. now destruct b. Qed.

Lemma step_record_change e s k d' :
  Inv s ->
  fresh_event e s = true ->
  JsMap.get (activeDownloads (step e s)) k = Some d' ->
  JsMap.get (activeDownloads s) k = Some d'
  \/ RecordChange s k e (JsMap.get (activeDownloads s) k) d'.
Proof.
  intros HI Hf. unfold step. destruct (crashed s); [now left|].
  destruct e; cbv beta iota delta [task_of];
    try (destruct (nth_error (tasks s) task) as [t|] eqn:Hi;
         [now apply task_step_record_change | now left]).
  - (* PostDownload *)
    unfold downloadHandler. simpl in Hf.
    destruct (String.eqb reqUrl ""); [now left|]. simpl.
    destruct (downloadFromUrl_enter reqUrl reqPlaylist tExtract tId (activeDownloads s))
      as [[id|id vid] m'] eqn:E; [now left|].
    apply downloadFromUrl_enter_created in E. subst m'. simpl.
    apply negb_true_iff, has_false_get in Hf. intros H.
    destruct (get_set_cases _ _ _ _ _ H) as [(-> & ->)|(_ & H')]; [right | now left].
    rewrite Hf. constructor.
  - (* GetCheck *)
    unfold checkFileHandler.
    destruct (String.eqb id ""); [now left|].
    destruct (getDownloadProgress_entry id (activeDownloads s)) as [[key d]|] eqn:E;
      [|now left].
    destruct (negb (status_eqb (status d) completed)) eqn:Es; [now left|].
    destruct (JS.truthy (filePath d)) eqn:Ht; [|now left]. simpl negb.
    destruct (negb (Fs.existsSync (disk s) (JS.or_else (filePath d) ""))) eqn:Ex;
      [|now left].
    simpl. intros H.
    destruct (get_set_cases _ _ _ _ _ H) as [(-> & ->)|(_ & H')]; [right | now left].
    rewrite (getDownloadProgress_entry_get id _ _ _ (proj1 HI) E).
    apply RcCheck; auto.
    + apply status_eqb_eq. now apply negb_false_true.
    + now apply negb_true_iff.
  - (* GetFile *)
    unfold serveFileHandler.
    destruct (String.eqb id "") eqn:Eid; [now left|].
    destruct (getDownloadProgress_entry id (activeDownloads s)) as [[key d]|] eqn:E;
      [|now left].
    destruct (JS.truthy (filePath d)) eqn:Ht; [|now left]. simpl negb.
    destruct (negb (Fs.existsSync (disk s) (JS.or_else (filePath d) ""))) eqn:Ex;
      [|now left].
    simpl. intros H.
    destruct (get_set_cases _ _ _ _ _ H) as [(-> & ->)|(_ & H')]; [right | now left].
    rewrite (getDownloadProgress_entry_get id _ _ _ (proj1 HI) E).
    apply RcServe; auto. now apply negb_true_iff.
  - rewrite deleteDownloadHandler_activeDownloads. now left.
  - unfold statusHandler. destruct (getDownloadProgress id (activeDownloads s)); now left.
  - unfold progressHandler. destruct (String.eqb id ""); [now left|].
    destruct (getDownloadProgress id (activeDownloads s)); now left.
  - now left.
  - pose proof (getDownloadFilePath_downloads id (activeDownloads s) (disk s)
                  (proj2 (proj2 (proj2 HI)))) as E.
    destruct (getDownloadFilePath id (activeDownloads s) (disk s)) as [[o m] d].
    simpl in E. subst m. now left.
  - now left.
  - now left.
Qed.

(* ------------------------------------------------------------------ *)
(** ** Progress and completion *)

Lemma attempt_failed_not_verifying s i t' n dl msg j u :
  nth_error (tasks (attempt_failed i t' n dl msg s)) j = Some u ->
  ctl u = Verifying ->
  exists t0, nth_error (tasks s) j = Some t0 /\ ctl t0 = Verifying.
Proof.
  unfold attempt_failed, fail_task.
  destruct (S n <? maxRetries)%nat; simpl; intros H Hc;
    (destruct (nth_error_replace_nth _ _ _ _ _ H) as [(-> & -> & _)|(_ & H')];
     [discriminate | eauto]).
Qed.

Lemma task_step_verifying e i t s j u :
  nth_error (tasks s) i = Some t ->
  task_of e = Some i ->
  nth_error (tasks (task_step e i t s)) j = Some u ->
  ctl u = Verifying ->
  (exists t0, nth_error (tasks s) j = Some t0 /\ ctl t0 = Verifying)
  \/ (j = i /\ e = Close i (Some 0%Z)).
Proof.
  intros Hi He.
  destruct e; try discriminate; injection He as ->; unfold task_step.
  - destruct result as [out|msg]; destruct (ctl t) eqn:Ec; eauto;
      unfold title_resolved, fail_task; simpl; intros H Hc;
      (destruct (nth_error_replace_nth _ _ _ _ _ H) as [(-> & -> & _)|(_ & H')];
       [discriminate | eauto]).
  - destruct (alive (proc t)); destruct (stdout_throws output);
      destruct (ctl t); simpl; eauto.
  - destruct (alive (proc t) && fatal_stderr text); destruct (ctl t); simpl; eauto.
  - destruct (alive (proc t)); [|destruct (ctl t); eauto]. cbv zeta.
    destruct (ctl t) eqn:Ec;
      try (simpl; intros H Hc;
           destruct (nth_error_replace_nth _ _ _ _ _ H) as [(-> & -> & _)|(_ & H')];
           [simpl in Hc; left; exists t; split; congruence | eauto]).
    assert (F : forall m, nth_error (tasks
                  (attempt_failed i (with_proc Closed t) retryCount retryDelay m s)) j
                = Some u -> ctl u = Verifying ->
                (exists t0, nth_error (tasks s) j = Some t0 /\ ctl t0 = Verifying)
                \/ (j = i /\ Close i code = Close i (Some 0%Z))).
    { intros m H Hc. left. eapply attempt_failed_not_verifying; eauto. }
    destruct (proc t); try apply F;
      (destruct code as [[| |]|]; try apply F; simpl; intros H Hc;
       destruct (nth_error_replace_nth _ _ _ _ _ H) as [(-> & -> & _)|(_ & H')];
       eauto).
  - destruct (ctl t); eauto. destruct (proc t); eauto.
    intros H Hc. left. eapply attempt_failed_not_verifying; eauto.
  - destruct (ctl t); eauto.
    intros H Hc. left.
    destruct (attempt_failed_not_verifying _ _ _ _ _ _ _ _ H Hc) as (t0 & H0 & C0).
    eauto.
  - destruct (ctl t); eauto. simpl. intros H Hc.
    destruct (nth_error_replace_nth _ _ _ _ _ H) as [(-> & -> & _)|(_ & H')];
      [discriminate | eauto].
  - destruct (ctl t); eauto. unfold quality_verified. simpl. intros H Hc.
    destruct (nth_error_replace_nth _ _ _ _ _ H) as [(-> & -> & _)|(_ & H')];
      [discriminate | eauto].
Qed.

Lemma task_step_verifying_event e i t s j u :
  nth_error (tasks s) i = Some t ->
  task_of e = Some i ->
  nth_error (tasks (task_step e i t s)) j = Some u ->
  ctl u = Verifying ->
  (exists t0, nth_error (tasks s) j = Some t0 /\ ctl t0 = Verifying)
  \/ e = Close j (Some 0%Z).
Proof.
  intros Hi He H Hc.
  destruct (task_step_verifying _ _ _ _ _ _ Hi He H Hc) as [L|(-> & R)];
    [now left | now right].
Qed.

Lemma checkFileHandler_tasks id s : tasks (checkFileHandler id s) = tasks s.
Proof.
  unfold checkFileHandler.
  destruct (String.eqb id ""); [reflexivity|].
  destruct (getDownloadProgress_entry id (activeDownloads s)) as [[key d]|]; [|reflexivity].
  destruct (negb (status_eqb (status d) completed)); [reflexivity|].
  destruct (negb (JS.truthy (filePath d))); [reflexivity|].
  destruct (negb (Fs.existsSync (disk s) (JS.or_else (filePath d) ""))); reflexivity.
Qed.

Lemma serveFileHandler_tasks id sent s : tasks (serveFileHandler id sent s) = tasks s.
Proof.
  unfold serveFileHandler.
  destruct (String.eqb id ""); [reflexivity|].
  destruct (getDownloadProgress_entry id (activeDownloads s)) as [[key d]|]; [|reflexivity].
  destruct (negb (JS.truthy (filePath d))); [reflexivity|].
  destruct (negb (Fs.existsSync (disk s) (JS.or_else (filePath d) ""))); reflexivity.
Qed.

Lemma deleteDownloadHandler_tasks id s : tasks (deleteDownloadHandler id s) = tasks s.
Proof.
  unfold deleteDownloadHandler.
  destruct (String.eqb id ""); [reflexivity|].
  destruct (matchingDownloads id (activeDownloads s)); reflexivity.
Qed.

(** The verification of a download starts only when its subprocess
    closes with exit code 0. *)
Lemma step_enters_verifying e s j u :
  nth_error (tasks (step e s)) j = Some u ->
  ctl u = Verifying ->
  (exists t0, nth_error (tasks s) j = Some t0 /\ ctl t0 = Verifying)
  \/ e = Close j (Some 0%Z).
Proof.
  unfold step. destruct (crashed s); [eauto|].
  destruct e; cbv beta iota delta [task_of];
    try (destruct (nth_error (tasks s) task) as [t|] eqn:Hi; [|eauto];
         intros H Hc;
         eapply task_step_verifying_event; [exact Hi | reflexivity | exact H | exact Hc]).
  - unfold downloadHandler. destruct (String.eqb reqUrl ""); [eauto|]. simpl.
    destruct (downloadFromUrl_enter _ _ _ _ _) as [[id|id vid] m']; [eauto|].
    simpl. intros H Hc.
    destruct (nth_error_snoc _ _ _ _ H) as [(_ & ->)|(_ & H')]; [discriminate | eauto].
  - rewrite checkFileHandler_tasks. eauto.
  - rewrite serveFileHandler_tasks. eauto.
  - rewrite deleteDownloadHandler_tasks. eauto.
  - unfold statusHandler. destruct (getDownloadProgress _ _); eauto.
  - unfold progressHandler. destruct (String.eqb id ""); [eauto|].
    destruct (getDownloadProgress _ _); eauto.
  - simpl. eauto.
  - destruct (getDownloadFilePath id (activeDownloads s) (disk s)) as [[o m] d].
    simpl. eauto.
  - simpl. eauto.
  - simpl. eauto.
Qed.

Lemma min99_le (x : Q) : (Num.min99 x <= inject_Z 99)%Q.
Proof. apply Q.le_min_r. Qed.

Lemma min99_not_100 (x : Q) : ~ (Num.min99 x == inject_Z 100)%Q.
Proof.
  intros E. pose proof (min99_le x) as L. rewrite E in L.
  revert L. apply Qlt_not_le. reflexivity.
Qed.

(** The stdout callback either finds a percentage and stores it capped
    at 99, or leaves the progress as it is. *)
Lemma on_stdout_progress o d :
  (exists text,
      Regex.search Regex.progress_re o = Some (Some text)
      /\ progress (on_stdout o d) = Num.min99 (Num.parseFloat text))
  \/ progress (on_stdout o d) = progress d.
Proof.
  unfold on_stdout.
  destruct (Regex.search Regex.progress_re o) as [[text|]|];
    destruct (JS.includes o "[Merger]"); simpl; eauto.
Qed.

Lemma record_change_to_100 s k e old d' :
  RecordChange s k e old d' ->
  (progress d' == inject_Z 100)%Q ->
  (exists d, old = Some d /\ (progress d == inject_Z 100)%Q)
  \/ (status d' = completed
      /\ exists i t actual,
          e = QualityVerified i actual
          /\ nth_error (tasks s) i = Some t
          /\ ctl t = Verifying
          /\ downloadId t = k).
Proof.
  intros H P. destruct H; simpl in P; try discriminate; eauto.
  - destruct (on_stdout_progress output d) as [(text & _ & E)|E]; rewrite E in P.
    + now apply min99_not_100 in P.
    + eauto.
  - right. split; [reflexivity|]. eauto 8.
Qed.

(** C6. A progress update derived from a parsed percentage line stores
    at most 99; along every run that hands out fresh job ids, a record's
    progress becomes 100 only in the step that sets its status to
    ['completed'], which is the end of the verification that starts when
    the subprocess closes with exit code 0; and whenever a record's
    status is ['completed'] its progress is 100 and its [filePath] is
    set. *)
Theorem progress_capped_until_completed :
  (forall (output text : string) (d : DownloadProgress),
      Regex.search Regex.progress_re output = Some (Some text) ->
      progress (on_stdout output d) = Num.min99 (Num.parseFloat text)
      /\ (progress (on_stdout output d) <= inject_Z 99)%Q)
  /\ (forall es : list Event,
         fresh_run es initial = true ->
         let s := run es initial in
         (forall k d,
             JsMap.get (activeDownloads s) k = Some d ->
             status d = completed ->
             progress d = inject_Z 100 /\ JS.truthy (filePath d) = true)
         /\ (forall e k d',
                fresh_event e s = true ->
                JsMap.get (activeDownloads (step e s)) k = Some d' ->
                (progress d' == inject_Z 100)%Q ->
                (exists d, JsMap.get (activeDownloads s) k = Some d
                           /\ (progress d == inject_Z 100)%Q)
                \/ (status d' = completed
                    /\ exists i t actual,
                        e = QualityVerified i actual
                        /\ nth_error (tasks s) i = Some t
                        /\ ctl t = Verifying
                        /\ downloadId t = k))
         /\ (forall e j u,
                nth_error (tasks (step e s)) j = Some u ->
                ctl u = Verifying ->
                (exists t0, nth_error (tasks s) j = Some t0 /\ ctl t0 = Verifying)
                \/ e = Close j (Some 0%Z))).
Proof.
  split.
  - intros output text d E.
    assert (P : progress (on_stdout output d) = Num.min99 (Num.parseFloat text)).
    { unfold on_stdout. rewrite E. destruct (JS.includes output "[Merger]"); reflexivity. }
    split; [exact P|]. rewrite P. apply min99_le.
  - intros es Hf s.
    assert (HI : Inv s) by (apply run_Inv; [apply Inv_initial | exact Hf]).
    split; [|split].
    + intros k d G Hc. exact (proj1 (proj2 (proj2 (proj2 HI)) k d G) Hc).
    + intros e k d' He G P.
      destruct (step_record_change e s k d' HI He G) as [U|C].
      * left. eauto.
      * destruct (record_change_to_100 _ _ _ _ _ C P) as [(d & E & Pd)|R]; [left | now right].
        exists d. split; [congruence | exact Pd].
    + intros e j u. apply step_enters_verifying.
Qed.

Lemma progress_capped_until_completed_witness :
  fresh_run clip_events initial = true
  /\ forall k d,
      JsMap.get (activeDownloads finished_clip) k = Some d ->
      status d = completed ->
      progress d = inject_Z 100 /\ JS.truthy (filePath d) = true.
Proof.
  split; [reflexivity|].
  exact (proj1 (proj2 progress_capped_until_completed clip_events eq_refl)).
Defined.

(* ------------------------------------------------------------------ *)
(** ** The status of a job over its lifetime *)

Lemma record_change_status s k e d d' :
  Inv s ->
  JsMap.get (activeDownloads s) k = Some d ->
  RecordChange s k e (Some d) d' ->
  StatusChange e (status d) (status d').
Proof.
  intros HI G H.
  assert (Own : forall i t, nth_error (tasks s) i = Some t -> downloadId t = k -> ctl_ok t d).
  { intros i t Hi Hk. destruct (proj1 (proj2 HI) i t Hi) as (d0 & G0 & C0).
    rewrite Hk, G in G0. now injection G0 as <-. }
  inversion H; subst; simpl;
    try match goal with
        | Hi : nth_error (tasks s) _ = Some ?t, Hc : ctl ?t = _ |- _ =>
            pose proof (Own _ _ Hi eq_refl) as C; unfold ctl_ok in C; rewrite Hc in C;
            destruct C as (Cs & _)
        end.
  - rewrite Cs. constructor.
  - rewrite Cs. constructor.
  - apply RetriesToError; [|exact Cs].
    match goal with
    | Hx : _ \/ _ \/ _ |- _ => destruct Hx as [(c & ->)|[(m & ->)| ->]]; eauto
    end.
  - rewrite on_stdout_status. constructor.
  - now apply ExitToCompleted.
  - match goal with Hs : status d = completed |- _ => rewrite Hs end. constructor.
  - apply ServeRepair. intros P.
    apply (proj2 (proj2 (proj2 (proj2 HI)) _ _ G)) in P.
    match goal with Ht : JS.truthy (filePath d) = true |- _ => rewrite P in Ht; discriminate end.
Qed.

(** Every change of a record's status along a run that hands out fresh
    job ids, the requeue by the file route of a job that is not completed
    and what follows from it included: processing to downloading or to
    error, downloading or queued to completed or to error, completed to
    queued by the check route, and any status but processing to queued
    by the file route. *)
Lemma status_changes_with_requeue :
  forall es : list Event,
    fresh_run es initial = true ->
    forall e k d d',
      fresh_event e (run es initial) = true ->
      JsMap.get (activeDownloads (run es initial)) k = Some d ->
      JsMap.get (activeDownloads (step e (run es initial))) k = Some d' ->
      StatusChange e (status d) (status d').
Proof.
  intros es Hf e k d d' He G G'.
  assert (HI : Inv (run es initial)) by (apply run_Inv; [apply Inv_initial | exact Hf]).
  destruct (step_record_change e _ k d' HI He G') as [U|C].
  - rewrite G in U. injection U as <-. constructor.
  - rewrite G in C. now apply (record_change_status (run es initial) k).
Qed.

(** C7 as stated fails at its first clause: the record of a new job is
    created with status ['processing'], not ['queued']. *)
Lemma new_job_is_not_queued :
  ~ (forall url playlist tExtract tId m id vid m',
        downloadFromUrl_enter url playlist tExtract tId m = (Created id vid, m') ->
        option_map status (JsMap.get m' id) = Some queued).
Proof.
  intros H.
  specialize (H clip_url false 1000%Z 1001%Z [] "abcdefghijk_1001" "abcdefghijk"
                [("abcdefghijk_1001", new_download "abcdefghijk")] eq_refl).
  vm_compute in H. discriminate.
Qed.

(* ------------------------------------------------------------------ *)
(** ** Progress values stored while downloading *)

Lemma stored_reported outputs d :
  stored outputs d = map Num.min99 (reported outputs).
Proof.
  revert d. induction outputs as [|o r IH]; intros d; [reflexivity|].
  unfold reported in *. simpl.
  destruct (on_stdout_progress o d) as [(text & E & P)|P].
  - rewrite E. simpl. rewrite P, IH. reflexivity.
  - destruct (Regex.search Regex.progress_re o) as [[text|]|] eqn:E; simpl; try apply IH.
    rewrite IH. f_equal.
    unfold on_stdout. rewrite E. destruct (JS.includes o "[Merger]"); reflexivity.
Qed.

Lemma min99_monotone (x y : Q) : (x <= y)%Q -> (Num.min99 x <= Num.min99 y)%Q.
Proof. intros L. unfold Num.min99. now apply Q.min_le_compat_r. Qed.

Lemma Sorted_map_min99 (l : list Q) :
  Sorted Qle l -> Sorted Qle (map Num.min99 l).
Proof.
  induction 1 as [|x l S IH Hd]; simpl; constructor; auto.
  destruct Hd; simpl; constructor. now apply min99_monotone.
Qed.

Lemma record_change_progress s k e d d' :
  RecordChange s k e (Some d) d' ->
  progress d' = progress d
  \/ (exists i o, e = Stdout i o /\ d' = on_stdout o d)
  \/ (status d' = queued /\ progress d' = inject_Z 0)
  \/ (status d' = completed /\ progress d' = inject_Z 100).
Proof.
  intros H. inversion H; subst; simpl; auto.
  right. left. eauto.
Qed.

(** C8, as amended. While a job is downloading, every percentage line
    stores the reported percentage capped at 99, without looking at the
    value stored before and without touching the status; so the sequence
    of stored progress values is non-decreasing whenever the percentages
    the subprocess reports are non-decreasing.  Apart from the stdout
    callback, the only steps that change a stored progress value are the
    reset to 0 that comes with the status ['queued'] and the final 100
    that comes with ['completed']. *)
Theorem stored_progress_follows_reports :
  forall (outputs : list string) (d : DownloadProgress),
    stored outputs d = map Num.min99 (reported outputs)
    /\ (forall o, status (on_stdout o d) = status d)
    /\ (Sorted Qle (reported outputs) -> Sorted Qle (stored outputs d))
    /\ (forall es : list Event,
           fresh_run es initial = true ->
           forall e k r r',
             fresh_event e (run es initial) = true ->
             JsMap.get (activeDownloads (run es initial)) k = Some r ->
             JsMap.get (activeDownloads (step e (run es initial))) k = Some r' ->
             progress r' = progress r
             \/ (exists i o, e = Stdout i o /\ r' = on_stdout o r)
             \/ (status r' = queued /\ progress r' = inject_Z 0)
             \/ (status r' = completed /\ progress r' = inject_Z 100)).
Proof.
  intros outputs d. split; [apply stored_reported|].
  split; [intros o; apply on_stdout_status|].
  split.
  - intros S. rewrite stored_reported. now apply Sorted_map_min99.
  - intros es Hf e k r r' He G G'.
    assert (HI : Inv (run es initial)) by (apply run_Inv; [apply Inv_initial | exact Hf]).
    destruct (step_record_change e _ k r' HI He G') as [U|C].
    + left. congruence.
    + rewrite G in C. now apply (record_change_progress (run es initial) k e).
Qed.

Lemma stored_progress_follows_reports_witness :
  Sorted Qle (reported ["[download]  10.0% of 9MiB"; "[download]  99.7% of 9MiB"])
  /\ Sorted Qle (stored ["[download]  10.0% of 9MiB"; "[download]  99.7% of 9MiB"]
                        (new_download "abcdefghijk")).
Proof.
  assert (S : Sorted Qle (reported ["[download]  10.0% of 9MiB";
                                    "[download]  99.7% of 9MiB"])).
  { repeat constructor. vm_compute. discriminate. }
  split; [exact S|].
  exact (proj1 (proj2 (proj2 (stored_progress_follows_reports
                                _ (new_download "abcdefghijk")))) S).
Defined.

(** C8 as stated fails: with [two_streams] the subprocess reports 72.5%
    and then 1.3%, and the record, still ['downloading'], goes from 72.5
    to 1.3. *)
Lemma stored_progress_can_decrease :
  ~ (forall (es : list Event) (i : nat) (o1 o2 : string) (k : string)
            (d1 d2 : DownloadProgress),
        let s1 := step (Stdout i o1) (run es initial) in
        let s2 := step (Stdout i o2) s1 in
        JsMap.get (activeDownloads s1) k = Some d1 ->
        JsMap.get (activeDownloads s2) k = Some d2 ->
        status d1 = downloading ->
        status d2 = downloading ->
        (progress d1 <= progress d2)%Q).
Proof.
  intros H.
  specialize (H [ PostDownload clip_url None false 1000%Z 1001%Z;
                  TitleDone 0 (inl "Clip") 1002%Z ]
                0%nat
                "[download]  72.5% of 48.00MiB at 2.10MiB/s"
                "[download]   1.3% of 3.20MiB at 1.05MiB/s"
                "abcdefghijk_1001").
  cbv zeta in H.
  match type of H with
  | forall d1 d2, ?g1 = _ -> ?g2 = _ -> _ =>
      let v1 := eval vm_compute in g1 in
      let v2 := eval vm_compute in g2 in
      match v1 with
      | Some ?r1 =>
          match v2 with
          | Some ?r2 =>
              specialize (H r1 r2 ltac:(vm_compute; reflexivity)
                            ltac:(vm_compute; reflexivity) eq_refl eq_refl)
          end
      end
  end.
  vm_compute in H. apply H. reflexivity.
Qed.

(* ------------------------------------------------------------------ *)
(** ** What the client of a download request is told *)

Lemma nth_error_replace_nth_other {A : Type} (l : list A) (i j : nat) (x : A) :
  i <> j -> nth_error (replace_nth j x l) i = nth_error l i.
Proof.
  revert i j. induction l as [|y r IH]; intros i j N; simpl.
  - destruct j; reflexivity.
  - destruct j as [|j]; destruct i as [|i]; simpl; try reflexivity.
    + contradiction.
    + apply IH. congruence.
Qed.

Lemma nth_error_replace_nth_same {A : Type} (l : list A) (i : nat) (x y u : A) :
  nth_error l i = Some y -> nth_error (replace_nth i x l) i = Some u -> u = x.
Proof.
  intros _ H. destruct (nth_error_replace_nth _ _ _ _ _ H) as [(_ & -> & _)|(N & _)];
    [reflexivity | contradiction].
Qed.

Lemma attempt_failed_other s j t' n dl msg i :
  i <> j ->
  nth_error (tasks (attempt_failed j t' n dl msg s)) i = nth_error (tasks s) i.
Proof.
  intros N. unfold attempt_failed, fail_task.
  destruct (S n <? maxRetries)%nat; simpl; now apply nth_error_replace_nth_other.
Qed.

(** An event for one job leaves the other jobs where they are. *)
Lemma task_step_other e j tj s i :
  i <> j -> nth_error (tasks (task_step e j tj s)) i = nth_error (tasks s) i.
Proof.
  intros N. unfold task_step.
  destruct e; try (destruct (ctl tj); reflexivity).
  - destruct result; destruct (ctl tj); try reflexivity;
      unfold title_resolved, fail_task; simpl; now apply nth_error_replace_nth_other.
  - destruct (alive (proc tj)); destruct (stdout_throws output);
      destruct (ctl tj); reflexivity.
  - destruct (alive (proc tj) && fatal_stderr text); destruct (ctl tj); reflexivity.
  - destruct (alive (proc tj)); [|destruct (ctl tj); reflexivity]. cbv zeta.
    destruct (ctl tj); try (simpl; now apply nth_error_replace_nth_other).
    destruct (proc tj); try (now apply attempt_failed_other);
      (destruct code as [[| |]|]; try (now apply attempt_failed_other);
       simpl; now apply nth_error_replace_nth_other).
  - destruct (ctl tj); try reflexivity. destruct (proc tj); try reflexivity.
    now apply attempt_failed_other.
  - destruct (ctl tj); try reflexivity.
    rewrite attempt_failed_other by exact N. reflexivity.
  - destruct (ctl tj); try reflexivity. simpl. now apply nth_error_replace_nth_other.
  - destruct (ctl tj); try reflexivity.
    unfold quality_verified. simpl. now apply nth_error_replace_nth_other.
Qed.

(** Requests and disk events leave the jobs where they are; a request
    can only add a job at the end. *)
Lemma step_request_tasks e s i t :
  task_of e = None ->
  nth_error (tasks s) i = Some t ->
  nth_error (tasks (step e s)) i = Some t.
Proof.
  intros He Hi. unfold step. destruct (crashed s); [exact Hi|].
  destruct e; try discriminate.
  - unfold downloadHandler. destruct (String.eqb reqUrl ""); [exact Hi|]. simpl.
    destruct (downloadFromUrl_enter _ _ _ _ _) as [[id|id vid] m']; [exact Hi|].
    simpl. rewrite nth_error_app1; [exact Hi|].
    apply nth_error_Some. congruence.
  - now rewrite checkFileHandler_tasks.
  - now rewrite serveFileHandler_tasks.
  - now rewrite deleteDownloadHandler_tasks.
  - unfold statusHandler. destruct (getDownloadProgress _ _); exact Hi.
  - unfold progressHandler. destruct (String.eqb id ""); [exact Hi|].
    destruct (getDownloadProgress _ _); exact Hi.
  - exact Hi.
  - destruct (getDownloadFilePath id (activeDownloads s) (disk s)) as [[o m] d]. exact Hi.
  - exact Hi.
  - exact Hi.
Qed.

Lemma step_task_event e s i :
  task_of e = Some i ->
  step e s =
  if crashed s then s
  else match nth_error (tasks s) i with
       | Some t => task_step e i t s
       | None => s
       end.
Proof.
  intros He. unfold step. destruct e; try discriminate; injection He as ->; reflexivity.
Qed.

(** The step in which job [i] moves on, if there is one. *)
Lemma step_moves_job e s i t u :
  nth_error (tasks s) i = Some t ->
  nth_error (tasks (step e s)) i = Some u ->
  u <> t ->
  crashed s = false /\ task_of e = Some i /\ step e s = task_step e i t s.
Proof.
  intros Hi Hu N.
  destruct (task_of e) as [j|] eqn:He.
  - rewrite (step_task_event e s j He) in *.
    destruct (crashed s); [congruence|].
    destruct (nth_error (tasks s) j) as [tj|] eqn:Hj; [|congruence].
    destruct (Nat.eq_dec i j) as [->|Nij].
    + rewrite Hi in Hj. injection Hj as <-. auto.
    + rewrite task_step_other in Hu by exact Nij. congruence.
  - rewrite (step_request_tasks e s i t He Hi) in Hu. congruence.
Qed.

Lemma attempt_failed_thrown s i t t' n dl msg u :
  nth_error (tasks s) i = Some t ->
  nth_error (tasks (attempt_failed i t' n dl msg s)) i = Some u ->
  ctl u = Thrown ->
  attempt_failed i t' n dl msg s = fail_task i t' msg s.
Proof.
  intros Hi. unfold attempt_failed.
  destruct (S n <? maxRetries)%nat; [|reflexivity].
  simpl. intros Hu Hc. apply (nth_error_replace_nth_same _ _ _ _ _ Hi) in Hu.
  subst u. discriminate.
Qed.

(** A job ends by throwing only through the outer [catch]. *)
Lemma task_step_thrown e i t s u :
  nth_error (tasks s) i = Some t ->
  nth_error (tasks (task_step e i t s)) i = Some u ->
  ctl t <> Thrown ->
  ctl u = Thrown ->
  exists t' msg s0,
    task_step e i t s = fail_task i t' msg s0
    /\ downloadId t' = downloadId t
    /\ activeDownloads s0 = activeDownloads s
    /\ exists earlier, effects s0 = (effects s ++ earlier)%list.
Proof.
  intros Hi Hu Nt Hc.
  assert (Same : nth_error (tasks s) i = Some u -> False).
  { intros E. rewrite Hi in E. injection E as <-. contradiction. }
  assert (Repl : forall x, ctl x <> Thrown ->
                           nth_error (replace_nth i x (tasks s)) i = Some u -> False).
  { intros x Hx E. apply (nth_error_replace_nth_same _ _ _ _ _ Hi) in E. congruence. }
  assert (Done : forall t' msg, downloadId t' = downloadId t ->
            exists t'' msg' s0,
              fail_task i t' msg s = fail_task i t'' msg' s0
              /\ downloadId t'' = downloadId t
              /\ activeDownloads s0 = activeDownloads s
              /\ exists earlier, effects s0 = (effects s ++ earlier)%list).
  { intros t' msg E. exists t', msg, s. repeat split; auto.
    exists []. now rewrite app_nil_r. }
  revert Hu. unfold task_step.
  destruct e; try (destruct (ctl t); intros Hu; destruct (Same Hu)).
  - destruct result; destruct (ctl t) eqn:Ec;
      try (intros Hu; destruct (Same Hu)).
    + unfold title_resolved. simpl. intros Hu. exfalso.
      eapply Repl; [|exact Hu]. simpl. discriminate.
    + intros _. now apply Done.
  - destruct (alive (proc t)); destruct (stdout_throws output);
      destruct (ctl t); intros Hu; destruct (Same Hu).
  - destruct (alive (proc t) && fatal_stderr text); destruct (ctl t);
      intros Hu; destruct (Same Hu).
  - destruct (alive (proc t)); [|destruct (ctl t); intros Hu; destruct (Same Hu)].
    cbv zeta. destruct (ctl t) eqn:Ec;
      try (simpl; intros Hu; exfalso; eapply Repl; [|exact Hu]; simpl; congruence).
    assert (F : forall m,
               nth_error (tasks (attempt_failed i (with_proc Closed t)
                                   retryCount retryDelay m s)) i = Some u ->
               exists t' msg s0,
                 attempt_failed i (with_proc Closed t) retryCount retryDelay m s
                 = fail_task i t' msg s0
                 /\ downloadId t' = downloadId t
                 /\ activeDownloads s0 = activeDownloads s
                 /\ exists earlier, effects s0 = (effects s ++ earlier)%list).
    { intros m Hu. rewrite (attempt_failed_thrown _ _ _ _ _ _ _ _ Hi Hu Hc).
      now apply Done. }
    destruct (proc t); try apply F;
      (destruct code as [[| |]|]; try apply F;
       simpl; intros Hu; exfalso; eapply Repl; [|exact Hu]; simpl; discriminate).
  - destruct (ctl t) eqn:Ec; try (intros Hu; destruct (Same Hu)).
    destruct (proc t); try (intros Hu; destruct (Same Hu)).
    intros Hu. rewrite (attempt_failed_thrown _ _ _ _ _ _ _ _ Hi Hu Hc).
    now apply Done.
  - destruct (ctl t) eqn:Ec; try (intros Hu; destruct (Same Hu)).
    intros Hu.
    rewrite (attempt_failed_thrown (emit (Kill i) s) _ t _ _ _ _ _ Hi Hu Hc).
    eexists _, _, (emit (Kill i) s). repeat split.
    + destruct (proc t); reflexivity.
    + eexists. reflexivity.
  - destruct (ctl t) eqn:Ec; try (intros Hu; destruct (Same Hu)).
    simpl. intros Hu. exfalso. eapply Repl; [|exact Hu]. simpl. discriminate.
  - destruct (ctl t) eqn:Ec; try (intros Hu; destruct (Same Hu)).
    unfold quality_verified. simpl. intros Hu. exfalso.
    eapply Repl; [|exact Hu]. simpl. discriminate.
Qed.

(** A job returns only through the ['close'] callback with exit code 0. *)
Lemma task_step_returned e i t s u :
  nth_error (tasks s) i = Some t ->
  nth_error (tasks (task_step e i t s)) i = Some u ->
  ctl t <> Returned ->
  ctl u = Returned ->
  exists actual, task_step e i t s = quality_verified i t actual s.
Proof.
  intros Hi Hu Nt Hc.
  assert (Same : nth_error (tasks s) i = Some u -> False).
  { intros E. rewrite Hi in E. injection E as <-. contradiction. }
  assert (Repl : forall x, ctl x <> Returned ->
                           nth_error (replace_nth i x (tasks s)) i = Some u -> False).
  { intros x Hx E. apply (nth_error_replace_nth_same _ _ _ _ _ Hi) in E. congruence. }
  assert (Att : forall t' n dl m,
             nth_error (tasks (attempt_failed i t' n dl m s)) i = Some u -> False).
  { intros t' n dl m. unfold attempt_failed, fail_task.
    destruct (S n <? maxRetries)%nat; simpl; apply Repl; simpl; discriminate. }
  revert Hu. unfold task_step.
  destruct e; try (destruct (ctl t); intros Hu; destruct (Same Hu)).
  - destruct result; destruct (ctl t) eqn:Ec;
      try (intros Hu; destruct (Same Hu));
      unfold title_resolved, fail_task; simpl; intros Hu; exfalso;
      (eapply Repl; [|exact Hu]); simpl; discriminate.
  - destruct (alive (proc t)); destruct (stdout_throws output);
      destruct (ctl t); intros Hu; destruct (Same Hu).
  - destruct (alive (proc t) && fatal_stderr text); destruct (ctl t);
      intros Hu; destruct (Same Hu).
  - destruct (alive (proc t)); [|destruct (ctl t); intros Hu; destruct (Same Hu)].
    cbv zeta. destruct (ctl t) eqn:Ec;
      try (simpl; intros Hu; exfalso; eapply Repl; [|exact Hu]; simpl; congruence).
    destruct (proc t); try (intros Hu; destruct (Att _ _ _ _ Hu));
      (destruct code as [[| |]|]; try (intros Hu; destruct (Att _ _ _ _ Hu));
       simpl; intros Hu; exfalso; eapply Repl; [|exact Hu]; simpl; discriminate).
  - destruct (ctl t) eqn:Ec; try (intros Hu; destruct (Same Hu)).
    destruct (proc t); try (intros Hu; destruct (Same Hu)).
    intros Hu. destruct (Att _ _ _ _ Hu).
  - destruct (ctl t) eqn:Ec; try (intros Hu; destruct (Same Hu)).
    intros Hu. exfalso. revert Hu. unfold attempt_failed, fail_task.
    destruct (S retryCount <? maxRetries)%nat; simpl; apply Repl; simpl; discriminate.
  - destruct (ctl t) eqn:Ec; try (intros Hu; destruct (Same Hu)).
    simpl. intros Hu. exfalso. eapply Repl; [|exact Hu]. simpl. discriminate.
  - destruct (ctl t) eqn:Ec; try (intros Hu; destruct (Same Hu)).
    intros _. eauto.
Qed.

Lemma fail_task_outcome s0 i t' msg d :
  JsMap.get (activeDownloads s0) (downloadId t') = Some d ->
  let m := JS.or_else (Some msg) "Download failed" in
  JsMap.get (activeDownloads (fail_task i t' msg s0)) (downloadId t')
  = Some (with_error m d)
  /\ effects (fail_task i t' msg s0)
     = (effects s0 ++ [ReplyDownload i (Failure 500 m)])%list.
Proof.
  intros G m. unfold fail_task. simpl.
  rewrite (update_get _ _ _ d G), get_set_same. auto.
Qed.

(** X24. A download request without URL is refused at once with a 400
    response; a request whose video has a reusable job is answered in
    the same step with that job's id and leaves the registry as it is;
    and on every run that hands out fresh job ids, the step in which a
    job's call of [downloadFromUrl] throws leaves the job's record with
    status ['error'] and the thrown message and ends with the handler's
    500 answer carrying that message, and the step in which the call
    returns leaves the record ['completed'] and ends with the answer
    that carries the job id. *)
Theorem download_request_outcomes :
  (forall s q pl t1 t2,
      crashed s = false ->
      step (PostDownload "" q pl t1 t2) s
      = emit (Reply (Failure 400 "YouTube URL is required")) s)
  /\ (forall s u q pl t1 t2 id,
         crashed s = false ->
         u <> "" ->
         fst (downloadFromUrl_enter u pl t1 t2 (activeDownloads s)) = Existing id ->
         effects (step (PostDownload u q pl t1 t2) s)
         = (effects s ++ [Reply (DownloadStarted id)])%list
         /\ activeDownloads (step (PostDownload u q pl t1 t2) s) = activeDownloads s)
  /\ (forall es : list Event,
         fresh_run es initial = true ->
         forall e i t u,
           nth_error (tasks (run es initial)) i = Some t ->
           nth_error (tasks (step e (run es initial))) i = Some u ->
           (ctl t <> Thrown -> ctl u = Thrown ->
            exists msg d' earlier,
              JsMap.get (activeDownloads (step e (run es initial))) (downloadId t) = Some d'
              /\ status d' = error
              /\ message d' = Some msg
              /\ effects (step e (run es initial))
                 = (effects (run es initial) ++ earlier
                    ++ [ReplyDownload i (Failure 500 msg)])%list)
           /\ (ctl t <> Returned -> ctl u = Returned ->
               exists d',
                 JsMap.get (activeDownloads (step e (run es initial))) (downloadId t) = Some d'
                 /\ status d' = completed
                 /\ effects (step e (run es initial))
                    = (effects (run es initial)
                       ++ [ReplyDownload i (DownloadStarted (downloadId t))])%list)).
Proof.
  split; [|split].
  - intros s q pl t1 t2 Hc. unfold step. rewrite Hc. reflexivity.
  - intros s u q pl t1 t2 id Hc Hu E. unfold step, downloadHandler.
    rewrite Hc, eqb_empty_false by exact Hu. simpl.
    destruct (downloadFromUrl_enter u pl t1 t2 (activeDownloads s)) as [r m'].
    simpl in E. subst r. auto.
  - intros es Hf e i t u Hi Hu.
    set (s := run es initial) in *.
    assert (HI : Inv s) by (apply run_Inv; [apply Inv_initial | exact Hf]).
    destruct (proj1 (proj2 HI) i t Hi) as (d & G & _).
    split; intros Nt Hc.
    + destruct (step_moves_job e s i t u Hi Hu) as (_ & He & Es); [congruence|].
      rewrite Es in *.
      destruct (task_step_thrown e i t s u Hi Hu Nt Hc)
        as (t' & msg & s0 & -> & Hid & Hm & earlier & Hef).
      rewrite <- Hid in G |- *. rewrite <- Hm in G.
      destruct (fail_task_outcome s0 i t' msg d G) as [R1 R2].
      exists (JS.or_else (Some msg) "Download failed"),
             (with_error (JS.or_else (Some msg) "Download failed") d), earlier.
      rewrite R1, R2, Hef, <- app_assoc. auto.
    + destruct (step_moves_job e s i t u Hi Hu) as (_ & He & Es); [congruence|].
      rewrite Es in *.
      destruct (task_step_returned e i t s u Hi Hu Nt Hc) as (actual & ->).
      unfold quality_verified. simpl.
      rewrite (update_get _ _ _ d G), get_set_same. eauto.
Qed.

Lemma download_request_outcomes_witness :
  fresh_run [PostDownload clip_url None false 1000 1001] initial = true
  /\ exists msg,
      effects (run title_failure initial)
      = [Exec 0 (info_command clip_url); ReplyDownload 0 (Failure 500 msg)].
Proof.
  split; [reflexivity|].
  destruct (proj1 (proj2 (proj2 download_request_outcomes)
                     [PostDownload clip_url None false 1000%Z 1001%Z] eq_refl
                     (TitleDone 0 (inr "Command failed: yt-dlp --print title") 1002%Z)
                     0%nat
                     (mkTask "abcdefghijk_1001" "abcdefghijk" clip_url "1080p" false ""
                             AwaitTitle NotStarted)
                     (mkTask "abcdefghijk_1001" "abcdefghijk" clip_url "1080p" false ""
                             Thrown NotStarted)
                     eq_refl eq_refl)
                  ltac:(discriminate) eq_refl)
    as (msg & d' & earlier & _ & _ & _ & E).
  exists msg. destruct earlier as [|x r].
  - exact E.
  - vm_compute in E. destruct r; discriminate.
Defined.

(** A request that creates a job is not answered in that step: the
    handler is suspended on [downloadFromUrl], whose only effect so far
    is the title lookup. *)
Lemma new_job_request_is_not_answered_yet s u q pl t1 t2 id vid m' :
  crashed s = false ->
  u <> "" ->
  downloadFromUrl_enter u pl t1 t2 (activeDownloads s) = (Created id vid, m') ->
  effects (step (PostDownload u q pl t1 t2) s)
  = (effects s ++ [Exec (length (tasks s)) (info_command u)])%list.
Proof.
  intros Hc Hu E. unfold step, downloadHandler.
  rewrite Hc, eqb_empty_false by exact Hu. simpl. rewrite E. reflexivity.
Qed.

(** C9. The handler awaits [downloadFromUrl], which returns at the end
    of the download.  With [clip_downloaded] the download process has
    exited with code 0 and the client has no answer yet; the job id is
    sent by the last event of [clip_events], when the record is already
    ['completed'].  With [title_failure] the failure of the title lookup
    is recorded on the record and also thrown to the handler, which
    answers 500.  With [unavailable_clip] the exception is thrown inside
    the listener of the error stream: the server is gone, the record is
    still ['downloading'] and the client is never answered. *)
Theorem download_answer_waits_for_the_download :
  answers (effects (run clip_downloaded initial)) = []
  /\ answers (effects (run clip_events initial))
     = [ReplyDownload 0 (DownloadStarted "abcdefghijk_1001")]
  /\ option_map status (JsMap.get (activeDownloads (run clip_events initial))
                                  "abcdefghijk_1001")
     = Some completed
  /\ answers (effects (run title_failure initial))
     = [ReplyDownload 0 (Failure 500 "Command failed: yt-dlp --print title")]
  /\ option_map status (JsMap.get (activeDownloads (run title_failure initial))
                                  "abcdefghijk_1001")
     = Some error
  /\ crashed (run unavailable_clip initial) = true
  /\ option_map status (JsMap.get (activeDownloads (run unavailable_clip initial))
                                  "abcdefghijk_1001")
     = Some downloading
  /\ answers (effects (run unavailable_clip initial)) = []
  /\ forall es, run es (run unavailable_clip initial) = run unavailable_clip initial.
Proof.
  assert (Dead : forall es s, crashed s = true -> run es s = s).
  { induction es as [|e r IH]; intros s C; [reflexivity|].
    change (run (e :: r) s) with (run r (step e s)).
    assert (E : step e s = s) by (unfold step; now rewrite C).
    rewrite E. now apply IH. }
  splits; [vm_compute; reflexivity ..|].
  intros es. apply Dead. vm_compute. reflexivity.
Qed.

(* ------------------------------------------------------------------ *)
(** ** One launch per job *)

Lemma spawn_count_app i a b :
  spawn_count i (a ++ b) = (spawn_count i a + spawn_count i b)%nat.
Proof. unfold spawn_count. now rewrite filter_app, length_app. Qed.

Lemma spawn_count_snoc i es e :
  spawn_count i (es ++ [e])
  = (spawn_count i es
     + match e with
       | Spawn j _ => if Nat.eqb j i then 1 else 0
       | _ => 0
       end)%nat.
Proof.
  rewrite spawn_count_app. f_equal. unfold spawn_count. simpl.
  destruct e; try reflexivity. destruct (Nat.eqb task i); reflexivity.
Qed.

Lemma attempt_failed_spawn s j t' n dl msg i :
  spawn_count i (effects (attempt_failed j t' n dl msg s)) = spawn_count i (effects s).
Proof.
  unfold attempt_failed, fail_task.
  destruct (S n <? maxRetries)%nat; simpl; rewrite spawn_count_snoc; lia.
Qed.

(** Only the arrival of the title launches the download command. *)
Lemma task_step_spawn e j tj s i :
  spawn_count i (effects (task_step e j tj s))
  = (spawn_count i (effects s)
     + match e, ctl tj with
       | TitleDone _ (inl _) _, AwaitTitle => if Nat.eqb j i then 1 else 0
       | _, _ => 0
       end)%nat.
Proof.
  unfold task_step.
  destruct e; try (destruct (ctl tj); lia).
  - destruct result; destruct (ctl tj); try lia.
    + unfold title_resolved. simpl. rewrite !spawn_count_snoc. lia.
    + unfold fail_task. simpl. rewrite spawn_count_snoc. lia.
  - destruct (alive (proc tj)); destruct (stdout_throws output);
      destruct (ctl tj); simpl; lia.
  - destruct (alive (proc tj) && fatal_stderr text); destruct (ctl tj); simpl; lia.
  - destruct (alive (proc tj)); [|destruct (ctl tj); lia]. cbv zeta.
    destruct (ctl tj); try (simpl; lia).
    destruct (proc tj); try (rewrite attempt_failed_spawn; lia);
      (destruct code as [[| |]|]; try (rewrite attempt_failed_spawn; lia); simpl; lia).
  - destruct (ctl tj); try lia. destruct (proc tj); try lia.
    rewrite attempt_failed_spawn. lia.
  - destruct (ctl tj); try lia. rewrite attempt_failed_spawn. simpl.
    rewrite spawn_count_snoc. lia.
  - destruct (ctl tj); try lia. simpl. rewrite spawn_count_snoc. lia.
  - destruct (ctl tj); try lia. unfold quality_verified. simpl.
    rewrite spawn_count_snoc. lia.
Qed.

(** A job that has left the wait for its title does not come back to it. *)
Lemma task_step_title_once e i t s u :
  nth_error (tasks s) i = Some t ->
  nth_error (tasks (task_step e i t s)) i = Some u ->
  ctl u = AwaitTitle ->
  ctl t = AwaitTitle.
Proof.
  intros Hi Hu Hc.
  destruct (ctl t) eqn:Ec; [reflexivity | exfalso ..].
  all: assert (Same : nth_error (tasks s) i = Some u -> False)
    by (intros E; rewrite Hi in E; injection E as <-; congruence).
  all: assert (Repl : forall x, ctl x <> AwaitTitle ->
                                nth_error (replace_nth i x (tasks s)) i = Some u -> False)
    by (intros x Hx E; apply (nth_error_replace_nth_same _ _ _ _ _ Hi) in E; congruence).
  all: assert (Att : forall s0 t' n dl m,
                  tasks s0 = tasks s ->
                  nth_error (tasks (attempt_failed i t' n dl m s0)) i = Some u -> False)
    by (intros s0 t' n dl m Es; unfold attempt_failed, fail_task;
        destruct (S n <? maxRetries)%nat; simpl; rewrite Es; apply Repl; simpl; discriminate).
  all: revert Hu; unfold task_step; rewrite Ec.
  all: destruct e; try exact Same.
  all: try (destruct result; exact Same).
  all: try (destruct (alive (proc t) && fatal_stderr text); exact Same).
  all: try (destruct (alive (proc t)); [|exact Same]).
  all: try (destruct (stdout_throws output); [exact Same|]).
  all: try (unfold update_record; simpl; exact Same).
  all: try (unfold quality_verified; simpl; apply Repl; simpl; discriminate).
  all: try (simpl; apply Repl; simpl; congruence).
  all: try (apply Att; reflexivity).
  all: try (destruct (proc t); solve [exact Same | apply Att; reflexivity]).
  cbv zeta.
  destruct (proc t); try (apply Att; reflexivity);
    (destruct code as [[| |]|]; try (apply Att; reflexivity);
     simpl; apply Repl; simpl; discriminate).
Qed.

Lemma replace_nth_length {A : Type} (l : list A) (i : nat) (x : A) :
  length (replace_nth i x l) = length l.
Proof.
  revert i. induction l as [|y r IH]; intros [|i]; simpl; auto.
Qed.

Lemma attempt_failed_length s j t' n dl msg :
  length (tasks (attempt_failed j t' n dl msg s)) = length (tasks s).
Proof.
  unfold attempt_failed, fail_task.
  destruct (S n <? maxRetries)%nat; simpl; apply replace_nth_length.
Qed.

Lemma task_step_length e j tj s :
  length (tasks (task_step e j tj s)) = length (tasks s).
Proof.
  unfold task_step.
  destruct e; try (destruct (ctl tj); reflexivity).
  - destruct result; destruct (ctl tj); try reflexivity;
      unfold title_resolved, fail_task; simpl; apply replace_nth_length.
  - destruct (alive (proc tj)); destruct (stdout_throws output);
      destruct (ctl tj); reflexivity.
  - destruct (alive (proc tj) && fatal_stderr text); destruct (ctl tj); reflexivity.
  - destruct (alive (proc tj)); [|destruct (ctl tj); reflexivity]. cbv zeta.
    destruct (ctl tj); try (simpl; apply replace_nth_length).
    destruct (proc tj); try apply attempt_failed_length;
      (destruct code as [[| |]|]; try apply attempt_failed_length;
       simpl; apply replace_nth_length).
  - destruct (ctl tj); try reflexivity. destruct (proc tj); try reflexivity.
    apply attempt_failed_length.
  - destruct (ctl tj); try reflexivity. now rewrite attempt_failed_length.
  - destruct (ctl tj); try reflexivity. simpl. apply replace_nth_length.
  - destruct (ctl tj); try reflexivity.
    unfold quality_verified. simpl. apply replace_nth_length.
Qed.

(** Requests and disk events launch nothing, and a job they add waits
    for its title. *)
Lemma step_request_launches e s i :
  task_of e = None ->
  spawn_count i (effects (step e s)) = spawn_count i (effects s)
  /\ (forall u, nth_error (tasks s) i = None ->
                nth_error (tasks (step e s)) i = Some u -> ctl u = AwaitTitle).
Proof.
  intros He. unfold step. destruct (crashed s); [split; congruence|].
  destruct e; try discriminate.
  - unfold downloadHandler. destruct (String.eqb reqUrl "").
    { simpl. rewrite spawn_count_snoc. split; [lia | congruence]. }
    simpl. destruct (downloadFromUrl_enter _ _ _ _ _) as [[id|id vid] m']; simpl.
    + rewrite spawn_count_snoc. split; [lia | congruence].
    + rewrite spawn_count_snoc. split; [lia|].
      intros u Hn Hu.
      destruct (nth_error_snoc _ _ _ _ Hu) as [(_ & ->)|(_ & H')];
        [reflexivity | congruence].
  - rewrite checkFileHandler_tasks. split; [|congruence].
    unfold checkFileHandler.
    destruct (String.eqb id ""); [simpl; rewrite spawn_count_snoc; lia|].
    destruct (getDownloadProgress_entry id (activeDownloads s)) as [[key d]|];
      [|simpl; rewrite spawn_count_snoc; lia].
    destruct (negb (status_eqb (status d) completed));
      [simpl; rewrite spawn_count_snoc; lia|].
    destruct (negb (JS.truthy (filePath d)));
      [simpl; rewrite spawn_count_snoc; lia|].
    destruct (negb (Fs.existsSync (disk s) (JS.or_else (filePath d) "")));
      simpl; rewrite spawn_count_snoc; lia.
  - rewrite serveFileHandler_tasks. split; [|congruence].
    unfold serveFileHandler.
    destruct (String.eqb id ""); [simpl; rewrite spawn_count_snoc; lia|].
    destruct (getDownloadProgress_entry id (activeDownloads s)) as [[key d]|];
      [|simpl; rewrite spawn_count_snoc; lia].
    destruct (negb (JS.truthy (filePath d)));
      [simpl; rewrite spawn_count_snoc; lia|].
    destruct (negb (Fs.existsSync (disk s) (JS.or_else (filePath d) "")));
      simpl; rewrite spawn_count_snoc; lia.
  - rewrite deleteDownloadHandler_tasks. split; [|congruence].
    unfold deleteDownloadHandler.
    destruct (String.eqb id ""); [simpl; rewrite spawn_count_snoc; lia|].
    destruct (matchingDownloads id (activeDownloads s));
      simpl; rewrite spawn_count_snoc; lia.
  - unfold statusHandler. destruct (getDownloadProgress _ _);
      simpl; rewrite spawn_count_snoc; (split; [lia | congruence]).
  - unfold progressHandler.
    destruct (String.eqb id ""); [|destruct (getDownloadProgress _ _)];
      simpl; rewrite spawn_count_snoc; (split; [lia | congruence]).
  - simpl. rewrite spawn_count_snoc. split; [lia | congruence].
  - destruct (getDownloadFilePath id (activeDownloads s) (disk s)) as [[o m] d].
    simpl. split; congruence.
  - simpl. split; congruence.
  - simpl. split; congruence.
Qed.

Lemma step_LaunchedOnce e s : LaunchedOnce s -> LaunchedOnce (step e s).
Proof.
  intros L i. specialize (L i).
  destruct (task_of e) as [j|] eqn:He.
  - rewrite (step_task_event e s j He).
    destruct (crashed s); [exact L|].
    destruct (nth_error (tasks s) j) as [tj|] eqn:Hj; [|exact L].
    rewrite task_step_spawn.
    destruct (Nat.eq_dec i j) as [->|N].
    + rewrite Hj in L.
      destruct (nth_error (tasks (task_step e j tj s)) j) as [u|] eqn:Hu.
      * destruct (ctl u) eqn:Ecu.
        { pose proof (task_step_title_once e j tj s u Hj Hu Ecu) as Ect.
          rewrite Ect in L |- *.
          destruct e; try lia. destruct result; try lia.
          exfalso. revert Hu. unfold task_step. rewrite Ect.
          unfold title_resolved. simpl. intros Hu.
          apply (nth_error_replace_nth_same _ _ _ _ _ Hj) in Hu. subst u. discriminate. }
        all: destruct (ctl tj); destruct e; try lia;
          try (destruct result; try lia); rewrite ?Nat.eqb_refl; lia.
      * exfalso. apply nth_error_None in Hu. rewrite task_step_length in Hu.
        assert (j < length (tasks s))%nat by (apply nth_error_Some; congruence). lia.
    + rewrite (task_step_other e j tj s i N).
      assert (Z0 : match e, ctl tj with
                   | TitleDone _ (inl _) _, AwaitTitle => if Nat.eqb j i then 1 else 0
                   | _, _ => 0
                   end = 0%nat).
      { destruct e; try reflexivity. destruct result; try reflexivity.
        destruct (ctl tj); try reflexivity.
        destruct (Nat.eqb_spec j i); [congruence | reflexivity]. }
      rewrite Z0, Nat.add_0_r. exact L.
  - destruct (step_request_launches e s i He) as [Hs Hn]. rewrite Hs.
    destruct (nth_error (tasks s) i) as [t|] eqn:Hi.
    + now rewrite (step_request_tasks e s i t He Hi).
    + destruct (nth_error (tasks (step e s)) i) as [u|] eqn:Hu; [|exact L].
      now rewrite (Hn u eq_refl eq_refl).
Qed.

(** Whatever happens, no job's download command is launched more than
    once. *)
Lemma download_launched_at_most_once (es : list Event) (i : nat) :
  (spawn_count i (effects (run es initial)) <= 1)%nat.
Proof.
  assert (L : LaunchedOnce (run es initial)).
  { assert (G : forall s, LaunchedOnce s -> LaunchedOnce (run es s)).
    { induction es as [|e r IH]; intros s Ls; [exact Ls|].
      simpl. apply IH. now apply step_LaunchedOnce. }
    apply G. intros j. destruct j; reflexivity. }
  specialize (L i).
  destruct (nth_error (tasks (run es initial)) i) as [t|]; [destruct (ctl t)|]; lia.
Qed.

(* ------------------------------------------------------------------ *)
(** ** The retry loop *)

(** C3. When the subprocess exits with code 1 ([failing_events]), the
    retry loop goes through three waits for the ['close'] event with
    pauses of 5 and 10 seconds between them and the job ends in status
    ['error'] with the message of the last wait; but the downloader is
    launched exactly once: [spawn] is called before the loop, the second
    and third waits listen to the process that has already closed, and
    both end by the ten-minute timeout.  On no run at all is the command
    of a job launched a second time. *)
Theorem retry_loop_never_relaunches :
  (forall (es : list Event) (i : nat),
      (spawn_count i (effects (run es initial)) <= 1)%nat)
  /\
  let s := run failing_events initial in
  length (filter is_spawn (effects s)) = 1%nat
  /\ delays (effects s) = [600000; 5000; 600000; 10000; 600000]%Z
  /\ option_map status (JsMap.get (activeDownloads s) "abcdefghijk_1001") = Some error
  /\ option_map message (JsMap.get (activeDownloads s) "abcdefghijk_1001")
     = Some (Some "Download timeout")
  /\ option_map ctl (nth_error (tasks s) 0) = Some Thrown.
Proof.
  split; [apply download_launched_at_most_once|].
  vm_compute. repeat split; reflexivity.
Qed.


(* ------------------------------------------------------------------ *)
(** ** Side conditions of the embedding *)

(** A ['close'] event that finds the job outside the retry loop's wait
    belongs to a process that was sent [kill()]: [task_step] may drop its
    exit code. *)
Lemma close_outside_wait_was_killed (es : list Event) (i : nat) (t : Task) :
  fresh_run es initial = true ->
  nth_error (tasks (run es initial)) i = Some t ->
  alive (proc t) = true ->
  (exists n dl, ctl t = AwaitClose n dl) \/ proc t = Killed.
Proof.
  intros Hf Hi Ha.
  assert (HI : Inv (run es initial)) by (apply run_Inv; [apply Inv_initial | exact Hf]).
  destruct (proj1 (proj2 HI) i t Hi) as (d & _ & C). unfold ctl_ok in C.
  destruct (ctl t); eauto; right; destruct (proc t); simpl in Ha;
    try discriminate; try reflexivity; intuition congruence.
Qed.

(** X20. The record of a job is in the registry whenever one of its
    callbacks runs, as the non-null assertions of the source assume. *)
Lemma job_record_present (es : list Event) (i : nat) (t : Task) :
  fresh_run es initial = true ->
  nth_error (tasks (run es initial)) i = Some t ->
  JsMap.has (activeDownloads (run es initial)) (downloadId t) = true.
Proof.
  intros Hf Hi.
  assert (HI : Inv (run es initial)) by (apply run_Inv; [apply Inv_initial | exact Hf]).
  destruct (proj1 (proj2 HI) i t Hi) as (d & G & _).
  unfold JsMap.has. now rewrite G.
Qed.

(** X21. Two requests for the same video, the second arriving while the
    job of the first is still in the registry as created: both get the
    same job id, whatever their playlist flags. *)
Lemma second_request_gets_same_id url pl1 pl2 t1 t2 t3 m id vid m' :
  downloadFromUrl_enter url pl1 t1 t2 m = (Created id vid, m') ->
  extractVideoId url t3 = vid ->
  downloadFromUrl_enter url pl2 t3 t3 m' = (Existing id, m').
Proof.
  intros E Hv.
  pose proof (downloadFromUrl_enter_created _ _ _ _ _ _ _ _ E) as Em.
  revert E. unfold downloadFromUrl_enter. rewrite Hv, !find_filter.
  destruct (find (fun e => same_video _ e && is_completed_download e) m) eqn:F1;
    [discriminate|].
  destruct (find (fun e => same_video _ e && is_in_progress e) m) eqn:F2;
    [discriminate|].
  intros [= Eid Ev _]. rewrite Ev in *. clear Ev.
  assert (K : same_video vid (id, new_download vid) = true).
  { unfold same_video. simpl. now rewrite String.eqb_refl. }
  assert (S1 : forall p : string * DownloadProgress -> bool,
             find (fun e => same_video vid e && p e) m = None ->
             p (id, new_download vid) = false ->
             find (fun e => same_video vid e && p e) m' = None).
  { intros p Fn Pn. subst m'. clear - Fn Pn K.
    induction m as [|[k v] r IH]; simpl in *.
    - now rewrite K, Pn.
    - destruct (same_video vid (k, v) && p (k, v)) eqn:Q; [discriminate|].
      destruct (String.eqb k id); simpl.
      + now rewrite K, Pn.
      + rewrite Q. now apply IH. }
  assert (S2 : forall p : string * DownloadProgress -> bool,
             find (fun e => same_video vid e && p e) m = None ->
             p (id, new_download vid) = true ->
             find (fun e => same_video vid e && p e) m' = Some (id, new_download vid)).
  { intros p Fn Pn. subst m'. clear - Fn Pn K.
    induction m as [|[k v] r IH]; simpl in *.
    - now rewrite K, Pn.
    - destruct (same_video vid (k, v) && p (k, v)) eqn:Q; [discriminate|].
      destruct (String.eqb k id); simpl.
      + now rewrite K, Pn.
      + rewrite Q. now apply IH. }
  rewrite (S1 _ F1 eq_refl), (S2 _ F2 eq_refl). reflexivity.
Qed.

(** The side condition on job ids is needed: were [Date.now()] to give
    the second request for a video the very key of its first job, requeued
    by the file-serving endpoint while still downloading, the new record
    would replace the old one under the running job, which would then
    complete a record that has no file path. *)
Lemma reused_id_breaks_completed_record :
  fresh_run reused_id initial = false
  /\ exists d,
      JsMap.get (activeDownloads (run reused_id initial)) "abcdefghijk_1001" = Some d
      /\ status d = completed
      /\ filePath d = None.
Proof.
  split; [reflexivity|]. eexists. split; [vm_compute; reflexivity|]. auto.
Qed.

(* ------------------------------------------------------------------ *)
(** ** The identity resolver *)

Lemma star_result {A : Type} (p : ascii -> bool) (s : string)
      (k : string -> option A) (x : A) :
  Regex.star p s k = Some x -> exists s', k s' = Some x.
Proof.
  induction s as [|c r IH]; simpl; [eauto|].
  destruct (p c); [|eauto].
  destruct (Regex.star p r k) eqn:E; [|eauto].
  intros [= <-]. now apply IH.
Qed.

(** Whatever the matcher returns was returned by its continuation. *)
Lemma run_result {A : Type} (r : Regex.re) :
  forall (s : string) (cap : option string)
         (k : option string -> string -> option A) (x : A),
    Regex.run r s cap k = Some x -> exists cap' s', k cap' s' = Some x.
Proof.
  induction r as [p| |a IHa b IHb|a IHa b IHb|p|a IHa]; intros s cap k x; simpl.
  - destruct s as [|c s']; [discriminate|]. destruct (p c); [eauto | discriminate].
  - eauto.
  - intros H. destruct (IHa _ _ _ _ H) as (cap' & s' & H'). now apply IHb in H'.
  - destruct (Regex.run a s cap k) eqn:E.
    + intros [= <-]. now apply IHa in E.
    + apply IHb.
  - intros H. apply star_result in H. destruct H as (s' & H). eauto.
  - intros H. destruct (IHa _ _ _ _ H) as (cap' & s' & H'). eauto.
Qed.

(** [n] characters of a class, one after the other, consume exactly [n]
    characters of that class. *)
Lemma run_times_class {A : Type} (p : ascii -> bool) (n : nat) :
  forall (s : string) (cap : option string)
         (k : option string -> string -> option A) (x : A),
    Regex.run (Regex.times n (Regex.Chr p)) s cap k = Some x ->
    exists pre rest,
      s = pre ++ rest /\ String.length pre = n
      /\ Str.all_chars p pre = true /\ k cap rest = Some x.
Proof.
  induction n as [|n IH]; intros s cap k x.
  - simpl. intros H. exists "", s. auto.
  - destruct n as [|m].
    + simpl. destruct s as [|c s']; [discriminate|].
      destruct (p c) eqn:Pc; [|discriminate]. intros K.
      exists (String c ""), s'. simpl. rewrite Pc. auto.
    + change (Regex.times (S (S m)) (Regex.Chr p))
        with (Regex.Seq (Regex.Chr p) (Regex.times (S m) (Regex.Chr p))).
      simpl Regex.run at 1. destruct s as [|c s']; [discriminate|].
      destruct (p c) eqn:Pc; [|discriminate]. intros K.
      destruct (IH _ _ _ _ K) as (pre & rest & -> & L & P & Kr).
      exists (String c pre), rest. simpl. rewrite Pc, L, P. auto.
Qed.

Lemma substring_prefix (pre rest : string) :
  substring 0 (String.length (pre ++ rest) - String.length rest) (pre ++ rest) = pre.
Proof.
  assert (L : forall a b, String.length (a ++ b) = (String.length a + String.length b)%nat).
  { induction a; simpl; auto. }
  rewrite L, Nat.add_sub.
  induction pre as [|c pre IH]; simpl.
  - destruct rest; reflexivity.
  - now rewrite IH.
Qed.

Lemma run_prefix_then_capture (a : Regex.re) (p : ascii -> bool) (n : nat)
      (s : string) (c : option string) :
  Regex.run (Regex.Seq a (Regex.Cap (Regex.times n (Regex.Chr p)))) s None
            (fun cap _ => Some cap) = Some c ->
  exists id, c = Some id /\ String.length id = n /\ Str.all_chars p id = true.
Proof.
  simpl. intros E.
  apply run_result in E. destruct E as (cap' & s' & E).
  apply run_times_class in E.
  destruct E as (pre & rest & -> & L & P & [= <-]).
  exists pre. rewrite substring_prefix. auto.
Qed.

Lemma youtube_re_run (s : string) (c : option string) :
  Regex.run Regex.youtube_re s None (fun cap _ => Some cap) = Some c ->
  exists id, c = Some id /\ String.length id = 11%nat
             /\ Str.all_chars Regex.id_char id = true.
Proof. unfold Regex.youtube_re. apply run_prefix_then_capture. Qed.

Lemma search_cons (r : Regex.re) (a : ascii) (s : string) :
  Regex.search r (String a s) =
  match Regex.run r (String a s) None (fun cap _ => Some cap) with
  | Some cap => Some cap
  | None => Regex.search r s
  end.
Proof. reflexivity. Qed.

(** A match of the pattern of [extractVideoId] captures eleven
    characters of the id class. *)
Lemma youtube_re_capture (s : string) (c : option string) :
  Regex.search Regex.youtube_re s = Some c ->
  exists id, c = Some id /\ String.length id = 11%nat
             /\ Str.all_chars Regex.id_char id = true.
Proof.
  induction s as [|a s IH].
  - vm_compute. discriminate.
  - rewrite search_cons.
    destruct (Regex.run Regex.youtube_re (String a s) None (fun cap _ => Some cap)) eqn:E.
    + intros [= <-]. now apply youtube_re_run in E.
    + exact IH.
Qed.

Lemma string_of_uint_digits (d : Decimal.uint) :
  Str.all_chars JS.is_digit (NilEmpty.string_of_uint d) = true.
Proof. induction d; simpl; auto. Qed.

Lemma string_of_Z_chars (z : Z) :
  Str.all_chars (fun c => JS.is_digit c || Ascii.eqb c "-") (JS.string_of_Z z) = true.
Proof.
  assert (U : forall d, Str.all_chars (fun c => JS.is_digit c || Ascii.eqb c "-")
                                      (NilEmpty.string_of_uint d) = true).
  { induction d; simpl; auto. }
  assert (N : forall d, Str.all_chars (fun c => JS.is_digit c || Ascii.eqb c "-")
                                      (NilZero.string_of_uint d) = true).
  { intros d. unfold NilZero.string_of_uint. destruct d; try apply U. reflexivity. }
  unfold JS.string_of_Z, NilZero.string_of_int.
  destruct (Z.to_int z); simpl; rewrite ?N; reflexivity.
Qed.

Lemma all_chars_has_char (p : ascii -> bool) (c : ascii) (s : string) :
  Str.all_chars p s = true -> p c = false -> Str.has_char c s = false.
Proof.
  intros A Pc. induction s as [|x r IH]; simpl in *; [reflexivity|].
  apply andb_true_iff in A. destruct A as [Px Ar].
  destruct (Ascii.eqb_spec x c) as [->|_]; [congruence|]. now apply IH.
Qed.

(** X1. What [extractVideoId] returns is either eleven characters none
    of which is a double quote, an ampersand, a question mark, a slash
    or white space, or the synthetic id [video_<now>]; in both cases it
    is not empty and holds no slash. *)
Theorem extractVideoId_shape :
  forall (url : string) (now : Z),
    ((String.length (extractVideoId url now) = 11%nat
      /\ Str.all_chars Regex.id_char (extractVideoId url now) = true)
     \/ extractVideoId url now = "video_" ++ JS.string_of_Z now)
    /\ Str.has_char "/" (extractVideoId url now) = false
    /\ extractVideoId url now <> "".
Proof.
  intros url now. unfold extractVideoId.
  destruct (Regex.search Regex.youtube_re url) as [c|] eqn:E.
  - destruct (youtube_re_capture _ _ E) as (id & -> & L & P).
    split; [left; auto|]. split.
    + now apply (all_chars_has_char Regex.id_char).
    + destruct id; [discriminate | discriminate].
  - split; [now right|]. split; [|discriminate].
    simpl. apply (all_chars_has_char _ _ _ (string_of_Z_chars now)). reflexivity.
Qed.

Lemma run_times_class_app {A : Type} (p : ascii -> bool) (pre : string) :
  forall (rest : string) (cap : option string)
         (k : option string -> string -> option A),
    Str.all_chars p pre = true ->
    Regex.run (Regex.times (String.length pre) (Regex.Chr p)) (pre ++ rest) cap k
    = k cap rest.
Proof.
  induction pre as [|c pre IH]; intros rest cap k P; [reflexivity|].
  simpl in P. apply andb_true_iff in P. destruct P as [Pc Pr].
  destruct pre as [|c' pre'].
  - simpl. now rewrite Pc.
  - change (String.length (String c (String c' pre'))) with (S (S (String.length pre'))).
    change (Regex.times (S (S (String.length pre'))) (Regex.Chr p))
      with (Regex.Seq (Regex.Chr p)
              (Regex.times (String.length (String c' pre')) (Regex.Chr p))).
    change (String c (String c' pre') ++ rest) with (String c (String c' pre' ++ rest)).
    simpl Regex.run at 1. rewrite Pc. now apply IH.
Qed.

Lemma youtube_re_split :
  Regex.youtube_re
  = Regex.Seq (seq_head Regex.youtube_re)
              (Regex.Cap (Regex.times 11 (Regex.Chr Regex.id_char))).
Proof. reflexivity. Qed.

(** After [youtu.be/] the rest of the pattern is matched on the rest of
    the text. *)
Lemma youtube_short_prefix {A : Type} (b : Regex.re) (t : string)
      (k : option string -> string -> option A) :
  Regex.run (Regex.Seq (seq_head Regex.youtube_re) b) ("youtu.be/" ++ t) None k
  = Regex.run b t None k.
Proof. vm_compute. reflexivity. Qed.

(** X2. A short link gives back its id: for every eleven characters of the
    id class and whatever follows them, [extractVideoId] of
    [https://youtu.be/<id><rest>] is [<id>]. *)
Theorem extractVideoId_short_link :
  forall (id rest : string) (now : Z),
    String.length id = 11%nat ->
    Str.all_chars Regex.id_char id = true ->
    extractVideoId ("https://youtu.be/" ++ id ++ rest) now = id.
Proof.
  intros id rest now L P. unfold extractVideoId.
  assert (R : Regex.run Regex.youtube_re ("youtu.be/" ++ id ++ rest) None
                        (fun cap _ => Some cap) = Some (Some id)).
  { rewrite youtube_re_split, youtube_short_prefix.
    cbn [Regex.run]. rewrite <- L at 1.
    rewrite run_times_class_app by exact P.
    now rewrite substring_prefix. }
  assert (S : Regex.search Regex.youtube_re ("https://youtu.be/" ++ id ++ rest)
              = Some (Some id)).
  { change ("https://youtu.be/" ++ id ++ rest)
      with (String "h" (String "t" (String "t" (String "p" (String "s" (String ":"
            (String "/" (String "/" ("youtu.be/" ++ id ++ rest))))))))).
    do 8 (rewrite search_cons;
          match goal with
          | |- context [Regex.run Regex.youtube_re ?s None ?k] =>
              assert (Regex.run Regex.youtube_re s None k = None) as ->
                by (vm_compute; reflexivity)
          end).
    change ("youtu.be/" ++ id ++ rest)
      with (String "y" ("outu.be/" ++ id ++ rest)).
    rewrite search_cons.
    change (String "y" ("outu.be/" ++ id ++ rest)) with ("youtu.be/" ++ id ++ rest).
    now rewrite R. }
  now rewrite S.
Qed.

Lemma extractVideoId_short_link_witness :
  extractVideoId "https://youtu.be/dQw4w9WgXcQ?t=42" 0 = "dQw4w9WgXcQ".
Proof.
  exact (extractVideoId_short_link "dQw4w9WgXcQ" "?t=42" 0%Z eq_refl eq_refl).
Defined.

(* ------------------------------------------------------------------ *)
(** ** The title as a file name *)

Lemma map_chars_all (f : ascii -> ascii) (p : ascii -> bool) (s : string) :
  (forall c, p (f c) = true) -> Str.all_chars p (JS.map_chars f s) = true.
Proof.
  intros H. induction s as [|c r IH]; simpl; [reflexivity|].
  now rewrite H, IH.
Qed.

Lemma sanitize_title_avoids (x : ascii) (stdout : string) :
  (Ascii.eqb x Regex.dquote || Regex.one_of "<>:/\|?*" x) = true ->
  Ascii.eqb x "_" = false ->
  Str.has_char x (sanitize_title stdout) = false.
Proof.
  intros B U. unfold sanitize_title.
  apply all_chars_has_char
    with (p := fun c => negb (Ascii.eqb c Regex.dquote || Regex.one_of "<>:/\|?*" c)).
  - apply map_chars_all. intros c.
    destruct (Ascii.eqb c Regex.dquote || Regex.one_of "<>:/\|?*" c) eqn:E.
    + reflexivity.
    + now rewrite E.
  - now rewrite B.
Qed.

(** X3. Whatever yt-dlp prints as the title, the title the job keeps
    holds none of the nine characters the replacement is for: double
    quote, angle brackets, colon, slash, backslash, bar, question mark,
    star. *)
Theorem sanitize_title_has_no_reserved_character :
  forall stdout : string,
    Forall (fun c => Str.has_char c (sanitize_title stdout) = false)
           (Regex.dquote :: list_ascii_of_string "<>:/\|?*").
Proof.
  intros stdout.
  repeat (apply Forall_cons; [now apply sanitize_title_avoids|]).
  apply Forall_nil.
Qed.

(* ------------------------------------------------------------------ *)
(** ** The choice of a format *)

Lemma findBestFormat_from_cons target line rest best bestRes :
  findBestFormat_from target (line :: rest) best bestRes
  = match format_entry line with
    | Some (formatId, container, height) =>
        if num_eq height target && String.eqb container "mp4" then Some formatId
        else if num_le height target && JS.num_gt height (Some bestRes)
        then findBestFormat_from target rest (Some formatId)
               (match height with Some h => h | None => bestRes end)
        else findBestFormat_from target rest best bestRes
    | None => findBestFormat_from target rest best bestRes
    end.
Proof.
  cbn [findBestFormat_from]. unfold format_entry.
  destruct (format_line_parts line) as [[[a b] c]|]; [|reflexivity].
  now destruct (JS.includes line "audio only").
Qed.

Lemma targetHeight_pos quality : (0 < targetHeight quality)%Z.
Proof.
  unfold targetHeight.
  destruct (String.eqb quality "1080p"); [lia|].
  destruct (String.eqb quality "720p"); lia.
Qed.

Lemma findBestFormat_from_sound target formats :
  (0 < target)%Z ->
  forall best bestRes id,
    (0 <= bestRes)%Z ->
    findBestFormat_from target formats best bestRes = Some id ->
    best = Some id
    \/ exists line container h,
        In line formats
        /\ format_entry line = Some (id, container, Some h)
        /\ (0 < h <= target)%Z.
Proof.
  intros T. induction formats as [|line rest IH]; intros best bestRes id B R.
  - left. exact R.
  - rewrite findBestFormat_from_cons in R.
    destruct (format_entry line) as [[[fid c] h]|] eqn:E.
    + destruct (num_eq h target && String.eqb c "mp4") eqn:X.
      * injection R as <-. apply andb_prop in X as [X _].
        destruct h as [h|]; [|discriminate]. simpl in X.
        apply Z.eqb_eq in X. subst h.
        right. exists line, c, target. simpl. repeat split; auto; lia.
      * destruct (num_le h target && JS.num_gt h (Some bestRes)) eqn:Y.
        -- apply andb_prop in Y as [Y1 Y2].
           destruct h as [h|]; [|discriminate]. simpl in Y1, Y2.
           apply Z.leb_le in Y1. apply Z.ltb_lt in Y2.
           apply IH in R; [|lia].
           destruct R as [R|(l & c' & h' & I & F & H)].
           ++ injection R as <-. right. exists line, c, h.
              simpl. repeat split; auto; lia.
           ++ right. exists l, c', h'. simpl. auto.
        -- apply IH in R; [|exact B].
           destruct R as [R|(l & c' & h' & I & F & H)]; [now left|].
           right. exists l, c', h'. simpl. auto.
    + apply IH in R; [|exact B].
      destruct R as [R|(l & c' & h' & I & F & H)]; [now left|].
      right. exists l, c', h'. simpl. auto.
Qed.

(** X4. The id [findBestFormat] returns is the id of a line of the table
    that parses, is not audio only, and whose height is positive and does
    not exceed the height of the quality asked for. *)
Theorem findBestFormat_never_exceeds_target :
  forall (formats : list string) (quality id : string),
    findBestFormat formats quality = Some id ->
    exists line container h,
      In line formats
      /\ format_entry line = Some (id, container, Some h)
      /\ (0 < h <= targetHeight quality)%Z.
Proof.
  intros formats quality id R. unfold findBestFormat in R.
  apply findBestFormat_from_sound in R; [|apply targetHeight_pos|lia].
  destruct R as [R|R]; [discriminate|exact R].
Qed.

Lemma findBestFormat_never_exceeds_target_witness :
  exists line container h,
    In line sample_formats
    /\ format_entry line = Some ("136", container, Some h)
    /\ (0 < h <= targetHeight "720p")%Z.
Proof.
  exact (findBestFormat_never_exceeds_target sample_formats "720p" "136" eq_refl).
Defined.

Lemma findBestFormat_from_keeps target formats :
  forall best bestRes,
    best <> None -> findBestFormat_from target formats best bestRes <> None.
Proof.
  induction formats as [|l fs IH]; intros b r Hb; [exact Hb|].
  rewrite findBestFormat_from_cons.
  destruct (format_entry l) as [[[i c] h]|]; [|now apply IH].
  destruct (num_eq h target && String.eqb c "mp4"); [discriminate|].
  destruct (num_le h target && JS.num_gt h (Some r));
    apply IH; [discriminate|exact Hb].
Qed.

Lemma findBestFormat_from_none target formats :
  forall best bestRes,
    (0 <= bestRes < target)%Z ->
    (findBestFormat_from target formats best bestRes = None
     <-> best = None
         /\ forall line id container h,
              In line formats ->
              format_entry line = Some (id, container, Some h) ->
              (h <= bestRes \/ target < h)%Z).
Proof.
  induction formats as [|line rest IH]; intros best bestRes B.
  - simpl. split; [intros ->; split; [reflexivity|intros ? ? ? ? []]|now intros [-> _]].
  - rewrite findBestFormat_from_cons.
    destruct (format_entry line) as [[[fid c] h]|] eqn:E.
    + destruct (num_eq h target && String.eqb c "mp4") eqn:X.
      * split; [discriminate|]. intros [_ H].
        apply andb_prop in X as [X _].
        destruct h as [h|]; [|discriminate]. simpl in X. apply Z.eqb_eq in X.
        specialize (H line fid c h (or_introl eq_refl) E). lia.
      * destruct (num_le h target && JS.num_gt h (Some bestRes)) eqn:Y.
        -- apply andb_prop in Y as [Y1 Y2].
           destruct h as [h|]; [|discriminate]. simpl in Y1, Y2.
           apply Z.leb_le in Y1. apply Z.ltb_lt in Y2.
           split.
           ++ intros R. exfalso.
              now apply (findBestFormat_from_keeps target rest (Some fid) h).
           ++ intros [_ H].
              specialize (H line fid c h (or_introl eq_refl) E). lia.
        -- rewrite IH by exact B. split; intros [-> H]; (split; [reflexivity|]).
           ++ intros l i c' h' [<-|I] F; [|now apply (H l i c' h')].
              rewrite E in F. injection F as -> -> ->.
              apply andb_false_iff in Y. simpl in Y.
              destruct Y as [Y|Y]; [apply Z.leb_gt in Y|apply Z.ltb_ge in Y]; lia.
           ++ intros l i c' h' I F. apply (H l i c' h'); [now right|exact F].
    + rewrite IH by exact B. split; intros [-> H]; (split; [reflexivity|]).
      * intros l i c' h' [<-|I] F; [congruence|now apply (H l i c' h')].
      * intros l i c' h' I F. apply (H l i c' h'); [now right|exact F].
Qed.

(** X5. [findBestFormat] returns nothing exactly when no line of the table
    that parses and is not audio only has a positive height up to the
    height of the quality asked for. *)
Theorem findBestFormat_none_iff_no_candidate :
  forall (formats : list string) (quality : string),
    findBestFormat formats quality = None
    <-> forall line id container h,
          In line formats ->
          format_entry line = Some (id, container, Some h) ->
          (h <= 0 \/ targetHeight quality < h)%Z.
Proof.
  intros formats quality. unfold findBestFormat.
  rewrite findBestFormat_from_none by (pose proof (targetHeight_pos quality); lia).
  split; [now intros [_ H]|now split].
Qed.

(** X6. The first line of the table with exactly the target height in an
    mp4 container is chosen, whatever comes before or after it. *)
Theorem findBestFormat_first_exact_mp4 :
  forall (before after : list string) (line quality id container : string),
    (forall l, In l before -> exact_match (targetHeight quality) l = false) ->
    format_entry line = Some (id, container, Some (targetHeight quality)) ->
    container = "mp4" ->
    findBestFormat (before ++ line :: after)%list quality = Some id.
Proof.
  intros before after line quality id container N E ->. unfold findBestFormat.
  generalize (@None string) as best, 0%Z as bestRes.
  induction before as [|l before IH]; intros best bestRes.
  - simpl app. rewrite findBestFormat_from_cons, E. simpl.
    now rewrite Z.eqb_refl.
  - simpl app. rewrite findBestFormat_from_cons.
    pose proof (N l (or_introl eq_refl)) as X. unfold exact_match in X.
    assert (N' : forall l0, In l0 before -> exact_match (targetHeight quality) l0 = false)
      by (intros l0 I; apply N; now right).
    destruct (format_entry l) as [[[i c] h]|]; [|now apply IH].
    rewrite X.
    destruct (num_le h (targetHeight quality) && JS.num_gt h (Some bestRes));
      now apply IH.
Qed.

Lemma findBestFormat_first_exact_mp4_witness :
  findBestFormat sample_formats "1080p" = Some "137".
Proof.
  exact (findBestFormat_first_exact_mp4
           (firstn 4 sample_formats) [] (nth 4 sample_formats "") "1080p" "137" "mp4"
           ltac:(intros l [<-|[<-|[<-|[<-|[]]]]]; reflexivity) eq_refl eq_refl).
Defined.

Lemma findBestFormat_from_best target formats :
  (forall l, In l formats -> exact_match target l = false) ->
  forall best bestRes r,
    findBestFormat_from target formats best bestRes = r ->
    (r = best
     /\ forall line id container h,
          In line formats -> format_entry line = Some (id, container, Some h) ->
          (h <= target)%Z -> (h <= bestRes)%Z)
    \/ exists line id container h,
         r = Some id /\ In line formats
         /\ format_entry line = Some (id, container, Some h)
         /\ (bestRes < h <= target)%Z
         /\ forall line' id' container' h',
              In line' formats -> format_entry line' = Some (id', container', Some h') ->
              (h' <= target)%Z -> (h' <= h)%Z.
Proof.
  induction formats as [|line rest IH]; intros N best bestRes r R.
  - left. split; [now rewrite <- R|intros ? ? ? ? []].
  - rewrite findBestFormat_from_cons in R.
    pose proof (N line (or_introl eq_refl)) as X. unfold exact_match in X.
    assert (N' : forall l, In l rest -> exact_match target l = false)
      by (intros l I; apply N; now right).
    specialize (IH N').
    destruct (format_entry line) as [[[fid c] h]|] eqn:E.
    + rewrite X in R.
      destruct (num_le h target && JS.num_gt h (Some bestRes)) eqn:Y.
      * apply andb_prop in Y as [Y1 Y2].
        destruct h as [h|]; [|discriminate]. simpl in Y1, Y2.
        apply Z.leb_le in Y1. apply Z.ltb_lt in Y2.
        right. apply IH in R.
        destruct R as [[-> H]|(l & i & c' & h' & -> & I & F & B & H)].
        -- exists line, fid, c, h. repeat split; auto; try lia; [now left|].
           intros l' i' c'' h'' [<-|I'] F' L.
           ++ rewrite E in F'. injection F' as -> -> ->. lia.
           ++ now apply (H l' i' c'' h'').
        -- exists l, i, c', h'. repeat split; auto; try lia; [now right|].
           intros l' i' c'' h'' [<-|I'] F' L.
           ++ rewrite E in F'. injection F' as -> -> ->. lia.
           ++ now apply (H l' i' c'' h'').
      * apply IH in R.
        destruct R as [[-> H]|(l & i & c' & h' & -> & I & F & B & H)].
        -- left. split; [reflexivity|].
           intros l' i' c'' h'' [<-|I'] F' L.
           ++ rewrite E in F'. injection F' as -> -> ->.
              apply andb_false_iff in Y. simpl in Y.
              destruct Y as [Y|Y]; [apply Z.leb_gt in Y|apply Z.ltb_ge in Y]; lia.
           ++ now apply (H l' i' c'' h'').
        -- right. exists l, i, c', h'. repeat split; auto; try lia; [now right|].
           intros l' i' c'' h'' [<-|I'] F' L.
           ++ rewrite E in F'. injection F' as -> -> ->.
              apply andb_false_iff in Y. simpl in Y.
              destruct Y as [Y|Y]; [apply Z.leb_gt in Y|apply Z.ltb_ge in Y]; lia.
           ++ now apply (H l' i' c'' h'').
    + apply IH in R.
      destruct R as [[-> H]|(l & i & c' & h' & -> & I & F & B & H)].
      * left. split; [reflexivity|].
        intros l' i' c'' h'' [<-|I'] F' L; [congruence|now apply (H l' i' c'' h'')].
      * right. exists l, i, c', h'. repeat split; auto; try lia; [now right|].
        intros l' i' c'' h'' [<-|I'] F' L; [congruence|now apply (H l' i' c'' h'')].
Qed.

(** X7. Without a line of exactly the target height in an mp4 container,
    the id returned is that of a line whose height is the greatest among
    the heights of the table that do not exceed the target. *)
Theorem findBestFormat_closest_below_target :
  forall (formats : list string) (quality id : string),
    (forall l, In l formats -> exact_match (targetHeight quality) l = false) ->
    findBestFormat formats quality = Some id ->
    exists line container h,
      In line formats
      /\ format_entry line = Some (id, container, Some h)
      /\ forall line' id' container' h',
           In line' formats ->
           format_entry line' = Some (id', container', Some h') ->
           (h' <= targetHeight quality)%Z -> (h' <= h)%Z.
Proof.
  intros formats quality id N R. unfold findBestFormat in R.
  apply findBestFormat_from_best in R; [|exact N].
  destruct R as [[R _]|(l & i & c & h & R & I & F & _ & H)]; [discriminate|].
  injection R as <-. now exists l, c, h.
Qed.

Lemma findBestFormat_closest_below_target_witness :
  exists line container h,
    In line (firstn 3 sample_formats)
    /\ format_entry line = Some ("247", container, Some h)
    /\ forall line' id' container' h',
         In line' (firstn 3 sample_formats) ->
         format_entry line' = Some (id', container', Some h') ->
         (h' <= targetHeight "1080p")%Z -> (h' <= h)%Z.
Proof.
  exact (findBestFormat_closest_below_target (firstn 3 sample_formats) "1080p" "247"
           ltac:(intros l [<-|[<-|[<-|[]]]]; reflexivity) eq_refl).
Defined.

(* ------------------------------------------------------------------ *)
(** ** The playlist routes *)

Lemma strip_prefix_app (p s r : string) :
  Str.strip_prefix p s = Some r -> s = p ++ r.
Proof.
  revert s. induction p as [|a p IH]; intros s H; simpl in *.
  - now injection H as ->.
  - destruct s as [|b s]; [discriminate|].
    destruct (Ascii.eqb a b) eqn:E; [|discriminate].
    apply Ascii.eqb_eq in E. subst b. f_equal. now apply IH.
Qed.

Lemma has_In {V : Type} (m : list (string * V)) (e : string * V) :
  In e m -> JsMap.has m (fst e) = true.
Proof.
  unfold JsMap.has. induction m as [|[k v] r IH]; simpl; [tauto|].
  intros [<-|I]; simpl.
  - now rewrite String.eqb_refl.
  - destruct (String.eqb k (fst e)); [reflexivity|now apply IH].
Qed.

(** A name the directory listing gives is a plain name, and the disk
    holds something under the directory at that name. *)
Lemma readdirSync_In (d : Fs.Disk) (dir file : string) :
  In file (readdirSync d dir) ->
  file <> "" /\ Str.has_char "/" file = false
  /\ Fs.existsSync d (Fs.join dir file) = true.
Proof.
  unfold readdirSync. rewrite in_flat_map. intros (e & I & H).
  destruct (Str.strip_prefix (dir ++ "/") (fst e)) as [name|] eqn:S; [|destruct H].
  destruct (String.eqb name "" || Str.has_char "/" name) eqn:B; [destruct H|].
  destruct H as [<-|[]].
  apply orb_false_iff in B as [B1 B2].
  split; [now apply String.eqb_neq|]. split; [exact B2|].
  apply strip_prefix_app in S. rewrite append_assoc in S.
  unfold Fs.existsSync, Fs.join. rewrite <- S. now apply has_In.
Qed.

Lemma playlist_directory_some download d dir :
  playlist_directory download d = Some dir ->
  filePath download = Some dir /\ dir <> ""
  /\ Fs.existsSync d dir = true /\ Fs.isDirectory d dir = true.
Proof.
  unfold playlist_directory.
  destruct (filePath download) as [[|c p]|]; simpl; try discriminate.
  destruct (Fs.existsSync d (String c p)) eqn:X; simpl; [|discriminate].
  destruct (Fs.isDirectory d (String c p)) eqn:Y; simpl; [|discriminate].
  intros [= <-]. split; [reflexivity|]. split; [discriminate|]. now split.
Qed.

(** X8. The file route of a playlist sends only a file that is on the
    disk, directly inside the folder the job's record points to, and
    whose name ends in [.mp4]; the record is the one the id resolves to
    and passes the playlist test. *)
Theorem playlist_file_is_video_of_the_folder :
  forall (id fileIndex : string) (sent : SendOutcome) (m : Downloads) (d : Fs.Disk)
         (path : string),
    playlistFileHandler id fileIndex sent m d = PlaylistFileSent path ->
    exists download dir file,
      getDownloadProgress id m = Some download
      /\ isPlaylist download = true
      /\ filePath download = Some dir
      /\ Fs.isDirectory d dir = true
      /\ path = Fs.join dir file
      /\ Str.has_char "/" file = false
      /\ Str.endsWith file ".mp4" = true
      /\ Fs.existsSync d path = true.
Proof.
  intros id fileIndex sent m d path. unfold playlistFileHandler.
  destruct (String.eqb id ""); [discriminate|].
  destruct (String.eqb fileIndex ""); [discriminate|].
  destruct (getDownloadProgress id m) as [download|]; [|discriminate].
  destruct (isPlaylist download) eqn:P; [|discriminate]. simpl negb. cbv iota.
  destruct (playlist_directory download d) as [dir|] eqn:D; [|discriminate].
  destruct (Str.parseInt10 fileIndex) as [idx|]; [|discriminate].
  destruct ((idx <? 0)%Z || (Z.of_nat (length (playlist_videos d dir)) <=? idx)%Z) eqn:B;
    [discriminate|].
  destruct (Fs.existsSync d (Fs.join dir (nth (Z.to_nat idx) (playlist_videos d dir) "")))
    eqn:X; [|discriminate].
  simpl negb. cbv iota. destruct sent; try discriminate.
  intros [= <-].
  apply orb_false_iff in B as [B1 B2].
  apply Z.ltb_ge in B1. apply Z.leb_gt in B2.
  assert (I : In (nth (Z.to_nat idx) (playlist_videos d dir) "") (playlist_videos d dir))
    by (apply nth_In; lia).
  unfold playlist_videos in I at 2. apply filter_In in I as [I E].
  apply readdirSync_In in I as (_ & S & _).
  apply playlist_directory_some in D as (F & _ & _ & Dir).
  exists download, dir, (nth (Z.to_nat idx) (playlist_videos d dir) "").
  repeat split; auto.
Qed.

Lemma playlist_file_is_video_of_the_folder_witness :
  exists download dir file,
    getDownloadProgress "playlist_abcdefghijk_1001" mix_registry = Some download
    /\ isPlaylist download = true
    /\ filePath download = Some dir
    /\ Fs.isDirectory mix_disk dir = true
    /\ "/app/downloads/Mix/02 - Theme.mp4" = Fs.join dir file
    /\ Str.has_char "/" file = false
    /\ Str.endsWith file ".mp4" = true
    /\ Fs.existsSync mix_disk "/app/downloads/Mix/02 - Theme.mp4" = true.
Proof.
  exact (playlist_file_is_video_of_the_folder
           "playlist_abcdefghijk_1001" "1" Streamed mix_registry mix_disk
           "/app/downloads/Mix/02 - Theme.mp4" eq_refl).
Defined.

(** X9. The two playlist routes agree on the file: for the entry at
    position [i] of the listing, the file route, asked for an index whose
    decimal reading is [i], calls [res.sendFile] on the path of that
    entry, and answers by what Express makes of the call: the file when
    it is streamed, 500 when Express refuses it (as it does for a name
    that starts with a dot and for a directory). *)
Theorem playlist_listing_entry_reaches_sendFile :
  forall (id fileIndex : string) (sent : SendOutcome) (m : Downloads) (d : Fs.Disk)
         (size : string -> Z)
         (playlistId : string) (ttl : option string) (files : list (string * string * Z))
         (i : nat) (name path : string) (sz : Z),
    playlistFilesHandler id m d size = PlaylistFiles playlistId ttl files ->
    nth_error files i = Some (name, path, sz) ->
    Str.parseInt10 fileIndex = Some (Z.of_nat i) ->
    playlistFileHandler id fileIndex sent m d = playlist_sendFile path sent.
Proof.
  intros id fileIndex sent m d size pid ttl files i name path sz.
  unfold playlistFilesHandler, playlistFileHandler.
  destruct (String.eqb id ""); [discriminate|].
  destruct (getDownloadProgress id m) as [download|]; [|discriminate].
  destruct (isPlaylist download); [|discriminate]. simpl negb. cbv iota.
  destruct (playlist_directory download d) as [dir|]; [|discriminate].
  intros [= <- <- <-] N P.
  destruct (String.eqb fileIndex "") eqn:E.
  { apply String.eqb_eq in E. subst fileIndex. discriminate. }
  rewrite P.
  rewrite nth_error_map in N.
  destruct (nth_error (playlist_videos d dir) i) as [file|] eqn:F; [|discriminate].
  injection N as <- <- <-.
  assert (L : (i < length (playlist_videos d dir))%nat)
    by (apply nth_error_Some; congruence).
  replace ((Z.of_nat i <? 0)%Z) with false by (symmetry; apply Z.ltb_ge; lia).
  replace ((Z.of_nat (length (playlist_videos d dir)) <=? Z.of_nat i)%Z) with false
    by (symmetry; apply Z.leb_gt; lia).
  simpl orb. cbv iota. rewrite Nat2Z.id.
  rewrite (nth_error_nth _ _ "" F).
  assert (I : In file (playlist_videos d dir)) by (eapply nth_error_In; eauto).
  unfold playlist_videos in I. apply filter_In in I as [I _].
  apply readdirSync_In in I as (_ & _ & X). now rewrite X.
Qed.

Lemma playlist_listing_entry_reaches_sendFile_witness :
  playlistFileHandler "playlist_abcdefghijk_1001" "1" (Refused "Not Found")
                      mix_registry mix_disk
  = PlaylistFailure 500 "Failed to serve file: Not Found".
Proof.
  exact (playlist_listing_entry_reaches_sendFile
           "playlist_abcdefghijk_1001" "1" (Refused "Not Found")
           mix_registry mix_disk (fun _ => 0%Z)
           "playlist_abcdefghijk_1001" (Some "Playlist_Mix")
           [ ("01 - Intro.mp4", "/app/downloads/Mix/01 - Intro.mp4", 0%Z)
           ; ("02 - Theme.mp4", "/app/downloads/Mix/02 - Theme.mp4", 0%Z) ]
           1 "02 - Theme.mp4" "/app/downloads/Mix/02 - Theme.mp4" 0%Z
           eq_refl eq_refl eq_refl).
Defined.

(* ------------------------------------------------------------------ *)
(** ** The path of a finished job *)

Lemma has_set_same {V : Type} (m : list (string * V)) k v :
  JsMap.has (JsMap.set m k v) k = true.
Proof. unfold JsMap.has. now rewrite get_set_same. Qed.

Lemma has_set_mono {V : Type} (m : list (string * V)) k v k' :
  JsMap.has m k' = true -> JsMap.has (JsMap.set m k v) k' = true.
Proof.
  unfold JsMap.has. destruct (string_dec k k') as [->|N].
  - now rewrite get_set_same.
  - now rewrite get_set_other.
Qed.

(** X10. [getDownloadFilePath] gives a path exactly for a completed job
    stored under the very id asked for.  The path is then the [filePath]
    of the job's record afterwards, the record keeps its status and no
    other record changes.  The disk is as before when the call returns:
    for a missing file the writing of a placeholder is only started, so
    the path returned need not exist.  When no path is given, registry
    and disk are unchanged and no placeholder is started. *)
Theorem getDownloadFilePath_outcome :
  forall (id : string) (m : Downloads) (d : Fs.Disk),
    match getDownloadFilePath id m d with
    | (Some path, m', d') =>
        (exists download,
            JsMap.get m id = Some download /\ status download = completed)
        /\ (exists r,
               JsMap.get m' id = Some r /\ filePath r = Some path
               /\ status r = completed)
        /\ d' = d
        /\ (forall k, k <> id -> JsMap.get m' k = JsMap.get m k)
        /\ placeholder_started id m d
           = (if Fs.existsSync d path then None else Some path)
    | (None, m', d') =>
        m' = m /\ d' = d
        /\ placeholder_started id m d = None
        /\ forall download, JsMap.get m id = Some download ->
                            status download <> completed
    end.
Proof.
  intros id m d. unfold getDownloadFilePath, placeholder_started, createDummyVideoFile.
  destruct (JsMap.get m id) as [download|] eqn:G; [|now repeat split].
  destruct (status_eqb (status download) completed) eqn:S; simpl negb; cbv iota.
  - apply status_eqb_eq in S.
    destruct (filePath download) as [[|c path]|] eqn:F; simpl JS.truthy; cbv iota zeta.
    + split; [now exists download|].
      split; [eexists; rewrite get_set_same; now repeat split|].
      split; [now destruct (Fs.existsSync d _)|].
      split; [|reflexivity].
      intros k N. apply get_set_other. congruence.
    + simpl JS.or_else.
      split; [now exists download|].
      split; [now exists download|].
      split; [now destruct (Fs.existsSync d _)|]. now split.
    + split; [now exists download|].
      split; [eexists; rewrite get_set_same; now repeat split|].
      split; [now destruct (Fs.existsSync d _)|].
      split; [|reflexivity].
      intros k N. apply get_set_other. congruence.
  - split; [reflexivity|]. split; [reflexivity|]. split; [reflexivity|].
    intros r [= <-] E. rewrite E in S. discriminate.
Qed.

(* ------------------------------------------------------------------ *)
(** ** The simulated progress *)

Lemma simulate_from (downloadId : string) (n : nat) :
  forall (j : Z) (m : Downloads) (d : DownloadProgress),
    (0 <= j < 19)%Z ->
    JsMap.get m downloadId = Some d ->
    status d <> completed -> status d <> error ->
    exists r,
      JsMap.get (snd (simulate (S n) downloadId (5 * j) m)) downloadId = Some r
      /\ status r = downloading
      /\ progress r = inject_Z (5 * Z.min (j + Z.of_nat (S n)) 19)
      /\ videoId r = videoId d /\ title r = title d /\ filePath r = filePath d
      /\ forall k, k <> downloadId ->
                   JsMap.get (snd (simulate (S n) downloadId (5 * j) m)) k = JsMap.get m k.
Proof.
  induction n as [|n IH]; intros j m d J G C E.
  - cbn [simulate]. unfold simulate_tick.
    replace (95 <? 5 * j + 5)%Z with false by (symmetry; apply Z.ltb_ge; lia).
    rewrite G.
    replace (negb (status_eqb (status d) completed)
             && negb (status_eqb (status d) error)) with true
      by (destruct (status d); simpl; congruence).
    cbn [snd]. eexists. rewrite get_set_same. split; [reflexivity|]. cbn [status progress videoId title filePath].
    split; [reflexivity|].
    split; [f_equal; lia|].
    repeat (split; [reflexivity|]).
    intros k N. apply get_set_other. congruence.
  - remember (S n) as n1. cbn [simulate]. unfold simulate_tick.
    replace (95 <? 5 * j + 5)%Z with false by (symmetry; apply Z.ltb_ge; lia).
    rewrite G.
    replace (negb (status_eqb (status d) completed)
             && negb (status_eqb (status d) error)) with true
      by (destruct (status d); simpl; congruence).
    set (d1 := mkDownload (videoId d) (inject_Z (5 * j + 5)) downloading (title d)
                          (Some ("Downloading: " ++ JS.string_of_Z (5 * j + 5) ++ "%"))
                          (filePath d)).
    set (m1 := JsMap.set m downloadId d1).
    assert (G1 : JsMap.get m1 downloadId = Some d1) by apply get_set_same.
    destruct (Z.eq_dec j 18) as [->|N18].
    + subst n1. cbn [simulate]. unfold simulate_tick. simpl Z.ltb. cbv iota.
      cbn [snd]. exists d1. split; [exact G1|]. unfold d1. cbn [status progress videoId title filePath].
      split; [reflexivity|]. split; [f_equal; lia|].
      repeat (split; [reflexivity|]).
      intros k N. apply get_set_other. congruence.
    + replace (5 * j + 5)%Z with (5 * (j + 1))%Z in * by lia.
      destruct (IH (j + 1)%Z m1 d1) as (r & R1 & R2 & R3 & R4 & R5 & R6 & R7);
        [lia|exact G1|discriminate|discriminate|].
      subst n1. exists r. split; [exact R1|]. split; [exact R2|].
      split; [rewrite R3; f_equal; lia|].
      repeat (split; [assumption|]).
      intros k N. rewrite R7 by exact N. apply get_set_other. congruence.
Qed.

(** X11. The timer of [simulateProgress], started on a job that is
    neither completed nor failed and left alone for [n >= 1] firings,
    leaves the job [downloading] at [5 * min n 19] percent: it stops at
    95 and never completes the job; video id, title and file path of the
    record and every other record are as before. *)
Theorem simulateProgress_stops_at_95 :
  forall (n : nat) (downloadId : string) (m : Downloads) (d : DownloadProgress),
    (1 <= n)%nat ->
    JsMap.get m downloadId = Some d ->
    status d <> completed -> status d <> error ->
    exists r,
      JsMap.get (snd (simulate n downloadId 0 m)) downloadId = Some r
      /\ status r = downloading
      /\ progress r = inject_Z (5 * Z.min (Z.of_nat n) 19)
      /\ videoId r = videoId d /\ title r = title d /\ filePath r = filePath d
      /\ forall k, k <> downloadId ->
                   JsMap.get (snd (simulate n downloadId 0 m)) k = JsMap.get m k.
Proof.
  intros [|n] downloadId m d N G C E; [lia|].
  exact (simulate_from downloadId n 0 m d ltac:(lia) G C E).
Qed.

Lemma simulateProgress_stops_at_95_witness :
  exists r,
    JsMap.get (snd (simulate 40 "abcdefghijk_1001" 0
                             [("abcdefghijk_1001", new_download "abcdefghijk")]))
              "abcdefghijk_1001" = Some r
    /\ status r = downloading
    /\ progress r = inject_Z (5 * Z.min (Z.of_nat 40) 19)
    /\ videoId r = "abcdefghijk" /\ title r = None /\ filePath r = None
    /\ forall k, k <> "abcdefghijk_1001" ->
                 JsMap.get (snd (simulate 40 "abcdefghijk_1001" 0
                                          [("abcdefghijk_1001", new_download "abcdefghijk")])) k
                 = JsMap.get [("abcdefghijk_1001", new_download "abcdefghijk")] k.
Proof.
  exact (simulateProgress_stops_at_95 40 "abcdefghijk_1001"
           [("abcdefghijk_1001", new_download "abcdefghijk")]
           (new_download "abcdefghijk")
           ltac:(lia) eq_refl ltac:(discriminate) ltac:(discriminate)).
Defined.

(* ------------------------------------------------------------------ *)
(** ** The file routes together *)

Lemma emit_effects_inv (a b : Effect) (s s' : Server) :
  effects s' = effects s ->
  effects (emit a s') = (effects s ++ [b])%list -> a = b.
Proof.
  simpl. intros -> H. apply app_inv_head in H. now injection H.
Qed.

(** X12. When the check route answers that the file exists, the file
    route asked for the same id in the same state gets as far as
    [res.sendFile] on the [filePath] of the job the id resolves to, which
    is completed and on disk, and neither route changes registry or
    disk.  The answer is then what Express makes of the call: the file
    when it is streamed, 500 when Express refuses it (as it does for a
    name that starts with a dot and for a directory). *)
Theorem positive_check_reaches_sendFile :
  forall (id : string) (sent : SendOutcome) (s : Server),
    effects (checkFileHandler id s)
    = (effects s ++ [Reply (CheckResult true None)])%list ->
    exists key download path,
      getDownloadProgress_entry id (activeDownloads s) = Some (key, download)
      /\ status download = completed
      /\ filePath download = Some path
      /\ Fs.existsSync (disk s) path = true
      /\ checkFileHandler id s = emit (Reply (CheckResult true None)) s
      /\ serveFileHandler id sent s
         = emit (Reply (sendFile path sent "Failed to get file")) s.
Proof.
  intros id sent s. unfold checkFileHandler, serveFileHandler.
  destruct (String.eqb id "").
  { intros H. apply emit_effects_inv in H; [discriminate|reflexivity]. }
  destruct (getDownloadProgress_entry id (activeDownloads s)) as [[key download]|].
  2:{ intros H. apply emit_effects_inv in H; [discriminate|reflexivity]. }
  destruct (status_eqb (status download) completed) eqn:S; simpl negb; cbv iota.
  2:{ intros H. apply emit_effects_inv in H; [discriminate|reflexivity]. }
  destruct (JS.truthy (filePath download)) eqn:T; simpl negb; cbv iota.
  2:{ intros H. apply emit_effects_inv in H; [discriminate|reflexivity]. }
  destruct (Fs.existsSync (disk s) (JS.or_else (filePath download) "")) eqn:X;
    simpl negb; cbv iota.
  2:{ intros H. apply emit_effects_inv in H; [discriminate|reflexivity]. }
  intros _. apply status_eqb_eq in S.
  destruct (filePath download) as [[|c p]|] eqn:F; try discriminate.
  exists key, download, (String c p). now repeat split.
Qed.

Lemma positive_check_reaches_sendFile_witness :
  exists key download path,
    getDownloadProgress_entry "abcdefghijk" (activeDownloads finished_clip)
    = Some (key, download)
    /\ status download = completed
    /\ filePath download = Some path
    /\ Fs.existsSync (disk finished_clip) path = true
    /\ checkFileHandler "abcdefghijk" finished_clip
       = emit (Reply (CheckResult true None)) finished_clip
    /\ serveFileHandler "abcdefghijk" (Refused "EISDIR, read") finished_clip
       = emit (Reply (sendFile path (Refused "EISDIR, read") "Failed to get file"))
              finished_clip.
Proof.
  exact (positive_check_reaches_sendFile "abcdefghijk" (Refused "EISDIR, read")
           finished_clip eq_refl).
Defined.

(* ------------------------------------------------------------------ *)
(** ** What a deletion takes off the disk *)

Lemma get_remove_other {V : Type} (m : list (string * V)) k k' :
  k <> k' -> JsMap.get (JsMap.remove m k) k' = JsMap.get m k'.
Proof.
  intros N. induction m as [|[k0 v0] r IH]; simpl; [reflexivity|].
  destruct (String.eqb k0 k) eqn:E; simpl.
  - apply String.eqb_eq in E. subst k0.
    destruct (String.eqb k k') eqn:E'; [apply String.eqb_eq in E'; contradiction|reflexivity].
  - destruct (String.eqb k0 k'); [reflexivity|exact IH].
Qed.

Lemma get_filter_keys {V : Type} (q : string -> bool) (m : list (string * V)) k :
  JsMap.get (filter (fun e => q (fst e)) m) k = if q k then JsMap.get m k else None.
Proof.
  induction m as [|[k0 v0] r IH]; simpl; [now destruct (q k)|].
  destruct (q k0) eqn:Q; simpl.
  - destruct (String.eqb k0 k) eqn:E; [|exact IH].
    apply String.eqb_eq in E. subst k0. now rewrite Q.
  - destruct (String.eqb k0 k) eqn:E; [|exact IH].
    apply String.eqb_eq in E. subst k0. rewrite IH. now rewrite Q.
Qed.

Lemma fold_later_In (rest : list DownloadProgress) :
  forall first, In (fold_left later_of rest first) (first :: rest).
Proof.
  induction rest as [|x rest IH]; intros first; simpl; [now left|].
  destruct (IH (later_of first x)) as [H|H]; [|now right; right].
  rewrite <- H. unfold later_of.
  destruct (JS.num_gt (stamp_of x) (stamp_of first)); [now right; left|now left].
Qed.

Lemma remove_artifact_loss download d p :
  Fs.existsSync d p = true ->
  Fs.existsSync (remove_artifact download d) p = false ->
  exists path,
    filePath download = Some path
    /\ (p = path \/ JS.startsWith p (path ++ "/") = true).
Proof.
  unfold remove_artifact, Fs.existsSync, JsMap.has. intros H.
  destruct (filePath download) as [[|c path]|]; simpl JS.truthy; simpl JS.or_else;
    cbv iota; try (simpl andb; cbv iota; rewrite H; discriminate).
  destruct (match JsMap.get d (String c path) with Some _ => true | None => false end);
    simpl andb; cbv iota; [|rewrite H; discriminate].
  exists (String c path). split; [reflexivity|].
  destruct (Fs.isDirectory d (String c path)).
  - unfold Fs.rmdirSync_recursive in H0.
    rewrite (get_filter_keys
               (fun k => negb (String.eqb k (String c path)
                               || JS.startsWith k (String c path ++ "/")))) in H0.
    destruct (String.eqb p (String c path)) eqn:E.
    + left. now apply String.eqb_eq.
    + destruct (JS.startsWith p (String c path ++ "/")) eqn:P; [now right|].
      simpl in H0. rewrite H in H0. discriminate.
  - unfold Fs.unlinkSync in H0.
    destruct (string_dec (String c path) p) as [<-|N]; [now left|].
    rewrite get_remove_other in H0 by exact N. rewrite H in H0. discriminate.
Qed.

(** X13. Whatever a delete request takes off the disk is the artifact of
    a job the request matches: a path that was on disk and is gone
    afterwards is the [filePath] of a matching record or lies inside
    that folder. *)
Theorem delete_takes_only_a_matching_artifact :
  forall (id : string) (s : Server) (p : string),
    Fs.existsSync (disk s) p = true ->
    Fs.existsSync (disk (deleteDownloadHandler id s)) p = false ->
    exists download path,
      In download (matchingDownloads id (activeDownloads s))
      /\ filePath download = Some path
      /\ (p = path \/ JS.startsWith p (path ++ "/") = true).
Proof.
  intros id s p H. unfold deleteDownloadHandler.
  destruct (String.eqb id ""); [simpl; congruence|].
  destruct (matchingDownloads id (activeDownloads s)) as [|first rest];
    [simpl; congruence|].
  simpl disk. intros L.
  destruct (remove_artifact_loss _ _ _ H L) as (path & F & P).
  exists (fold_left later_of rest first), path.
  split; [apply fold_later_In|now split].
Qed.

Lemma delete_takes_only_a_matching_artifact_witness :
  exists download path,
    In download (matchingDownloads "abcdefghijk_1001" (activeDownloads finished_clip))
    /\ filePath download = Some path
    /\ (clip_file = path \/ JS.startsWith clip_file (path ++ "/") = true).
Proof.
  exact (delete_takes_only_a_matching_artifact
           "abcdefghijk_1001" finished_clip clip_file eq_refl eq_refl).
Defined.

(* ------------------------------------------------------------------ *)
(** ** The registry over time *)

Lemma Extends_refl m : Extends m m.
Proof. exists []. now rewrite app_nil_r. Qed.

Lemma Extends_trans m1 m2 m3 : Extends m1 m2 -> Extends m2 m3 -> Extends m1 m3.
Proof.
  intros [a Ha] [b Hb]. exists (a ++ b)%list. now rewrite Hb, Ha, app_assoc.
Qed.

Lemma Extends_set m k v : Extends m (JsMap.set m k v).
Proof.
  destruct (JsMap.get m k) as [d|] eqn:G.
  - exists []. rewrite app_nil_r. now apply keys_set_present with (d := d).
  - exists [k]. now apply keys_set_absent.
Qed.

Lemma Extends_update m k f : Extends m (JsMap.update m k f).
Proof.
  unfold JsMap.update. destruct (JsMap.get m k); [apply Extends_set|apply Extends_refl].
Qed.

Lemma Extends_update_r m m' k f : Extends m m' -> Extends m (JsMap.update m' k f).
Proof. intros H. eapply Extends_trans; [exact H|apply Extends_update]. Qed.

Lemma has_keys {V : Type} (m : list (string * V)) k :
  JsMap.has m k = true <-> In k (map fst m).
Proof.
  unfold JsMap.has. induction m as [|[k0 v0] r IH]; simpl.
  - split; [discriminate|tauto].
  - destruct (String.eqb k0 k) eqn:E.
    + apply String.eqb_eq in E. subst k0. split; auto.
    + rewrite IH. split; [tauto|]. intros [->|H]; [|exact H].
      now rewrite String.eqb_refl in E.
Qed.

Lemma attempt_failed_Extends i t n dl msg s :
  Extends (activeDownloads s) (activeDownloads (attempt_failed i t n dl msg s)).
Proof.
  unfold attempt_failed, fail_task.
  destruct (S n <? maxRetries)%nat; simpl; [apply Extends_refl|apply Extends_update].
Qed.

Lemma task_step_Extends e i t s :
  Extends (activeDownloads s) (activeDownloads (task_step e i t s)).
Proof.
  unfold task_step.
  destruct e; try (destruct (ctl t); apply Extends_refl).
  - destruct result; destruct (ctl t); try apply Extends_refl.
    + unfold title_resolved. simpl.
      apply Extends_update_r, Extends_update.
    + unfold fail_task. simpl. apply Extends_update.
  - destruct (alive (proc t)); destruct (stdout_throws output); destruct (ctl t);
      try apply Extends_refl; simpl; apply Extends_update.
  - destruct (alive (proc t) && fatal_stderr text); destruct (ctl t); apply Extends_refl.
  - destruct (alive (proc t)); [|destruct (ctl t); apply Extends_refl]. cbv zeta.
    destruct (ctl t); try apply Extends_refl.
    destruct (proc t); try apply attempt_failed_Extends;
      (destruct code as [[| |]|]; try apply attempt_failed_Extends; apply Extends_refl).
  - destruct (ctl t); try apply Extends_refl.
    destruct (proc t); try apply Extends_refl. apply attempt_failed_Extends.
  - destruct (ctl t); try apply Extends_refl.
    eapply Extends_trans; [|apply attempt_failed_Extends]. apply Extends_refl.
  - destruct (ctl t); try apply Extends_refl.
    unfold quality_verified. simpl. apply Extends_update.
Qed.

Lemma step_Extends e s : Extends (activeDownloads s) (activeDownloads (step e s)).
Proof.
  unfold step. destruct (crashed s); [apply Extends_refl|].
  destruct e;
    try (cbv beta iota delta [task_of];
         match goal with
         | |- context [nth_error (tasks s) ?i] =>
             destruct (nth_error (tasks s) i); [apply task_step_Extends|apply Extends_refl]
         end).
  - unfold downloadHandler. destruct (String.eqb reqUrl ""); [apply Extends_refl|].
    cbv zeta. simpl activeDownloads at 2. unfold downloadFromUrl_enter.
    destruct (find is_completed_download _); [apply Extends_refl|].
    destruct (find is_in_progress _); [apply Extends_refl|].
    simpl. apply Extends_set.
  - unfold checkFileHandler. destruct (String.eqb id ""); [apply Extends_refl|].
    destruct (getDownloadProgress_entry id (activeDownloads s)) as [[key d]|];
      [|apply Extends_refl].
    destruct (negb (status_eqb (status d) completed)); [apply Extends_refl|].
    destruct (negb (JS.truthy (filePath d))); [apply Extends_refl|].
    destruct (negb (Fs.existsSync (disk s) (JS.or_else (filePath d) "")));
      [apply Extends_set|apply Extends_refl].
  - unfold serveFileHandler. destruct (String.eqb id ""); [apply Extends_refl|].
    destruct (getDownloadProgress_entry id (activeDownloads s)) as [[key d]|];
      [|apply Extends_refl].
    destruct (negb (JS.truthy (filePath d))); [apply Extends_refl|].
    destruct (negb (Fs.existsSync (disk s) (JS.or_else (filePath d) "")));
      [apply Extends_set|apply Extends_refl].
  - rewrite deleteDownloadHandler_activeDownloads. apply Extends_refl.
  - unfold statusHandler. destruct (getDownloadProgress _ _); apply Extends_refl.
  - unfold progressHandler.
    destruct (String.eqb id ""); [|destruct (getDownloadProgress _ _)]; apply Extends_refl.
  - apply Extends_refl.
  - unfold getDownloadFilePath.
    destruct (JsMap.get (activeDownloads s) id) as [d|]; [|apply Extends_refl].
    destruct (negb (status_eqb (status d) completed)); [apply Extends_refl|].
    destruct (JS.truthy (filePath d)); [apply Extends_refl|].
    simpl. apply Extends_set.
  - apply Extends_refl.
  - apply Extends_refl.
Qed.

(** X14. The registry only grows: over any sequence of events, from any
    state, the keys of the registry stay where they are and new keys
    come after them; so an id that names a job goes on naming one.  No
    request, callback or timer removes a record. *)
Theorem registry_only_grows :
  forall (es : list Event) (s : Server),
    Extends (activeDownloads s) (activeDownloads (run es s))
    /\ forall k, JsMap.has (activeDownloads s) k = true ->
                 JsMap.has (activeDownloads (run es s)) k = true.
Proof.
  assert (G : forall es s, Extends (activeDownloads s) (activeDownloads (run es s))).
  { induction es as [|e r IH]; intros s; [apply Extends_refl|].
    simpl. eapply Extends_trans; [apply step_Extends|apply IH]. }
  intros es s. split; [apply G|].
  intros k H. destruct (G es s) as [added E].
  apply has_keys. rewrite E. apply in_or_app. left. now apply has_keys.
Qed.

(* ------------------------------------------------------------------ *)
(** ** Every event is a transition *)

Lemma replace_nth_id {A : Type} (l : list A) (i : nat) (x : A) :
  nth_error l i = Some x -> replace_nth i x l = l.
Proof.
  revert i. induction l as [|y r IH]; intros [|i]; simpl; try discriminate.
  - now intros [= ->].
  - intros H. now rewrite IH.
Qed.

Lemma with_proc_same (t : Task) : with_proc (proc t) t = t.
Proof. now destruct t. Qed.

Lemma attempt_failed_move i t p n d msg s s0 kills t' :
  t' = with_proc p t ->
  nth_error (tasks s) i = Some t ->
  ctl t = AwaitClose n d ->
  p <> NotStarted \/ p = proc t ->
  kills = [] \/ kills = [Kill i] ->
  tasks s0 = tasks s ->
  effects s0 = (effects s ++ kills)%list ->
  exists u efs,
    JobMove i t u efs
    /\ tasks (attempt_failed i t' n d msg s0) = replace_nth i u (tasks s)
    /\ effects (attempt_failed i t' n d msg s0) = (effects s ++ efs)%list.
Proof.
  intros -> Hi Hc Hp Hk Ht He. unfold attempt_failed, fail_task.
  destruct (S n <? maxRetries)%nat eqn:B.
  - apply Nat.ltb_lt in B.
    exists (with_ctl (Sleeping (S n) d) (with_proc p t)), (kills ++ [SetTimeout i d])%list.
    split; [now apply MvRetry|]. simpl. rewrite Ht, He.
    split; [reflexivity|now rewrite app_assoc].
  - apply Nat.ltb_ge in B.
    exists (with_ctl Thrown (with_proc p t)),
           (kills ++ [ReplyDownload i (Failure 500 (JS.or_else (Some msg) "Download failed"))])%list.
    split; [now apply MvGiveUp with (retryCount := n) (retryDelay := d)|].
    simpl. rewrite Ht, He. split; [reflexivity|now rewrite app_assoc].
Qed.

Lemma task_step_move e i t s :
  nth_error (tasks s) i = Some t ->
  exists u efs,
    JobMove i t u efs
    /\ tasks (task_step e i t s) = replace_nth i u (tasks s)
    /\ effects (task_step e i t s) = (effects s ++ efs)%list.
Proof.
  intros Hi.
  assert (Stay : forall s0, tasks s0 = tasks s -> effects s0 = effects s ->
                            exists u efs,
                              JobMove i t u efs
                              /\ tasks s0 = replace_nth i u (tasks s)
                              /\ effects s0 = (effects s ++ efs)%list).
  { intros s0 Ht He. exists t, []. split; [apply MvNone|].
    rewrite Ht, He, app_nil_r, (replace_nth_id _ _ _ Hi). now split. }
  unfold task_step.
  destruct e; try (destruct (ctl t); now apply Stay).
  - (* the title *)
    destruct result as [stdout|msg]; destruct (ctl t) eqn:Ec; try now apply Stay.
    + eexists _, _. split; [apply (MvTitle i t stdout timestamp Ec)|].
      unfold title_resolved, output_path. simpl.
      split; [reflexivity|]. now rewrite <- app_assoc.
    + eexists _, _.
      split; [apply (MvTitleFailed i t (JS.or_else (Some msg) "Download failed") Ec)|].
      unfold fail_task. simpl. split; reflexivity.
  - (* output *)
    destruct (alive (proc t)); destruct (stdout_throws output);
      destruct (ctl t); now apply Stay.
  - destruct (alive (proc t) && fatal_stderr text); destruct (ctl t); now apply Stay.
  - (* close *)
    destruct (alive (proc t)) eqn:Al; [|destruct (ctl t); now apply Stay]. cbv zeta.
    assert (Cl : exists u efs,
               JobMove i t u efs
               /\ tasks (set_task i (with_proc Closed t) s) = replace_nth i u (tasks s)
               /\ effects (set_task i (with_proc Closed t) s) = (effects s ++ efs)%list).
    { exists (with_proc Closed t), []. split; [now apply MvClosed|].
      simpl. now rewrite app_nil_r. }
    destruct (ctl t) eqn:Ec; try exact Cl.
    assert (Fl : forall msg,
               exists u efs,
                 JobMove i t u efs
                 /\ tasks (attempt_failed i (with_proc Closed t) retryCount retryDelay msg s)
                    = replace_nth i u (tasks s)
                 /\ effects (attempt_failed i (with_proc Closed t) retryCount retryDelay msg s)
                    = (effects s ++ efs)%list).
    { intros msg. apply attempt_failed_move with (p := Closed) (kills := []); auto.
      - left. discriminate.
      - now rewrite app_nil_r. }
    assert (Ok : exists u efs,
               JobMove i t u efs
               /\ tasks (set_task i (with_ctl Verifying (with_proc Closed t)) s)
                  = replace_nth i u (tasks s)
               /\ effects (set_task i (with_ctl Verifying (with_proc Closed t)) s)
                  = (effects s ++ efs)%list).
    { eexists _, []. split; [apply (MvExitZero i t _ _ Ec)|].
      simpl. now rewrite app_nil_r. }
    destruct (proc t); try apply Fl;
      (destruct code as [[| |]|]; try apply Fl; exact Ok).
  - (* the process could not start *)
    destruct (ctl t) eqn:Ec; try now apply Stay.
    destruct (proc t); try now apply Stay.
    apply attempt_failed_move with (p := Closed) (kills := []); auto.
    + left. discriminate.
    + now rewrite app_nil_r.
  - (* the ten-minute timer *)
    destruct (ctl t) eqn:Ec; try now apply Stay.
    destruct (proc t) eqn:Ep.
    2:{ apply attempt_failed_move with (p := Killed) (kills := [Kill i]); auto.
        left. discriminate. }
    all: apply attempt_failed_move with (p := proc t) (kills := [Kill i]); auto.
    all: symmetry; apply with_proc_same.
  - (* the pause is over *)
    destruct (ctl t) eqn:Ec; try now apply Stay.
    eexists _, _. split; [apply (MvWake i t _ _ Ec)|]. simpl. now split.
  - (* the quality was read *)
    destruct (ctl t) eqn:Ec; try now apply Stay.
    eexists _, _. split; [apply (MvVerified i t Ec)|].
    unfold quality_verified. simpl. now split.
Qed.

Lemma step_Transition e s : Transition s (step e s).
Proof.
  unfold step. destruct (crashed s); [now apply TrQuiet|].
  assert (Job : forall i,
             Transition s match nth_error (tasks s) i with
                          | Some t => task_step e i t s
                          | None => s
                          end).
  { intros i. destruct (nth_error (tasks s) i) as [t|] eqn:Hi; [|now apply TrQuiet].
    destruct (task_step_move e i t s Hi) as (u & efs & M & T & E).
    now apply TrJob with (i := i) (t := t) (u := u) (efs := efs). }
  destruct e; try (cbv beta iota delta [task_of]; apply Job).
  - unfold downloadHandler.
    destruct (String.eqb reqUrl ""); [now eapply TrReply|]. cbv zeta.
    unfold downloadFromUrl_enter.
    destruct (find is_completed_download _); [now eapply TrReply|].
    destruct (find is_in_progress _); [now eapply TrReply|].
    now eapply TrCreate.
  - unfold checkFileHandler. destruct (String.eqb id ""); [now eapply TrReply|].
    destruct (getDownloadProgress_entry id (activeDownloads s)) as [[key d]|];
      [|now eapply TrReply].
    destruct (negb (status_eqb (status d) completed)); [now eapply TrReply|].
    destruct (negb (JS.truthy (filePath d))); [now eapply TrReply|].
    destruct (negb (Fs.existsSync (disk s) (JS.or_else (filePath d) "")));
      now eapply TrReply.
  - unfold serveFileHandler. destruct (String.eqb id ""); [now eapply TrReply|].
    destruct (getDownloadProgress_entry id (activeDownloads s)) as [[key d]|];
      [|now eapply TrReply].
    destruct (negb (JS.truthy (filePath d))); [now eapply TrReply|].
    destruct (negb (Fs.existsSync (disk s) (JS.or_else (filePath d) "")));
      now eapply TrReply.
  - unfold deleteDownloadHandler. destruct (String.eqb id ""); [now eapply TrReply|].
    destruct (matchingDownloads id (activeDownloads s)); now eapply TrReply.
  - unfold statusHandler. destruct (getDownloadProgress _ _); now eapply TrReply.
  - unfold progressHandler.
    destruct (String.eqb id ""); [|destruct (getDownloadProgress _ _)]; now eapply TrReply.
  - now eapply TrReply.
  - destruct (getDownloadFilePath id (activeDownloads s) (disk s)) as [[o m] d].
    now apply TrQuiet.
  - now apply TrQuiet.
  - now apply TrQuiet.
Qed.

(* ------------------------------------------------------------------ *)
(** ** Waits, pauses and answers *)

Lemma nth_error_replace_nth_eq {A : Type} (l : list A) (i : nat) (x y : A) :
  nth_error l i = Some y -> nth_error (replace_nth i x l) i = Some x.
Proof.
  revert i. induction l as [|z r IH]; intros [|i]; simpl; try discriminate; auto.
Qed.

Lemma job_effects_app i a b :
  job_effects i (a ++ b) = (job_effects i a ++ job_effects i b)%list.
Proof. apply filter_app. Qed.

Lemma reply_count_app i a b :
  reply_count i (a ++ b) = (reply_count i a + reply_count i b)%nat.
Proof. unfold reply_count. now rewrite job_effects_app, filter_app, length_app. Qed.

Lemma wait_count_app i a b :
  wait_count i (a ++ b) = (wait_count i a + wait_count i b)%nat.
Proof. unfold wait_count. now rewrite job_effects_app, filter_app, length_app. Qed.

(** The effects of a move belong to the job that moves. *)
Lemma JobMove_about i t u efs :
  JobMove i t u efs -> forall j, j <> i -> job_effects j efs = [].
Proof.
  intros M j N. apply Nat.eqb_neq in N.
  assert (N' : Nat.eqb i j = false) by (rewrite Nat.eqb_sym; exact N).
  destruct M; try reflexivity; unfold job_effects; simpl; rewrite ?N'; try reflexivity.
  - destruct H2 as [->| ->]; simpl; now rewrite ?N'.
  - destruct H1 as [->| ->]; simpl; now rewrite ?N'.
Qed.

Lemma JobOk_same_effects i t es es' :
  job_effects i es' = job_effects i es -> JobOk i t es -> JobOk i t es'.
Proof.
  unfold JobOk, reply_count, wait_count. now intros ->.
Qed.

Lemma kills_counts i kills :
  kills = [] \/ kills = [Kill i] ->
  reply_count i kills = 0%nat /\ wait_count i kills = 0%nat /\ Forall timer_ok kills.
Proof.
  intros [->| ->]; unfold reply_count, wait_count, job_effects; simpl;
    rewrite ?Nat.eqb_refl; simpl; repeat split; auto.
  constructor; [exact I|constructor].
Qed.

Lemma answer_counts i r :
  reply_count i [ReplyDownload i r] = 1%nat /\ wait_count i [ReplyDownload i r] = 0%nat.
Proof.
  unfold reply_count, wait_count, job_effects; simpl. now rewrite Nat.eqb_refl.
Qed.

Lemma timer_counts i ms :
  reply_count i [SetTimeout i ms] = 0%nat
  /\ wait_count i [SetTimeout i ms] = if (ms =? attemptTimeout)%Z then 1%nat else 0%nat.
Proof.
  unfold reply_count, wait_count, job_effects; simpl. rewrite Nat.eqb_refl. simpl.
  now destruct (ms =? attemptTimeout)%Z.
Qed.

Lemma retry_delay_cases n :
  (S n < maxRetries)%nat ->
  let d := (firstRetryDelay * 2 ^ Z.of_nat n)%Z in
  (d = 5000 \/ d = 10000)%Z
  /\ (d =? attemptTimeout)%Z = false
  /\ (d * 2 = firstRetryDelay * 2 ^ Z.of_nat (S n))%Z.
Proof.
  unfold maxRetries. intros H.
  destruct n as [|[|n]]; [| |lia]; vm_compute; auto.
Qed.


(** A move keeps the account of the job, and sets only timers of the
    retry loop. *)
Lemma JobMove_JobOk i t u efs es :
  JobOk i t es -> JobMove i t u efs ->
  JobOk i u (es ++ efs) /\ Forall timer_ok efs.
Proof.
  intros J M. unfold JobOk in *.
  destruct M as [ |Al|stdout ts Ec|msg Ec|n d Ec|n d p kills Ec Lt Hp Hk
                 |n d p kills msg Ec Ge Hk|n d Ec|Ec].
  - rewrite app_nil_r. split; [exact J|constructor].
  - split; [|constructor]. rewrite app_nil_r. simpl ctl. simpl proc.
    destruct (ctl t);
      try (destruct J as (_ & _ & P); rewrite P in Al; discriminate);
      try exact J.
    + destruct J as (A & B & C & D & _). splits; auto; discriminate.
    + destruct J as (A & B & C & D & _). splits; auto; try lia; discriminate.
  - rewrite Ec in J. destruct J as (R & W & _). simpl ctl. simpl proc.
    rewrite reply_count_app, wait_count_app, R, W.
    unfold reply_count, wait_count, job_effects. simpl. rewrite Nat.eqb_refl. simpl.
    split.
    + splits; auto; try discriminate. unfold maxRetries. lia.
    + constructor; [exact I|]. constructor; [now left|constructor].
  - rewrite Ec in J. destruct J as (R & W & _). simpl ctl.
    rewrite reply_count_app, wait_count_app, R, W.
    destruct (answer_counts i (Failure 500 msg)) as [-> ->].
    split; [split; lia|]. constructor; [exact I|constructor].
  - rewrite Ec in J. destruct J as (R & W & L & _). simpl ctl. simpl proc.
    rewrite app_nil_r. split; [|constructor]. splits; auto. lia.
  - rewrite Ec in J. destruct J as (R & W & L & D & P). simpl ctl. simpl proc.
    destruct (kills_counts i kills Hk) as (K1 & K2 & K3).
    destruct (retry_delay_cases n Lt) as (D1 & D2 & D3). rewrite <- D in D1, D2, D3.
    rewrite !reply_count_app, !wait_count_app, R, W, K1, K2.
    destruct (timer_counts i d) as [-> ->]. rewrite D2.
    split.
    + splits; auto; try lia.
      destruct Hp as [Hp|Hp]; [exact Hp|now rewrite Hp].
    + apply Forall_app. split; [exact K3|].
      constructor; [|constructor]. simpl. tauto.
  - rewrite Ec in J. destruct J as (R & W & L & _). simpl ctl.
    destruct (kills_counts i kills Hk) as (K1 & K2 & K3).
    rewrite !reply_count_app, !wait_count_app, R, W, K1, K2.
    destruct (answer_counts i (Failure 500 msg)) as [-> ->].
    split; [split; lia|].
    apply Forall_app. split; [exact K3|]. constructor; [exact I|constructor].
  - rewrite Ec in J. destruct J as (R & W & L & D & P). simpl ctl. simpl proc.
    rewrite reply_count_app, wait_count_app, R, W.
    destruct (timer_counts i attemptTimeout) as [-> ->]. rewrite Z.eqb_refl.
    split.
    + splits; auto; lia.
    + constructor; [now left|constructor].
  - rewrite Ec in J. destruct J as (R & W & P). simpl ctl. simpl proc.
    rewrite reply_count_app, wait_count_app, R.
    destruct (answer_counts i (DownloadStarted (downloadId t))) as [-> ->].
    split; [splits; auto; lia|]. constructor; [exact I|constructor].
Qed.

Lemma Schedule_index_same (l : list Task) (es es' : list Effect) (i : nat) :
  job_effects i es' = job_effects i es ->
  match nth_error l i with
  | Some t => JobOk i t es
  | None => job_effects i es = []
  end ->
  match nth_error l i with
  | Some t => JobOk i t es'
  | None => job_effects i es' = []
  end.
Proof.
  intros E. destruct (nth_error l i); [now apply JobOk_same_effects|now rewrite E].
Qed.

Lemma Transition_Schedule s s' : Schedule s -> Transition s s' -> Schedule s'.
Proof.
  intros [F J] T. unfold Schedule.
  destruct T as [Ht He|r Ht He|id u q pl now Ht He|i t u efs Hi M Ht He].
  - rewrite Ht, He. now split.
  - rewrite Ht, He. split.
    + apply Forall_app. split; [exact F|]. constructor; [exact I|constructor].
    + intros i. apply Schedule_index_same with (es := effects s); [|apply J].
      rewrite job_effects_app. simpl. apply app_nil_r.
  - rewrite Ht, He. split.
    + apply Forall_app. split; [exact F|]. constructor; [exact I|constructor].
    + intros i. specialize (J i).
      destruct (Nat.eq_dec i (length (tasks s))) as [->|N].
      * rewrite nth_error_app2, Nat.sub_diag by lia. simpl.
        assert (Z0 : nth_error (tasks s) (length (tasks s)) = None)
          by (apply nth_error_None; lia).
        rewrite Z0 in J.
        unfold JobOk, reply_count, wait_count. simpl.
        rewrite job_effects_app, J. unfold job_effects. simpl.
        rewrite Nat.eqb_refl. simpl. now splits.
      * assert (E : job_effects i (effects s
                                   ++ [Exec (length (tasks s)) (info_command u)])
                    = job_effects i (effects s)).
        { rewrite job_effects_app. unfold job_effects at 2. simpl.
          replace (Nat.eqb (length (tasks s)) i) with false
            by (symmetry; apply Nat.eqb_neq; lia).
          apply app_nil_r. }
        destruct (Nat.lt_ge_cases i (length (tasks s))) as [L|G].
        -- rewrite nth_error_app1 by exact L.
           now apply Schedule_index_same with (es := effects s).
        -- assert (Z1 : nth_error (tasks s) i = None) by (apply nth_error_None; lia).
           rewrite Z1 in J.
           replace (nth_error (tasks s ++ [mkTask id (extractVideoId u now) u q pl ""
                                                  AwaitTitle NotStarted]) i)
             with (@None Task).
           ++ now rewrite E.
           ++ symmetry. apply nth_error_None. rewrite length_app. simpl. lia.
  - rewrite Ht, He.
    pose proof (J i) as Ji. rewrite Hi in Ji.
    destruct (JobMove_JobOk i t u efs (effects s) Ji M) as [Ju Fe].
    split; [apply Forall_app; now split|].
    intros j. destruct (Nat.eq_dec j i) as [->|N].
    + now rewrite (nth_error_replace_nth_eq _ _ u t Hi).
    + rewrite (nth_error_replace_nth_other _ _ _ u N).
      apply Schedule_index_same with (es := effects s); [|apply J].
      rewrite job_effects_app, (JobMove_about i t u efs M j N). apply app_nil_r.
Qed.

Lemma run_Schedule (es : list Event) : Schedule (run es initial).
Proof.
  assert (G : forall s, Schedule s -> Schedule (run es s)).
  { induction es as [|e r IH]; intros s S; [exact S|].
    simpl. apply IH. eapply Transition_Schedule; [exact S|apply step_Transition]. }
  apply G. split; [constructor|]. intros i. now destruct i.
Qed.

(** X15. The download handler answers the request that created a job
    exactly once, and only when [downloadFromUrl] has returned or
    thrown: on every run, the number of answers given for job [i] is 1 if
    the job has returned or thrown and 0 otherwise. *)
Theorem download_request_answered_exactly_once :
  forall (es : list Event) (i : nat),
    reply_count i (effects (run es initial))
    = match nth_error (tasks (run es initial)) i with
      | Some t => match ctl t with
                  | Returned | Thrown => 1%nat
                  | _ => 0%nat
                  end
      | None => 0%nat
      end.
Proof.
  intros es i. destruct (run_Schedule es) as [_ J]. specialize (J i).
  destruct (nth_error (tasks (run es initial)) i) as [t|].
  - unfold JobOk in J. destruct (ctl t); tauto.
  - unfold reply_count. now rewrite J.
Qed.

(** X16. The retry loop waits at most three times and pauses five, then
    ten seconds: on every run each timer of the loop (the timeout of a
    wait, the pause before a retry) is the ten-minute timeout or a pause
    of 5000 or 10000 ms, and no job starts more than three waits.  (The
    two-second pause before the quality check is part of [Verifying] and
    is not among the effects.) *)
Theorem retry_loop_waits_and_pauses :
  forall (es : list Event),
    Forall timer_ok (effects (run es initial))
    /\ forall i, (wait_count i (effects (run es initial)) <= maxRetries)%nat.
Proof.
  intros es. destruct (run_Schedule es) as [F J]. split; [exact F|].
  intros i. specialize (J i).
  destruct (nth_error (tasks (run es initial)) i) as [t|].
  - unfold JobOk in J. unfold maxRetries in *. destruct (ctl t); lia.
  - unfold wait_count. rewrite J. simpl. unfold maxRetries. lia.
Qed.

(* ------------------------------------------------------------------ *)
(** ** Finished jobs *)

Lemma JobMove_finished i t u efs :
  ctl t = Returned \/ ctl t = Thrown ->
  JobMove i t u efs -> ctl u = ctl t /\ efs = [].
Proof.
  intros F M. destruct M; try (split; reflexivity);
    exfalso; destruct F as [F|F]; congruence.
Qed.

Lemma Transition_finished s s' i t :
  nth_error (tasks s) i = Some t ->
  ctl t = Returned \/ ctl t = Thrown ->
  Transition s s' ->
  exists u, nth_error (tasks s') i = Some u
            /\ ctl u = ctl t
            /\ job_effects i (effects s') = job_effects i (effects s).
Proof.
  intros Hi F T.
  assert (L : (i < length (tasks s))%nat) by (apply nth_error_Some; congruence).
  destruct T as [Ht He|r Ht He|id u q pl now Ht He|j tj u efs Hj M Ht He].
  - exists t. now rewrite Ht, He.
  - exists t. rewrite Ht, He, job_effects_app. simpl. now rewrite app_nil_r.
  - exists t. rewrite Ht, He, job_effects_app, nth_error_app1 by exact L.
    unfold job_effects at 2. simpl.
    replace (Nat.eqb (length (tasks s)) i) with false
      by (symmetry; apply Nat.eqb_neq; lia).
    now rewrite app_nil_r.
  - rewrite Ht, He, job_effects_app.
    destruct (Nat.eq_dec i j) as [->|N].
    + rewrite Hi in Hj. injection Hj as <-.
      destruct (JobMove_finished j t u efs F M) as [C ->].
      exists u. rewrite (nth_error_replace_nth_eq _ _ u t Hi). simpl.
      now rewrite app_nil_r.
    + exists t. rewrite (nth_error_replace_nth_other _ _ _ u N).
      rewrite (JobMove_about j tj u efs M i N). now rewrite app_nil_r.
Qed.

(** X17. A call of [downloadFromUrl] that has returned or thrown is over:
    whatever events follow, the job stays returned (or thrown) and no
    further effect of it (answer, subprocess, kill, timer) is produced. *)
Theorem finished_job_stays_finished :
  forall (es : list Event) (s : Server) (i : nat) (t : Task),
    nth_error (tasks s) i = Some t ->
    ctl t = Returned \/ ctl t = Thrown ->
    exists u,
      nth_error (tasks (run es s)) i = Some u
      /\ ctl u = ctl t
      /\ job_effects i (effects (run es s)) = job_effects i (effects s).
Proof.
  induction es as [|e r IH]; intros s i t Hi F.
  - exists t. now split.
  - destruct (Transition_finished s (step e s) i t Hi F (step_Transition e s))
      as (u & Hu & Cu & Eu).
    destruct (IH (step e s) i u Hu) as (v & Hv & Cv & Ev); [now rewrite Cu|].
    exists v. simpl. split; [exact Hv|]. split; congruence.
Qed.

Lemma finished_job_stays_finished_witness :
  exists u,
    nth_error (tasks (run [Stdout 0 "[download]  12.5%"; TimeoutFired 0; Close 0 None;
                           DelayElapsed 0]
                          (run title_failure initial))) 0 = Some u
    /\ ctl u = Thrown
    /\ job_effects 0 (effects (run [Stdout 0 "[download]  12.5%"; TimeoutFired 0;
                                    Close 0 None; DelayElapsed 0]
                                   (run title_failure initial)))
       = job_effects 0 (effects (run title_failure initial)).
Proof.
  exact (finished_job_stays_finished
           [Stdout 0 "[download]  12.5%"; TimeoutFired 0; Close 0 None; DelayElapsed 0]
           (run title_failure initial) 0
           (mkTask "abcdefghijk_1001" "abcdefghijk" clip_url "1080p" false ""
                   Thrown NotStarted)
           eq_refl (or_intror eq_refl)).
Defined.

(* ------------------------------------------------------------------ *)
(** ** The output file of a job *)

Lemma has_char_app c a b :
  Str.has_char c (a ++ b) = Str.has_char c a || Str.has_char c b.
Proof.
  induction a as [|x a IH]; simpl; [reflexivity|]. now rewrite IH, orb_assoc.
Qed.

Lemma length_append a b : String.length (a ++ b) = (String.length a + String.length b)%nat.
Proof. induction a as [|x a IH]; simpl; [reflexivity|now rewrite IH]. Qed.

Lemma substring_all s : substring 0 (String.length s) s = s.
Proof. induction s as [|x s IH]; simpl; [reflexivity|now rewrite IH]. Qed.

Lemma substring_suffix a b :
  substring (String.length a) (String.length b) (a ++ b) = b.
Proof. induction a as [|x a IH]; simpl; [apply substring_all|exact IH]. Qed.

Lemma endsWith_app a suffix : Str.endsWith (a ++ suffix) suffix = true.
Proof.
  unfold Str.endsWith. rewrite length_append.
  replace (String.length a + String.length suffix - String.length suffix)%nat
    with (String.length a) by lia.
  rewrite substring_suffix, String.eqb_refl.
  replace (String.length suffix <=? String.length a + String.length suffix)%nat
    with true by (symmetry; apply Nat.leb_le; lia).
  reflexivity.
Qed.

Lemma extractVideoId_chars reqUrl now (c : ascii) :
  Regex.id_char c = false ->
  (JS.is_digit c || Ascii.eqb c "-") = false ->
  Str.has_char c "video_" = false ->
  Str.has_char c (extractVideoId reqUrl now) = false.
Proof.
  intros C D V. unfold extractVideoId.
  destruct (Regex.search Regex.youtube_re reqUrl) as [cap|] eqn:E.
  - destruct (youtube_re_capture _ _ E) as (id & -> & L & P).
    now apply (all_chars_has_char Regex.id_char).
  - rewrite has_char_app, V. simpl.
    now apply (all_chars_has_char _ _ _ (string_of_Z_chars now)).
Qed.

Lemma output_path_name t stdout timestamp (c : ascii) :
  (Ascii.eqb c Regex.dquote || Regex.one_of "<>:/\|?*" c) = true ->
  Regex.id_char c = false ->
  (exists reqUrl now, taskVideoId t = extractVideoId reqUrl now) ->
  Str.has_char c (sanitize_title stdout ++ "_" ++ taskVideoId t ++ "_"
                  ++ JS.string_of_Z timestamp ++ ".mp4") = false.
Proof.
  intros B C (reqUrl & now & ->).
  assert (U : Ascii.eqb c "_" = false).
  { destruct (Ascii.eqb_spec c "_") as [->|]; [discriminate|reflexivity]. }
  assert (D : (JS.is_digit c || Ascii.eqb c "-") = false).
  { destruct (JS.is_digit c || Ascii.eqb c "-") eqn:E; [|reflexivity].
    exfalso. revert B C E. clear.
    destruct c as [[] [] [] [] [] [] [] []]; vm_compute; congruence. }
  assert (V : Str.has_char c "video_" = false).
  { destruct (Str.has_char c "video_") eqn:E; [|reflexivity].
    exfalso. revert B E. clear.
    destruct c as [[] [] [] [] [] [] [] []]; vm_compute; congruence. }
  assert (M : Str.has_char c ".mp4" = false).
  { destruct (Str.has_char c ".mp4") eqn:E; [|reflexivity].
    exfalso. revert B E. clear.
    destruct c as [[] [] [] [] [] [] [] []]; vm_compute; congruence. }
  rewrite !has_char_app.
  rewrite (sanitize_title_avoids c stdout B U).
  rewrite (extractVideoId_chars reqUrl now c C D V).
  rewrite (all_chars_has_char _ _ _ (string_of_Z_chars timestamp) D), M.
  assert (W : Str.has_char c "_" = false)
    by (unfold Str.has_char; rewrite Ascii.eqb_sym, U; reflexivity).
  now rewrite W.
Qed.

Lemma JobMove_PathOk i t u efs : PathOk t -> JobMove i t u efs -> PathOk u.
Proof.
  intros [V O] M.
  destruct M; try exact (conj V O); split; try exact V.
  right. now exists stdout, timestamp.
Qed.

Lemma Transition_PathOk s s' :
  (forall i t, nth_error (tasks s) i = Some t -> PathOk t) ->
  Transition s s' ->
  forall i t, nth_error (tasks s') i = Some t -> PathOk t.
Proof.
  intros P T i x Hx.
  destruct T as [Ht He|r Ht He|id u q pl now Ht He|j tj u efs Hj M Ht He].
  - rewrite Ht in Hx. eauto.
  - rewrite Ht in Hx. eauto.
  - rewrite Ht in Hx. apply nth_error_snoc in Hx as [[_ ->]|[_ Hx]]; [|eauto].
    split; [now exists u, now|now left].
  - rewrite Ht in Hx. apply nth_error_replace_nth in Hx as [(_ & -> & _)|[_ Hx]]; [|eauto].
    eapply JobMove_PathOk; [|exact M]. eauto.
Qed.

Lemma run_PathOk (es : list Event) :
  forall i t, nth_error (tasks (run es initial)) i = Some t -> PathOk t.
Proof.
  assert (G : forall s,
             (forall i t, nth_error (tasks s) i = Some t -> PathOk t) ->
             forall i t, nth_error (tasks (run es s)) i = Some t -> PathOk t).
  { induction es as [|e r IH]; intros s P; [exact P|].
    simpl. apply IH. eapply Transition_PathOk; [exact P|apply step_Transition]. }
  apply G. intros [|i] t; discriminate.
Qed.

(** X18. On every run, the output file of a job, once chosen, is a file
    directly inside the downloads folder whose name ends in [.mp4] and
    holds no slash, no double quote and no question mark, whatever the
    URL asked for and whatever title yt-dlp printed. *)
Theorem output_file_stays_in_downloads_folder :
  forall (es : list Event) (i : nat) (t : Task),
    nth_error (tasks (run es initial)) i = Some t ->
    outFile t <> "" ->
    exists name,
      outFile t = Fs.join outputDir name
      /\ Str.endsWith name ".mp4" = true
      /\ Str.has_char "/" name = false
      /\ Str.has_char Regex.dquote name = false
      /\ Str.has_char "?" name = false.
Proof.
  intros es i t Hi N.
  destruct (run_PathOk es i t Hi) as [V [O|(stdout & ts & O)]]; [contradiction|].
  exists (sanitize_title stdout ++ "_" ++ taskVideoId t ++ "_"
          ++ JS.string_of_Z ts ++ ".mp4").
  split; [exact O|]. split.
  - replace (sanitize_title stdout ++ "_" ++ taskVideoId t ++ "_"
             ++ JS.string_of_Z ts ++ ".mp4")
      with ((sanitize_title stdout ++ "_" ++ taskVideoId t ++ "_"
             ++ JS.string_of_Z ts) ++ ".mp4")
      by (now rewrite !append_assoc).
    apply endsWith_app.
  - split; [|split]; now apply output_path_name.
Qed.

Lemma output_file_stays_in_downloads_folder_witness :
  exists name,
    clip_file = Fs.join outputDir name
    /\ Str.endsWith name ".mp4" = true
    /\ Str.has_char "/" name = false
    /\ Str.has_char Regex.dquote name = false
    /\ Str.has_char "?" name = false.
Proof.
  exact (output_file_stays_in_downloads_folder
           clip_events 0
           (mkTask "abcdefghijk_1001" "abcdefghijk" clip_url "1080p" false clip_file
                   Returned Closed)
           eq_refl ltac:(discriminate)).
Defined.

(* ------------------------------------------------------------------ *)
(** ** What holds of every record *)

Section RecordInvariant.
Variable P : DownloadProgress -> Prop.
Hypothesis P_new : forall vid, P (new_download vid).
Hypothesis P_title : forall t msg d, P d -> P (with_title t msg d).
Hypothesis P_downloading : forall msg path d, P d -> P (with_downloading msg path d).
Hypothesis P_stdout : forall output d, P d -> P (on_stdout output d).
Hypothesis P_error : forall msg d, P d -> P (with_error msg d).
Hypothesis P_completed : forall msg d, P d -> P (with_completed msg d).
Hypothesis P_requeue : forall d, P d -> P (requeue d).
Hypothesis P_filePath : forall path d, P d -> P (with_filePath path d).

Lemma In_set {V : Type} (m : list (string * V)) k v e :
  In e (JsMap.set m k v) -> e = (k, v) \/ In e m.
Proof.
  induction m as [|[k0 v0] r IH]; simpl.
  - intros [<-|[]]. now left.
  - destruct (String.eqb k0 k); simpl.
    + intros [<-|I]; [now left|now right; right].
    + intros [<-|I]; [now right; left|].
      destruct (IH I) as [->|I']; [now left|now right; right].
Qed.

Lemma get_In {V : Type} (m : list (string * V)) k v :
  JsMap.get m k = Some v -> In (k, v) m.
Proof.
  induction m as [|[k0 v0] r IH]; simpl; [discriminate|].
  destruct (String.eqb k0 k) eqn:E.
  - apply String.eqb_eq in E. subst k0. intros [= ->]. now left.
  - intros G. right. now apply IH.
Qed.

Lemma AllRecords_set m k v : AllRecords P m -> P v -> AllRecords P (JsMap.set m k v).
Proof.
  intros A Pv k' d G. apply In_set in G as [[= -> ->]|G]; [exact Pv|eauto].
Qed.

Lemma AllRecords_update m k f :
  (forall d, P d -> P (f d)) -> AllRecords P m -> AllRecords P (JsMap.update m k f).
Proof.
  intros Pf A. unfold JsMap.update. destruct (JsMap.get m k) as [d|] eqn:G; [|exact A].
  apply AllRecords_set; [exact A|]. apply Pf. apply get_In in G. eauto.
Qed.

Lemma attempt_failed_records i t n dl msg s :
  AllRecords P (activeDownloads s) ->
  AllRecords P (activeDownloads (attempt_failed i t n dl msg s)).
Proof.
  intros A. unfold attempt_failed, fail_task.
  destruct (S n <? maxRetries)%nat; simpl; [exact A|].
  apply AllRecords_update; auto.
Qed.

Lemma task_step_records e i t s :
  AllRecords P (activeDownloads s) -> AllRecords P (activeDownloads (task_step e i t s)).
Proof.
  intros A. unfold task_step.
  destruct e; try (destruct (ctl t); exact A).
  - destruct result; destruct (ctl t); try exact A.
    + unfold title_resolved. simpl.
      apply AllRecords_update; auto. apply AllRecords_update; auto.
    + unfold fail_task. simpl. apply AllRecords_update; auto.
  - destruct (alive (proc t)); destruct (stdout_throws output); destruct (ctl t);
      try exact A; simpl; apply AllRecords_update; auto.
  - destruct (alive (proc t) && fatal_stderr text); destruct (ctl t); exact A.
  - destruct (alive (proc t)); [|destruct (ctl t); exact A]. cbv zeta.
    destruct (ctl t); try exact A.
    destruct (proc t); try (now apply attempt_failed_records);
      (destruct code as [[| |]|]; try (now apply attempt_failed_records); exact A).
  - destruct (ctl t); try exact A.
    destruct (proc t); try exact A. now apply attempt_failed_records.
  - destruct (ctl t); try exact A. now apply attempt_failed_records.
  - destruct (ctl t); try exact A.
    unfold quality_verified. simpl. apply AllRecords_update; auto.
Qed.

Lemma entry_record id m key d :
  AllRecords P m -> getDownloadProgress_entry id m = Some (key, d) -> P d.
Proof.
  intros A. unfold getDownloadProgress_entry.
  destruct (JsMap.get m id) eqn:G.
  - intros [= <- <-]. apply get_In in G. eauto.
  - rewrite !first_entry_find.
    destruct (find _ m) as [e|] eqn:F1.
    + intros [= ->]. apply find_In in F1. destruct F1. eauto.
    + intros F2. apply find_In in F2. destruct F2. eauto.
Qed.

Lemma step_records e s :
  AllRecords P (activeDownloads s) -> AllRecords P (activeDownloads (step e s)).
Proof.
  intros A. unfold step. destruct (crashed s); [exact A|].
  destruct e;
    try (cbv beta iota delta [task_of];
         match goal with
         | |- context [nth_error (tasks s) ?i] =>
             destruct (nth_error (tasks s) i); [now apply task_step_records|exact A]
         end).
  - unfold downloadHandler. destruct (String.eqb reqUrl ""); [exact A|].
    cbv zeta. simpl activeDownloads at 2. unfold downloadFromUrl_enter.
    destruct (find is_completed_download _); [exact A|].
    destruct (find is_in_progress _); [exact A|].
    simpl. apply AllRecords_set; auto.
  - unfold checkFileHandler. destruct (String.eqb id ""); [exact A|].
    destruct (getDownloadProgress_entry id (activeDownloads s)) as [[key d]|] eqn:G;
      [|exact A].
    destruct (negb (status_eqb (status d) completed)); [exact A|].
    destruct (negb (JS.truthy (filePath d))); [exact A|].
    destruct (negb (Fs.existsSync (disk s) (JS.or_else (filePath d) "")));
      [|exact A].
    simpl. apply AllRecords_set; [exact A|]. apply P_requeue.
    eapply entry_record; eauto.
  - unfold serveFileHandler. destruct (String.eqb id ""); [exact A|].
    destruct (getDownloadProgress_entry id (activeDownloads s)) as [[key d]|] eqn:G;
      [|exact A].
    destruct (negb (JS.truthy (filePath d))); [exact A|].
    destruct (negb (Fs.existsSync (disk s) (JS.or_else (filePath d) "")));
      [|exact A].
    simpl. apply AllRecords_set; [exact A|]. apply P_requeue.
    eapply entry_record; eauto.
  - now rewrite deleteDownloadHandler_activeDownloads.
  - unfold statusHandler. destruct (getDownloadProgress _ _); exact A.
  - unfold progressHandler.
    destruct (String.eqb id ""); [|destruct (getDownloadProgress _ _)]; exact A.
  - exact A.
  - unfold getDownloadFilePath.
    destruct (JsMap.get (activeDownloads s) id) as [d|] eqn:G; [|exact A].
    destruct (negb (status_eqb (status d) completed)); [exact A|].
    destruct (JS.truthy (filePath d)); [exact A|].
    simpl. apply AllRecords_set; [exact A|]. apply P_filePath.
    apply get_In in G. eauto.
  - exact A.
  - exact A.
Qed.

Lemma run_records es s :
  AllRecords P (activeDownloads s) -> AllRecords P (activeDownloads (run es s)).
Proof.
  revert s. induction es as [|e r IH]; intros s A; [exact A|].
  simpl. apply IH. now apply step_records.
Qed.

End RecordInvariant.

Lemma digits_val_nonneg (s : string) :
  forall acc, (0 <= acc)%Z -> (0 <= JS.digits_val acc s)%Z.
Proof.
  induction s as [|c r IH]; intros acc A; cbn [JS.digits_val]; [exact A|].
  destruct (JS.is_digit c) eqn:D; [|exact A].
  apply IH. unfold JS.is_digit in D. apply andb_prop in D as [D _].
  apply Nat.leb_le in D. unfold JS.digit_val. lia.
Qed.

Lemma parseFloat_nonneg (s : string) : (inject_Z 0 <= Num.parseFloat s)%Q.
Proof.
  unfold Num.parseFloat.
  pose proof (digits_val_nonneg s 0%Z ltac:(lia)) as W.
  assert (I : (inject_Z 0 <= inject_Z (JS.digits_val 0 s))%Q)
    by (unfold Qle; simpl; lia).
  destruct (Num.skip_digits s) as [|c f]; [exact I|].
  destruct (Ascii.eqb_spec c ".") as [->|N].
  - pose proof (digits_val_nonneg f 0%Z ltac:(lia)) as F.
    unfold Qle. simpl.
    assert (0 < 10 ^ Z.of_nat (Num.count_digits f))%Z by (apply Z.pow_pos_nonneg; lia).
    nia.
  - destruct c as [[] [] [] [] [] [] [] []]; try exact I. now contradiction N.
Qed.

Lemma percentage_on_stdout output d : percentage d -> percentage (on_stdout output d).
Proof.
  intros [L U]. unfold percentage.
  destruct (on_stdout_progress output d) as [(text & _ & ->)| ->]; [|now split].
  split.
  - unfold Num.min99. apply Q.min_glb; [apply parseFloat_nonneg|].
    unfold Qle. simpl. lia.
  - eapply Qle_trans; [apply min99_le|]. unfold Qle. simpl. lia.
Qed.

(** X19. On every run, from the empty registry, the progress of every
    record is a percentage: at least 0 and at most 100, whatever the
    downloader prints. *)
Theorem progress_is_a_percentage :
  forall (es : list Event) (k : string) (d : DownloadProgress),
    JsMap.get (activeDownloads (run es initial)) k = Some d ->
    (inject_Z 0 <= progress d)%Q /\ (progress d <= inject_Z 100)%Q.
Proof.
  intros es k d G. apply get_In in G. revert k d G.
  change (AllRecords percentage (activeDownloads (run es initial))).
  assert (Z0 : (inject_Z 0 <= inject_Z 0)%Q /\ (inject_Z 0 <= inject_Z 100)%Q)
    by (split; unfold Qle; simpl; lia).
  assert (Z1 : (inject_Z 0 <= inject_Z 100)%Q /\ (inject_Z 100 <= inject_Z 100)%Q)
    by (split; unfold Qle; simpl; lia).
  apply run_records.
  - intros vid. exact Z0.
  - intros t msg r H. exact H.
  - intros msg path r H. exact H.
  - apply percentage_on_stdout.
  - intros msg r H. exact H.
  - intros msg r H. exact Z1.
  - intros r H. exact Z0.
  - intros path r H. exact H.
  - intros key r [].
Qed.

Lemma progress_is_a_percentage_witness :
  (inject_Z 0 <= inject_Z 100)%Q /\ (inject_Z 100 <= inject_Z 100)%Q.
Proof.
  exact (progress_is_a_percentage clip_events "abcdefghijk_1001"
           (mkDownload "abcdefghijk" (inject_Z 100) completed (Some "Clip")
                       (Some "✅ Download completed (1080p) - Exact Quality Match")
                       (Some clip_file))
           eq_refl).
Defined.

(* ------------------------------------------------------------------ *)
(** ** The side conditions on the sample runs *)

Lemma job_record_present_witness :
  JsMap.has (activeDownloads (run failing_events initial)) "abcdefghijk_1001" = true.
Proof.
  exact (job_record_present failing_events 0
           (mkTask "abcdefghijk_1001" "abcdefghijk" clip_url "720p" false
                   "/app/downloads/Clip_abcdefghijk_1002.mp4" Thrown Closed)
           eq_refl eq_refl).
Defined.

Lemma second_request_gets_same_id_witness :
  downloadFromUrl_enter clip_url true 2000 2000
                        [("abcdefghijk_1001", new_download "abcdefghijk")]
  = (Existing "abcdefghijk_1001", [("abcdefghijk_1001", new_download "abcdefghijk")]).
Proof.
  exact (second_request_gets_same_id clip_url false true 1000 1001 2000 []
           "abcdefghijk_1001" "abcdefghijk"
           [("abcdefghijk_1001", new_download "abcdefghijk")] eq_refl eq_refl).
Defined.

(* ------------------------------------------------------------------ *)
(** ** Asking for a job by its video id *)

Lemma first_entry_some {V : Type} (p : string -> V -> bool) (m : list (string * V)) :
  (exists k v, In (k, v) m /\ p k v = true) ->
  exists k v, JsMap.first_entry p m = Some (k, v) /\ p k v = true.
Proof.
  induction m as [|[k0 v0] r IH]; intros (k & v & I & Pk); [destruct I|].
  simpl. destruct (p k0 v0) eqn:E; [now exists k0, v0|].
  apply IH. destruct I as [[= -> ->]|I]; [congruence|now exists k, v].
Qed.

Lemma first_entry_passes {V : Type} (p : string -> V -> bool) (m : list (string * V)) k v :
  JsMap.first_entry p m = Some (k, v) -> p k v = true.
Proof.
  induction m as [|[k0 v0] r IH]; simpl; [discriminate|].
  destruct (p k0 v0) eqn:E; [now intros [= <- <-]|exact IH].
Qed.

(** X22. The client names a job by the [videoId] field of the record it
    was sent ([getDownloadId] of App.tsx).  For every record of the
    registry that id resolves: the lookup finds the job stored under
    exactly that key, or else the first job whose key starts with the id
    and an underscore, or else the first record with that [videoId]; it
    never answers that the download is not found. *)
Theorem lookup_by_video_id_resolves :
  forall (m : Downloads) (k : string) (d : DownloadProgress),
    In (k, d) m ->
    exists key found,
      getDownloadProgress_entry (videoId d) m = Some (key, found)
      /\ getDownloadProgress (videoId d) m = Some found
      /\ (key = videoId d
          \/ JS.startsWith key (videoId d ++ "_") = true
          \/ videoId found = videoId d).
Proof.
  intros m k d I. unfold getDownloadProgress, getDownloadProgress_entry.
  destruct (JsMap.get m (videoId d)) as [x|].
  { exists (videoId d), x. split; [reflexivity|]. split; [reflexivity|now left]. }
  destruct (JsMap.first_entry
              (fun downloadId _ => JS.startsWith downloadId (videoId d ++ "_")) m)
    as [[key found]|] eqn:F.
  { exists key, found. split; [reflexivity|]. split; [reflexivity|].
    right. left. exact (first_entry_passes _ _ _ _ F). }
  destruct (first_entry_some
              (fun _ downloadData => String.eqb (videoId downloadData) (videoId d)) m)
    as (key & found & -> & E).
  { exists k, d. split; [exact I|apply String.eqb_refl]. }
  exists key, found. split; [reflexivity|]. split; [reflexivity|].
  right. right. now apply String.eqb_eq.
Qed.

Lemma lookup_by_video_id_resolves_witness :
  exists key found,
    getDownloadProgress_entry "abcdefghijk" (activeDownloads finished_clip)
    = Some (key, found)
    /\ getDownloadProgress "abcdefghijk" (activeDownloads finished_clip) = Some found
    /\ (key = "abcdefghijk"
        \/ JS.startsWith key ("abcdefghijk" ++ "_") = true
        \/ videoId found = "abcdefghijk").
Proof.
  exact (lookup_by_video_id_resolves (activeDownloads finished_clip)
           "abcdefghijk_1001"
           (mkDownload "abcdefghijk" (inject_Z 100) completed (Some "Clip")
                       (Some "✅ Download completed (1080p) - Exact Quality Match")
                       (Some clip_file))
           (or_introl eq_refl)).
Defined.

(* ------------------------------------------------------------------ *)
(** ** The life of a job's status *)

Lemma JobMove_downloadId i t u efs : JobMove i t u efs -> downloadId u = downloadId t.
Proof. intros M. destruct M; reflexivity. Qed.

Lemma ctl_ok_completed t d : ctl_ok t d -> status d = completed -> ctl t = Returned.
Proof.
  unfold ctl_ok, in_flight_status. intros C S.
  destruct (ctl t); try reflexivity; exfalso; rewrite S in C;
    intuition discriminate.
Qed.

Lemma ctl_ok_queued t d :
  ctl_ok t d -> status d = queued -> ctl t <> AwaitTitle.
Proof.
  unfold ctl_ok. intros C S E. rewrite E in C. destruct C as (P & _). congruence.
Qed.

Lemma step_stdout_tasks i output s : tasks (step (Stdout i output) s) = tasks s.
Proof.
  unfold step. destruct (crashed s); [reflexivity|].
  cbv beta iota delta [task_of].
  destruct (nth_error (tasks s) i) as [t|]; [|reflexivity].
  unfold task_step.
  destruct (alive (proc t)); destruct (stdout_throws output); destruct (ctl t); reflexivity.
Qed.

(** Without the file route's requeue of a job that is not completed, a
    job in flight is never ['queued']. *)
Lemma step_Settled e s :
  Inv s -> Settled s ->
  fresh_event e s = true ->
  unguarded_requeue e s = false ->
  Settled (step e s).
Proof.
  intros HI HS Hf Hg i u d' Hu G' Q.
  assert (HI' : Inv (step e s)) by now apply step_Inv.
  assert (Own : forall j t d, nth_error (tasks s) j = Some t ->
                              JsMap.get (activeDownloads s) (downloadId t) = Some d ->
                              ctl_ok t d).
  { intros j t d Hj Gd. destruct (proj1 (proj2 HI) j t Hj) as (d0 & G0 & C0).
    rewrite Gd in G0. now injection G0 as <-. }
  assert (Cu : ctl_ok u d').
  { destruct (proj1 (proj2 HI') i u Hu) as (d0 & G0 & C0).
    rewrite G' in G0. now injection G0 as <-. }
  destruct (step_record_change e s (downloadId u) d' HI Hf G') as [U|C].
  - (* the record is as before *)
    destruct (step_Transition e s) as [Ht He|r Ht He|id v q pl now Ht He|j t x efs Hj M Ht He].
    + rewrite Ht in Hu. exact (HS i u d' Hu U Q).
    + rewrite Ht in Hu. exact (HS i u d' Hu U Q).
    + rewrite Ht in Hu. apply nth_error_snoc in Hu as [[_ ->]|[_ Hu]].
      * exfalso. now apply (ctl_ok_queued _ _ Cu Q).
      * exact (HS i u d' Hu U Q).
    + rewrite Ht in Hu.
      apply nth_error_replace_nth in Hu as [(-> & -> & _)|[_ Hu]].
      * pose proof (JobMove_downloadId _ _ _ _ M) as Ed. rewrite Ed in U.
        pose proof (HS j t d' Hj U Q) as R.
        destruct (JobMove_finished j t x efs (or_introl R) M) as [Cx _]. congruence.
      * exact (HS i u d' Hu U Q).
  - (* the record has changed *)
    inversion C; subst; simpl in Q; try discriminate.
    + (* output *)
      rewrite on_stdout_status in Q.
      rewrite step_stdout_tasks in Hu.
      match goal with
      | Hd : Some _ = JsMap.get (activeDownloads s) (downloadId u) |- _ =>
          exact (HS i u _ Hu (eq_sym Hd) Q)
      end.
    + (* the check route *)
      unfold step in Hu. destruct (crashed s); rewrite ?checkFileHandler_tasks in Hu;
        match goal with
        | Hd : Some ?d = JsMap.get (activeDownloads s) (downloadId u),
          Hc : status ?d = completed |- _ =>
            exact (ctl_ok_completed u d (Own i u d Hu (eq_sym Hd)) Hc)
        end.
    + (* the file route *)
      assert (Sc : status d = completed).
      { simpl in Hg.
        match goal with
        | H1 : String.eqb _ "" = false,
          H2 : getDownloadProgress_entry _ _ = Some _,
          H3 : JS.truthy _ = true,
          H4 : Fs.existsSync _ _ = false |- _ =>
            rewrite H1, H2, H3, H4 in Hg; simpl in Hg
        end.
        apply status_eqb_eq. now apply negb_false_iff. }
      unfold step in Hu. destruct (crashed s); rewrite ?serveFileHandler_tasks in Hu;
        match goal with
        | Hd : Some d = JsMap.get (activeDownloads s) (downloadId u) |- _ =>
            exact (ctl_ok_completed u d (Own i u d Hu (eq_sym Hd)) Sc)
        end.
Qed.

Lemma run_Settled es s :
  Inv s -> Settled s ->
  fresh_run es s = true -> guarded_run es s = true ->
  Settled (run es s).
Proof.
  revert s. induction es as [|e r IH]; intros s HI HS Hf Hg; [exact HS|].
  simpl in Hf, Hg.
  apply andb_true_iff in Hf. destruct Hf as [He Hr].
  apply andb_true_iff in Hg. destruct Hg as [Ge Gr].
  apply negb_true_iff in Ge.
  simpl. apply IH; auto.
  - now apply step_Inv.
  - now apply step_Settled.
Qed.

Lemma Settled_initial : Settled initial.
Proof. intros i t d H. destruct i; discriminate. Qed.

Lemma record_change_lifecycle s k e d d' :
  Inv s -> Settled s ->
  unguarded_requeue e s = false ->
  JsMap.get (activeDownloads s) k = Some d ->
  RecordChange s k e (Some d) d' ->
  Lifecycle e (status d) (status d').
Proof.
  intros HI HS Hg G H.
  assert (Own : forall i t, nth_error (tasks s) i = Some t -> downloadId t = k -> ctl_ok t d).
  { intros i t Hi Hk. destruct (proj1 (proj2 HI) i t Hi) as (d0 & G0 & C0).
    rewrite Hk, G in G0. now injection G0 as <-. }
  assert (Flight : forall i t, nth_error (tasks s) i = Some t -> downloadId t = k ->
                               ctl t <> Returned -> in_flight_status d ->
                               status d = downloading).
  { intros i t Hi Hk N [F|F]; [exact F|]. exfalso. apply N.
    apply (HS i t d Hi); [now rewrite Hk | exact F]. }
  inversion H; subst; simpl;
    try match goal with
        | Hi : nth_error (tasks s) _ = Some ?t, Hc : ctl ?t = _ |- _ =>
            pose proof (Own _ _ Hi eq_refl) as C; unfold ctl_ok in C; rewrite Hc in C;
            destruct C as (Cs & _)
        end.
  - rewrite Cs. constructor.
  - rewrite Cs. constructor.
  - match goal with
    | Hi : nth_error (tasks s) _ = Some ?t, Hc : ctl ?t = _ |- _ =>
        rewrite (Flight _ _ Hi eq_refl ltac:(rewrite Hc; discriminate) Cs)
    end.
    apply LcError.
    match goal with
    | Hx : _ \/ _ \/ _ |- _ => destruct Hx as [(c & ->)|[(m & ->)| ->]]; eauto
    end.
  - rewrite on_stdout_status. constructor.
  - match goal with
    | Hi : nth_error (tasks s) _ = Some ?t, Hc : ctl ?t = _ |- _ =>
        rewrite (Flight _ _ Hi eq_refl ltac:(rewrite Hc; discriminate) Cs)
    end.
    constructor.
  - match goal with Hs : status d = completed |- _ => rewrite Hs end.
    apply LcRepair. eauto.
  - assert (Sc : status d = completed).
    { simpl in Hg.
      match goal with
      | H1 : String.eqb _ "" = false,
        H2 : getDownloadProgress_entry _ _ = Some _,
        H3 : JS.truthy _ = true,
        H4 : Fs.existsSync _ _ = false |- _ =>
          rewrite H1, H2, H3, H4 in Hg; simpl in Hg
      end.
      apply status_eqb_eq. now apply negb_false_iff. }
    rewrite Sc. apply LcRepair. eauto.
Qed.

(** What [unguarded_requeue] sets apart: the file route has no test of
    the status, so asked for a job that is still downloading, whose file
    is not there yet, it requeues the job. *)
Lemma file_route_requeues_running_job :
  let s := run [ PostDownload clip_url None false 1000 1001;
                 TitleDone 0 (inl "Clip") 1002 ] initial in
  unguarded_requeue (GetFile "abcdefghijk" Streamed) s = true
  /\ option_map status (JsMap.get (activeDownloads s) "abcdefghijk_1001")
     = Some downloading
  /\ option_map status
       (JsMap.get (activeDownloads (step (GetFile "abcdefghijk" Streamed) s))
                  "abcdefghijk_1001")
     = Some queued.
Proof.
  vm_compute. repeat split; reflexivity.
Qed.

(** C7, as amended. A newly created job starts in status ['processing'],
    and every later change of a record's status follows the documented
    state machine: processing to downloading (title resolved),
    processing to error (title lookup failed), downloading to
    downloading, to completed (exit code 0, quality verified) or to
    error (retries exhausted), and completed back to queued only by the
    read-repair of the check route or of the file route. This holds
    along every run that hands out fresh job ids and in which the file
    route is not asked for a job that is not completed while its file
    is missing. *)
Theorem job_status_lifecycle :
  (forall url playlist tExtract tId m id vid m',
      downloadFromUrl_enter url playlist tExtract tId m = (Created id vid, m') ->
      option_map status (JsMap.get m' id) = Some processing)
  /\ (forall es : list Event,
         fresh_run es initial = true ->
         guarded_run es initial = true ->
         forall e k d d',
           fresh_event e (run es initial) = true ->
           unguarded_requeue e (run es initial) = false ->
           JsMap.get (activeDownloads (run es initial)) k = Some d ->
           JsMap.get (activeDownloads (step e (run es initial))) k = Some d' ->
           Lifecycle e (status d) (status d')).
Proof.
  split.
  - intros url playlist tExtract tId m id vid m' E.
    apply downloadFromUrl_enter_created in E. subst m'.
    now rewrite get_set_same.
  - intros es Hf Hg e k d d' He Ge G G'.
    assert (HI : Inv (run es initial)) by (apply run_Inv; [apply Inv_initial | exact Hf]).
    assert (HS : Settled (run es initial))
      by (apply run_Settled; auto using Inv_initial, Settled_initial).
    destruct (step_record_change e _ k d' HI He G') as [U|C].
    + rewrite G in U. injection U as <-. constructor.
    + rewrite G in C. now apply (record_change_lifecycle (run es initial) k).
Qed.

Lemma job_status_lifecycle_witness :
  fresh_run (clip_events ++ [DiskRemove clip_file]) initial = true
  /\ guarded_run (clip_events ++ [DiskRemove clip_file]) initial = true
  /\ unguarded_requeue (GetFile "abcdefghijk" Streamed)
       (run (clip_events ++ [DiskRemove clip_file]) initial) = false
  /\ Lifecycle (GetFile "abcdefghijk" Streamed) completed queued.
Proof.
  assert (Hf : fresh_run (clip_events ++ [DiskRemove clip_file]) initial = true)
    by reflexivity.
  assert (Hg : guarded_run (clip_events ++ [DiskRemove clip_file]) initial = true)
    by reflexivity.
  assert (Ge : unguarded_requeue (GetFile "abcdefghijk" Streamed)
                 (run (clip_events ++ [DiskRemove clip_file]) initial) = false)
    by reflexivity.
  split; [exact Hf|]. split; [exact Hg|]. split; [exact Ge|].
  exact (proj2 job_status_lifecycle (clip_events ++ [DiskRemove clip_file])%list Hf Hg
               (GetFile "abcdefghijk" Streamed) "abcdefghijk_1001"
               (mkDownload "abcdefghijk" (inject_Z 100) completed (Some "Clip")
                           (Some "✅ Download completed (1080p) - Exact Quality Match")
                           (Some clip_file))
               (requeue
                  (mkDownload "abcdefghijk" (inject_Z 100) completed (Some "Clip")
                              (Some "✅ Download completed (1080p) - Exact Quality Match")
                              (Some clip_file)))
               eq_refl Ge eq_refl eq_refl).
Defined.
